(** * peertracker: the three enrichment pipelines over the peer table

    A shallow embedding of [main.go]: the peer-list ingestor ([getPeerList]),
    the geo resolver ([resolveIPToGeo], [getGeoDataFromAPI]) and the hub info
    prober ([getHubInfo], [fetchHubInfo]), all of them writing the one
    [peer_addresses] table through GORM.

    Conventions of the embedding.
    - Go's [int], [int64] and [uint64] are [Z], with the wrap-around of a
      conversion or of an arithmetic operation written out ([wrap64]).
    - A [time.Time] is the instant it denotes, in nanoseconds since the Unix
      epoch; a [time.Duration] is a number of nanoseconds.
    - A Go pointer field (pointer to string, to int, to time.Time, ...) is an
      [option]: [nil] is [None].
    - A result pair (pointer, error) is a pair of options, so that Go's
      [nil, nil] is [(None, None)].
    - The network, the clock and the database driver are an environment of
      oracles ([Env]); the pipelines are state-passing programs over a
      [World] (table, clock, call counter, trace of effects).
    - The unbounded [for] loops of the resolver and of the prober take the
      number of iterations to run.
    - Logging ([log.Printf], [fmt.Printf]) has no effect on the table and is
      left out.
    - The three goroutines share the table only. A pipeline is run alone
      here; what is proved of one step of a pipeline is proved from any world,
      whatever the other goroutines wrote before the step. *)

From Stdlib Require Import ZArith List String Ascii Bool Lia.
From Stdlib Require Import Floats.PrimFloat.
Import ListNotations.

Local Open Scope string_scope.
Local Open Scope list_scope.
Local Open Scope Z_scope.

Set Implicit Arguments.

(** ** Go integers *)

(** Conversion of a mathematical integer to [int64]: two's complement. *)
Definition wrap64 (z : Z) : Z := (z + 2^63) mod 2^64 - 2^63.

Definition int64_range (z : Z) : Prop := - 2^63 <= z < 2^63.
Definition uint64_range (z : Z) : Prop := 0 <= z < 2^64.

Definition in_int64 (z : Z) : bool := (- 2^63 <=? z) && (z <? 2^63).

(** ** package time *)

Definition Time := Z.
Definition Duration := Z.

Definition Millisecond : Duration := 1000000.
Definition Second : Duration := 1000000000.
Definition Minute : Duration := 60 * Second.
Definition Hour : Duration := 60 * Minute.

(** [unixTime sec nsec]: the instant [sec] seconds and [nsec] nanoseconds
    after the epoch. *)
Definition unixTime (sec nsec : Z) : Time := sec * 1000000000 + nsec.

(** [time.Unix]: normalises [nsec] into [0, 1e9) before building the time.
    Go's [/] truncates towards zero ([Z.quot]). *)
Definition Unix (sec nsec : Z) : Time :=
  if (nsec <? 0) || (1000000000 <=? nsec) then
    let n := Z.quot nsec 1000000000 in
    let sec := sec + n in
    let nsec := nsec - n * 1000000000 in
    if nsec <? 0 then unixTime (sec - 1) (nsec + 1000000000)
    else unixTime sec nsec
  else unixTime sec nsec.

(** [time.UnixMilli(msec) = Unix(msec/1e3, (msec%1e3)*1e6)]. *)
Definition UnixMilli (msec : Z) : Time :=
  Unix (Z.quot msec 1000) (Z.rem msec 1000 * 1000000).

(** [Time.UnixMilli]: milliseconds elapsed since the epoch (rounded down). *)
Definition Time_UnixMilli (t : Time) : Z := t / 1000000.

(** The zero [time.Time] is January 1, year 1, 00:00:00 UTC. *)
Definition zeroTime : Time := unixTime (-62135596800) 0.

(** [Duration.Milliseconds]. *)
Definition Duration_Milliseconds (d : Duration) : Z := Z.quot d 1000000.

(** [time.Duration(n) * time.Second] on [int64]. *)
Definition seconds_Duration (n : Z) : Duration := wrap64 (n * Second).

(** ** package strconv *)

Definition digit_of (c : ascii) : option Z :=
  let d := Z.of_N (N_of_ascii c) - 48 in
  if (0 <=? d) && (d <=? 9) then Some d else None.

Fixpoint parse_digits (s : string) (acc : Z) : option Z :=
  match s with
  | EmptyString => Some acc
  | String c rest =>
      match digit_of c with
      | Some d => parse_digits rest (acc * 10 + d)
      | None => None
      end
  end.

(** [strconv.Atoi] on a 64-bit platform: an optional sign, at least one
    decimal digit, nothing else, and a value that fits [int]; [None] is the
    syntax or range error. *)
Definition Atoi (s : string) : option Z :=
  match s with
  | EmptyString => None
  | String c rest =>
      let neg := Ascii.eqb c "-"%char in
      let digits := if neg || Ascii.eqb c "+"%char then rest else s in
      match digits with
      | EmptyString => None
      | _ =>
          match parse_digits digits 0 with
          | Some n =>
              let v := if neg then - n else n in
              if in_int64 v then Some v else None
          | None => None
          end
      end
  end.

(** ** package net/http *)

Definition StatusOK : Z := 200.
Definition StatusTooManyRequests : Z := 429.

Definition Header := list (string * string).

(** [Header.Get]: the first value of the key, the empty string when the key
    is absent. *)
Fixpoint Header_Get (h : Header) (key : string) : string :=
  match h with
  | [] => ""
  | (k, v) :: rest => if String.eqb k key then v else Header_Get rest key
  end.

(** A response whose body is read by [json.NewDecoder(resp.Body).Decode] into
    a value of type [A]: [Body] is [None] when decoding fails. *)
Record Response (A : Type) : Type := mkResponse {
  StatusCode : Z;
  Headers : Header;
  Body : option A
}.

(** The outcome of [http.Get]: a transport error or a response. *)
Inductive HttpResult (A : Type) : Type :=
| HttpErr : HttpResult A
| HttpResp : Response A -> HttpResult A.

Arguments HttpErr {A}.
Arguments HttpResp {A} _.

(** ** The data model *)

(** The row type of the table, field for field. *)
Module PeerAddress.

Record t : Type := mk {
  Network : string;
  Address : string;
  LastSeen : Time;
  GossipAddress : string;
  GossipFamily : Z;
  GossipPort : Z;
  GossipDNSName : string;
  RPCAddress : string;
  RPCFamily : Z;
  RPCPort : Z;
  RPCDNSName : string;
  Count : Z;
  HubVersion : string;
  AppVersion : string;
  PeerTimestamp : Time;
  (* Geo Data *)
  Country : option string;
  CountryCode : option string;
  Region : option string;
  RegionName : option string;
  City : option string;
  Zip : option string;
  Latitude : option float;
  Longitude : option float;
  Hosting : option bool;
  Org : option string;
  GeoDataFetchedAt : option Time;
  (* Hub Info *)
  Latency : option Z;
  Version : option string;
  IsSyncing : option bool;
  Nickname : option string;
  RootHash : option string;
  NumMessages : option Z;
  NumFidEvents : option Z;
  NumFnameEvents : option Z;
  PeerId : option string;
  HubOperatorFid : option Z;
  InfoFetchedAt : option Time;
  CreatedAt : Time;
  UpdatedAt : Time
}.

(** The Go zero value [PeerAddress{}]. *)
Definition zero : t :=
  {|
    Network := EmptyString; Address := EmptyString; LastSeen := zeroTime;
    GossipAddress := EmptyString; GossipFamily := 0; GossipPort := 0;
    GossipDNSName := EmptyString; RPCAddress := EmptyString; RPCFamily := 0;
    RPCPort := 0; RPCDNSName := EmptyString; Count := 0;
    HubVersion := EmptyString; AppVersion := EmptyString;
    PeerTimestamp := zeroTime; Country := None; CountryCode := None;
    Region := None; RegionName := None; City := None; Zip := None;
    Latitude := None; Longitude := None; Hosting := None; Org := None;
    GeoDataFetchedAt := None; Latency := None; Version := None;
    IsSyncing := None; Nickname := None; RootHash := None;
    NumMessages := None; NumFidEvents := None; NumFnameEvents := None;
    PeerId := None; HubOperatorFid := None; InfoFetchedAt := None;
    CreatedAt := zeroTime; UpdatedAt := zeroTime
  |}.

(** Assignments to one field of a struct value. *)
Definition set_Country (v : option string) (r : t) : t :=
  {|
    Network := Network r; Address := Address r; LastSeen := LastSeen r;
    GossipAddress := GossipAddress r; GossipFamily := GossipFamily r;
    GossipPort := GossipPort r; GossipDNSName := GossipDNSName r;
    RPCAddress := RPCAddress r; RPCFamily := RPCFamily r;
    RPCPort := RPCPort r; RPCDNSName := RPCDNSName r; Count := Count r;
    HubVersion := HubVersion r; AppVersion := AppVersion r;
    PeerTimestamp := PeerTimestamp r; Country := v;
    CountryCode := CountryCode r; Region := Region r;
    RegionName := RegionName r; City := City r; Zip := Zip r;
    Latitude := Latitude r; Longitude := Longitude r; Hosting := Hosting r;
    Org := Org r; GeoDataFetchedAt := GeoDataFetchedAt r;
    Latency := Latency r; Version := Version r; IsSyncing := IsSyncing r;
    Nickname := Nickname r; RootHash := RootHash r;
    NumMessages := NumMessages r; NumFidEvents := NumFidEvents r;
    NumFnameEvents := NumFnameEvents r; PeerId := PeerId r;
    HubOperatorFid := HubOperatorFid r; InfoFetchedAt := InfoFetchedAt r;
    CreatedAt := CreatedAt r; UpdatedAt := UpdatedAt r
  |}.

Definition set_CountryCode (v : option string) (r : t) : t :=
  {|
    Network := Network r; Address := Address r; LastSeen := LastSeen r;
    GossipAddress := GossipAddress r; GossipFamily := GossipFamily r;
    GossipPort := GossipPort r; GossipDNSName := GossipDNSName r;
    RPCAddress := RPCAddress r; RPCFamily := RPCFamily r;
    RPCPort := RPCPort r; RPCDNSName := RPCDNSName r; Count := Count r;
    HubVersion := HubVersion r; AppVersion := AppVersion r;
    PeerTimestamp := PeerTimestamp r; Country := Country r; CountryCode := v;
    Region := Region r; RegionName := RegionName r; City := City r;
    Zip := Zip r; Latitude := Latitude r; Longitude := Longitude r;
    Hosting := Hosting r; Org := Org r;
    GeoDataFetchedAt := GeoDataFetchedAt r; Latency := Latency r;
    Version := Version r; IsSyncing := IsSyncing r; Nickname := Nickname r;
    RootHash := RootHash r; NumMessages := NumMessages r;
    NumFidEvents := NumFidEvents r; NumFnameEvents := NumFnameEvents r;
    PeerId := PeerId r; HubOperatorFid := HubOperatorFid r;
    InfoFetchedAt := InfoFetchedAt r; CreatedAt := CreatedAt r;
    UpdatedAt := UpdatedAt r
  |}.

Definition set_Region (v : option string) (r : t) : t :=
  {|
    Network := Network r; Address := Address r; LastSeen := LastSeen r;
    GossipAddress := GossipAddress r; GossipFamily := GossipFamily r;
    GossipPort := GossipPort r; GossipDNSName := GossipDNSName r;
    RPCAddress := RPCAddress r; RPCFamily := RPCFamily r;
    RPCPort := RPCPort r; RPCDNSName := RPCDNSName r; Count := Count r;
    HubVersion := HubVersion r; AppVersion := AppVersion r;
    PeerTimestamp := PeerTimestamp r; Country := Country r;
    CountryCode := CountryCode r; Region := v; RegionName := RegionName r;
    City := City r; Zip := Zip r; Latitude := Latitude r;
    Longitude := Longitude r; Hosting := Hosting r; Org := Org r;
    GeoDataFetchedAt := GeoDataFetchedAt r; Latency := Latency r;
    Version := Version r; IsSyncing := IsSyncing r; Nickname := Nickname r;
    RootHash := RootHash r; NumMessages := NumMessages r;
    NumFidEvents := NumFidEvents r; NumFnameEvents := NumFnameEvents r;
    PeerId := PeerId r; HubOperatorFid := HubOperatorFid r;
    InfoFetchedAt := InfoFetchedAt r; CreatedAt := CreatedAt r;
    UpdatedAt := UpdatedAt r
  |}.

Definition set_RegionName (v : option string) (r : t) : t :=
  {|
    Network := Network r; Address := Address r; LastSeen := LastSeen r;
    GossipAddress := GossipAddress r; GossipFamily := GossipFamily r;
    GossipPort := GossipPort r; GossipDNSName := GossipDNSName r;
    RPCAddress := RPCAddress r; RPCFamily := RPCFamily r;
    RPCPort := RPCPort r; RPCDNSName := RPCDNSName r; Count := Count r;
    HubVersion := HubVersion r; AppVersion := AppVersion r;
    PeerTimestamp := PeerTimestamp r; Country := Country r;
    CountryCode := CountryCode r; Region := Region r; RegionName := v;
    City := City r; Zip := Zip r; Latitude := Latitude r;
    Longitude := Longitude r; Hosting := Hosting r; Org := Org r;
    GeoDataFetchedAt := GeoDataFetchedAt r; Latency := Latency r;
    Version := Version r; IsSyncing := IsSyncing r; Nickname := Nickname r;
    RootHash := RootHash r; NumMessages := NumMessages r;
    NumFidEvents := NumFidEvents r; NumFnameEvents := NumFnameEvents r;
    PeerId := PeerId r; HubOperatorFid := HubOperatorFid r;
    InfoFetchedAt := InfoFetchedAt r; CreatedAt := CreatedAt r;
    UpdatedAt := UpdatedAt r
  |}.

Definition set_City (v : option string) (r : t) : t :=
  {|
    Network := Network r; Address := Address r; LastSeen := LastSeen r;
    GossipAddress := GossipAddress r; GossipFamily := GossipFamily r;
    GossipPort := GossipPort r; GossipDNSName := GossipDNSName r;
    RPCAddress := RPCAddress r; RPCFamily := RPCFamily r;
    RPCPort := RPCPort r; RPCDNSName := RPCDNSName r; Count := Count r;
    HubVersion := HubVersion r; AppVersion := AppVersion r;
    PeerTimestamp := PeerTimestamp r; Country := Country r;
    CountryCode := CountryCode r; Region := Region r;
    RegionName := RegionName r; City := v; Zip := Zip r;
    Latitude := Latitude r; Longitude := Longitude r; Hosting := Hosting r;
    Org := Org r; GeoDataFetchedAt := GeoDataFetchedAt r;
    Latency := Latency r; Version := Version r; IsSyncing := IsSyncing r;
    Nickname := Nickname r; RootHash := RootHash r;
    NumMessages := NumMessages r; NumFidEvents := NumFidEvents r;
    NumFnameEvents := NumFnameEvents r; PeerId := PeerId r;
    HubOperatorFid := HubOperatorFid r; InfoFetchedAt := InfoFetchedAt r;
    CreatedAt := CreatedAt r; UpdatedAt := UpdatedAt r
  |}.

Definition set_Zip (v : option string) (r : t) : t :=
  {|
    Network := Network r; Address := Address r; LastSeen := LastSeen r;
    GossipAddress := GossipAddress r; GossipFamily := GossipFamily r;
    GossipPort := GossipPort r; GossipDNSName := GossipDNSName r;
    RPCAddress := RPCAddress r; RPCFamily := RPCFamily r;
    RPCPort := RPCPort r; RPCDNSName := RPCDNSName r; Count := Count r;
    HubVersion := HubVersion r; AppVersion := AppVersion r;
    PeerTimestamp := PeerTimestamp r; Country := Country r;
    CountryCode := CountryCode r; Region := Region r;
    RegionName := RegionName r; City := City r; Zip := v;
    Latitude := Latitude r; Longitude := Longitude r; Hosting := Hosting r;
    Org := Org r; GeoDataFetchedAt := GeoDataFetchedAt r;
    Latency := Latency r; Version := Version r; IsSyncing := IsSyncing r;
    Nickname := Nickname r; RootHash := RootHash r;
    NumMessages := NumMessages r; NumFidEvents := NumFidEvents r;
    NumFnameEvents := NumFnameEvents r; PeerId := PeerId r;
    HubOperatorFid := HubOperatorFid r; InfoFetchedAt := InfoFetchedAt r;
    CreatedAt := CreatedAt r; UpdatedAt := UpdatedAt r
  |}.

Definition set_Latitude (v : option float) (r : t) : t :=
  {|
    Network := Network r; Address := Address r; LastSeen := LastSeen r;
    GossipAddress := GossipAddress r; GossipFamily := GossipFamily r;
    GossipPort := GossipPort r; GossipDNSName := GossipDNSName r;
    RPCAddress := RPCAddress r; RPCFamily := RPCFamily r;
    RPCPort := RPCPort r; RPCDNSName := RPCDNSName r; Count := Count r;
    HubVersion := HubVersion r; AppVersion := AppVersion r;
    PeerTimestamp := PeerTimestamp r; Country := Country r;
    CountryCode := CountryCode r; Region := Region r;
    RegionName := RegionName r; City := City r; Zip := Zip r; Latitude := v;
    Longitude := Longitude r; Hosting := Hosting r; Org := Org r;
    GeoDataFetchedAt := GeoDataFetchedAt r; Latency := Latency r;
    Version := Version r; IsSyncing := IsSyncing r; Nickname := Nickname r;
    RootHash := RootHash r; NumMessages := NumMessages r;
    NumFidEvents := NumFidEvents r; NumFnameEvents := NumFnameEvents r;
    PeerId := PeerId r; HubOperatorFid := HubOperatorFid r;
    InfoFetchedAt := InfoFetchedAt r; CreatedAt := CreatedAt r;
    UpdatedAt := UpdatedAt r
  |}.

Definition set_Longitude (v : option float) (r : t) : t :=
  {|
    Network := Network r; Address := Address r; LastSeen := LastSeen r;
    GossipAddress := GossipAddress r; GossipFamily := GossipFamily r;
    GossipPort := GossipPort r; GossipDNSName := GossipDNSName r;
    RPCAddress := RPCAddress r; RPCFamily := RPCFamily r;
    RPCPort := RPCPort r; RPCDNSName := RPCDNSName r; Count := Count r;
    HubVersion := HubVersion r; AppVersion := AppVersion r;
    PeerTimestamp := PeerTimestamp r; Country := Country r;
    CountryCode := CountryCode r; Region := Region r;
    RegionName := RegionName r; City := City r; Zip := Zip r;
    Latitude := Latitude r; Longitude := v; Hosting := Hosting r;
    Org := Org r; GeoDataFetchedAt := GeoDataFetchedAt r;
    Latency := Latency r; Version := Version r; IsSyncing := IsSyncing r;
    Nickname := Nickname r; RootHash := RootHash r;
    NumMessages := NumMessages r; NumFidEvents := NumFidEvents r;
    NumFnameEvents := NumFnameEvents r; PeerId := PeerId r;
    HubOperatorFid := HubOperatorFid r; InfoFetchedAt := InfoFetchedAt r;
    CreatedAt := CreatedAt r; UpdatedAt := UpdatedAt r
  |}.

Definition set_Hosting (v : option bool) (r : t) : t :=
  {|
    Network := Network r; Address := Address r; LastSeen := LastSeen r;
    GossipAddress := GossipAddress r; GossipFamily := GossipFamily r;
    GossipPort := GossipPort r; GossipDNSName := GossipDNSName r;
    RPCAddress := RPCAddress r; RPCFamily := RPCFamily r;
    RPCPort := RPCPort r; RPCDNSName := RPCDNSName r; Count := Count r;
    HubVersion := HubVersion r; AppVersion := AppVersion r;
    PeerTimestamp := PeerTimestamp r; Country := Country r;
    CountryCode := CountryCode r; Region := Region r;
    RegionName := RegionName r; City := City r; Zip := Zip r;
    Latitude := Latitude r; Longitude := Longitude r; Hosting := v;
    Org := Org r; GeoDataFetchedAt := GeoDataFetchedAt r;
    Latency := Latency r; Version := Version r; IsSyncing := IsSyncing r;
    Nickname := Nickname r; RootHash := RootHash r;
    NumMessages := NumMessages r; NumFidEvents := NumFidEvents r;
    NumFnameEvents := NumFnameEvents r; PeerId := PeerId r;
    HubOperatorFid := HubOperatorFid r; InfoFetchedAt := InfoFetchedAt r;
    CreatedAt := CreatedAt r; UpdatedAt := UpdatedAt r
  |}.

Definition set_Org (v : option string) (r : t) : t :=
  {|
    Network := Network r; Address := Address r; LastSeen := LastSeen r;
    GossipAddress := GossipAddress r; GossipFamily := GossipFamily r;
    GossipPort := GossipPort r; GossipDNSName := GossipDNSName r;
    RPCAddress := RPCAddress r; RPCFamily := RPCFamily r;
    RPCPort := RPCPort r; RPCDNSName := RPCDNSName r; Count := Count r;
    HubVersion := HubVersion r; AppVersion := AppVersion r;
    PeerTimestamp := PeerTimestamp r; Country := Country r;
    CountryCode := CountryCode r; Region := Region r;
    RegionName := RegionName r; City := City r; Zip := Zip r;
    Latitude := Latitude r; Longitude := Longitude r; Hosting := Hosting r;
    Org := v; GeoDataFetchedAt := GeoDataFetchedAt r; Latency := Latency r;
    Version := Version r; IsSyncing := IsSyncing r; Nickname := Nickname r;
    RootHash := RootHash r; NumMessages := NumMessages r;
    NumFidEvents := NumFidEvents r; NumFnameEvents := NumFnameEvents r;
    PeerId := PeerId r; HubOperatorFid := HubOperatorFid r;
    InfoFetchedAt := InfoFetchedAt r; CreatedAt := CreatedAt r;
    UpdatedAt := UpdatedAt r
  |}.

Definition set_GeoDataFetchedAt (v : option Time) (r : t) : t :=
  {|
    Network := Network r; Address := Address r; LastSeen := LastSeen r;
    GossipAddress := GossipAddress r; GossipFamily := GossipFamily r;
    GossipPort := GossipPort r; GossipDNSName := GossipDNSName r;
    RPCAddress := RPCAddress r; RPCFamily := RPCFamily r;
    RPCPort := RPCPort r; RPCDNSName := RPCDNSName r; Count := Count r;
    HubVersion := HubVersion r; AppVersion := AppVersion r;
    PeerTimestamp := PeerTimestamp r; Country := Country r;
    CountryCode := CountryCode r; Region := Region r;
    RegionName := RegionName r; City := City r; Zip := Zip r;
    Latitude := Latitude r; Longitude := Longitude r; Hosting := Hosting r;
    Org := Org r; GeoDataFetchedAt := v; Latency := Latency r;
    Version := Version r; IsSyncing := IsSyncing r; Nickname := Nickname r;
    RootHash := RootHash r; NumMessages := NumMessages r;
    NumFidEvents := NumFidEvents r; NumFnameEvents := NumFnameEvents r;
    PeerId := PeerId r; HubOperatorFid := HubOperatorFid r;
    InfoFetchedAt := InfoFetchedAt r; CreatedAt := CreatedAt r;
    UpdatedAt := UpdatedAt r
  |}.

Definition set_Latency (v : option Z) (r : t) : t :=
  {|
    Network := Network r; Address := Address r; LastSeen := LastSeen r;
    GossipAddress := GossipAddress r; GossipFamily := GossipFamily r;
    GossipPort := GossipPort r; GossipDNSName := GossipDNSName r;
    RPCAddress := RPCAddress r; RPCFamily := RPCFamily r;
    RPCPort := RPCPort r; RPCDNSName := RPCDNSName r; Count := Count r;
    HubVersion := HubVersion r; AppVersion := AppVersion r;
    PeerTimestamp := PeerTimestamp r; Country := Country r;
    CountryCode := CountryCode r; Region := Region r;
    RegionName := RegionName r; City := City r; Zip := Zip r;
    Latitude := Latitude r; Longitude := Longitude r; Hosting := Hosting r;
    Org := Org r; GeoDataFetchedAt := GeoDataFetchedAt r; Latency := v;
    Version := Version r; IsSyncing := IsSyncing r; Nickname := Nickname r;
    RootHash := RootHash r; NumMessages := NumMessages r;
    NumFidEvents := NumFidEvents r; NumFnameEvents := NumFnameEvents r;
    PeerId := PeerId r; HubOperatorFid := HubOperatorFid r;
    InfoFetchedAt := InfoFetchedAt r; CreatedAt := CreatedAt r;
    UpdatedAt := UpdatedAt r
  |}.

Definition set_Version (v : option string) (r : t) : t :=
  {|
    Network := Network r; Address := Address r; LastSeen := LastSeen r;
    GossipAddress := GossipAddress r; GossipFamily := GossipFamily r;
    GossipPort := GossipPort r; GossipDNSName := GossipDNSName r;
    RPCAddress := RPCAddress r; RPCFamily := RPCFamily r;
    RPCPort := RPCPort r; RPCDNSName := RPCDNSName r; Count := Count r;
    HubVersion := HubVersion r; AppVersion := AppVersion r;
    PeerTimestamp := PeerTimestamp r; Country := Country r;
    CountryCode := CountryCode r; Region := Region r;
    RegionName := RegionName r; City := City r; Zip := Zip r;
    Latitude := Latitude r; Longitude := Longitude r; Hosting := Hosting r;
    Org := Org r; GeoDataFetchedAt := GeoDataFetchedAt r;
    Latency := Latency r; Version := v; IsSyncing := IsSyncing r;
    Nickname := Nickname r; RootHash := RootHash r;
    NumMessages := NumMessages r; NumFidEvents := NumFidEvents r;
    NumFnameEvents := NumFnameEvents r; PeerId := PeerId r;
    HubOperatorFid := HubOperatorFid r; InfoFetchedAt := InfoFetchedAt r;
    CreatedAt := CreatedAt r; UpdatedAt := UpdatedAt r
  |}.

Definition set_IsSyncing (v : option bool) (r : t) : t :=
  {|
    Network := Network r; Address := Address r; LastSeen := LastSeen r;
    GossipAddress := GossipAddress r; GossipFamily := GossipFamily r;
    GossipPort := GossipPort r; GossipDNSName := GossipDNSName r;
    RPCAddress := RPCAddress r; RPCFamily := RPCFamily r;
    RPCPort := RPCPort r; RPCDNSName := RPCDNSName r; Count := Count r;
    HubVersion := HubVersion r; AppVersion := AppVersion r;
    PeerTimestamp := PeerTimestamp r; Country := Country r;
    CountryCode := CountryCode r; Region := Region r;
    RegionName := RegionName r; City := City r; Zip := Zip r;
    Latitude := Latitude r; Longitude := Longitude r; Hosting := Hosting r;
    Org := Org r; GeoDataFetchedAt := GeoDataFetchedAt r;
    Latency := Latency r; Version := Version r; IsSyncing := v;
    Nickname := Nickname r; RootHash := RootHash r;
    NumMessages := NumMessages r; NumFidEvents := NumFidEvents r;
    NumFnameEvents := NumFnameEvents r; PeerId := PeerId r;
    HubOperatorFid := HubOperatorFid r; InfoFetchedAt := InfoFetchedAt r;
    CreatedAt := CreatedAt r; UpdatedAt := UpdatedAt r
  |}.

Definition set_Nickname (v : option string) (r : t) : t :=
  {|
    Network := Network r; Address := Address r; LastSeen := LastSeen r;
    GossipAddress := GossipAddress r; GossipFamily := GossipFamily r;
    GossipPort := GossipPort r; GossipDNSName := GossipDNSName r;
    RPCAddress := RPCAddress r; RPCFamily := RPCFamily r;
    RPCPort := RPCPort r; RPCDNSName := RPCDNSName r; Count := Count r;
    HubVersion := HubVersion r; AppVersion := AppVersion r;
    PeerTimestamp := PeerTimestamp r; Country := Country r;
    CountryCode := CountryCode r; Region := Region r;
    RegionName := RegionName r; City := City r; Zip := Zip r;
    Latitude := Latitude r; Longitude := Longitude r; Hosting := Hosting r;
    Org := Org r; GeoDataFetchedAt := GeoDataFetchedAt r;
    Latency := Latency r; Version := Version r; IsSyncing := IsSyncing r;
    Nickname := v; RootHash := RootHash r; NumMessages := NumMessages r;
    NumFidEvents := NumFidEvents r; NumFnameEvents := NumFnameEvents r;
    PeerId := PeerId r; HubOperatorFid := HubOperatorFid r;
    InfoFetchedAt := InfoFetchedAt r; CreatedAt := CreatedAt r;
    UpdatedAt := UpdatedAt r
  |}.

Definition set_RootHash (v : option string) (r : t) : t :=
  {|
    Network := Network r; Address := Address r; LastSeen := LastSeen r;
    GossipAddress := GossipAddress r; GossipFamily := GossipFamily r;
    GossipPort := GossipPort r; GossipDNSName := GossipDNSName r;
    RPCAddress := RPCAddress r; RPCFamily := RPCFamily r;
    RPCPort := RPCPort r; RPCDNSName := RPCDNSName r; Count := Count r;
    HubVersion := HubVersion r; AppVersion := AppVersion r;
    PeerTimestamp := PeerTimestamp r; Country := Country r;
    CountryCode := CountryCode r; Region := Region r;
    RegionName := RegionName r; City := City r; Zip := Zip r;
    Latitude := Latitude r; Longitude := Longitude r; Hosting := Hosting r;
    Org := Org r; GeoDataFetchedAt := GeoDataFetchedAt r;
    Latency := Latency r; Version := Version r; IsSyncing := IsSyncing r;
    Nickname := Nickname r; RootHash := v; NumMessages := NumMessages r;
    NumFidEvents := NumFidEvents r; NumFnameEvents := NumFnameEvents r;
    PeerId := PeerId r; HubOperatorFid := HubOperatorFid r;
    InfoFetchedAt := InfoFetchedAt r; CreatedAt := CreatedAt r;
    UpdatedAt := UpdatedAt r
  |}.

Definition set_NumMessages (v : option Z) (r : t) : t :=
  {|
    Network := Network r; Address := Address r; LastSeen := LastSeen r;
    GossipAddress := GossipAddress r; GossipFamily := GossipFamily r;
    GossipPort := GossipPort r; GossipDNSName := GossipDNSName r;
    RPCAddress := RPCAddress r; RPCFamily := RPCFamily r;
    RPCPort := RPCPort r; RPCDNSName := RPCDNSName r; Count := Count r;
    HubVersion := HubVersion r; AppVersion := AppVersion r;
    PeerTimestamp := PeerTimestamp r; Country := Country r;
    CountryCode := CountryCode r; Region := Region r;
    RegionName := RegionName r; City := City r; Zip := Zip r;
    Latitude := Latitude r; Longitude := Longitude r; Hosting := Hosting r;
    Org := Org r; GeoDataFetchedAt := GeoDataFetchedAt r;
    Latency := Latency r; Version := Version r; IsSyncing := IsSyncing r;
    Nickname := Nickname r; RootHash := RootHash r; NumMessages := v;
    NumFidEvents := NumFidEvents r; NumFnameEvents := NumFnameEvents r;
    PeerId := PeerId r; HubOperatorFid := HubOperatorFid r;
    InfoFetchedAt := InfoFetchedAt r; CreatedAt := CreatedAt r;
    UpdatedAt := UpdatedAt r
  |}.

Definition set_NumFidEvents (v : option Z) (r : t) : t :=
  {|
    Network := Network r; Address := Address r; LastSeen := LastSeen r;
    GossipAddress := GossipAddress r; GossipFamily := GossipFamily r;
    GossipPort := GossipPort r; GossipDNSName := GossipDNSName r;
    RPCAddress := RPCAddress r; RPCFamily := RPCFamily r;
    RPCPort := RPCPort r; RPCDNSName := RPCDNSName r; Count := Count r;
    HubVersion := HubVersion r; AppVersion := AppVersion r;
    PeerTimestamp := PeerTimestamp r; Country := Country r;
    CountryCode := CountryCode r; Region := Region r;
    RegionName := RegionName r; City := City r; Zip := Zip r;
    Latitude := Latitude r; Longitude := Longitude r; Hosting := Hosting r;
    Org := Org r; GeoDataFetchedAt := GeoDataFetchedAt r;
    Latency := Latency r; Version := Version r; IsSyncing := IsSyncing r;
    Nickname := Nickname r; RootHash := RootHash r;
    NumMessages := NumMessages r; NumFidEvents := v;
    NumFnameEvents := NumFnameEvents r; PeerId := PeerId r;
    HubOperatorFid := HubOperatorFid r; InfoFetchedAt := InfoFetchedAt r;
    CreatedAt := CreatedAt r; UpdatedAt := UpdatedAt r
  |}.

Definition set_NumFnameEvents (v : option Z) (r : t) : t :=
  {|
    Network := Network r; Address := Address r; LastSeen := LastSeen r;
    GossipAddress := GossipAddress r; GossipFamily := GossipFamily r;
    GossipPort := GossipPort r; GossipDNSName := GossipDNSName r;
    RPCAddress := RPCAddress r; RPCFamily := RPCFamily r;
    RPCPort := RPCPort r; RPCDNSName := RPCDNSName r; Count := Count r;
    HubVersion := HubVersion r; AppVersion := AppVersion r;
    PeerTimestamp := PeerTimestamp r; Country := Country r;
    CountryCode := CountryCode r; Region := Region r;
    RegionName := RegionName r; City := City r; Zip := Zip r;
    Latitude := Latitude r; Longitude := Longitude r; Hosting := Hosting r;
    Org := Org r; GeoDataFetchedAt := GeoDataFetchedAt r;
    Latency := Latency r; Version := Version r; IsSyncing := IsSyncing r;
    Nickname := Nickname r; RootHash := RootHash r;
    NumMessages := NumMessages r; NumFidEvents := NumFidEvents r;
    NumFnameEvents := v; PeerId := PeerId r;
    HubOperatorFid := HubOperatorFid r; InfoFetchedAt := InfoFetchedAt r;
    CreatedAt := CreatedAt r; UpdatedAt := UpdatedAt r
  |}.

Definition set_PeerId (v : option string) (r : t) : t :=
  {|
    Network := Network r; Address := Address r; LastSeen := LastSeen r;
    GossipAddress := GossipAddress r; GossipFamily := GossipFamily r;
    GossipPort := GossipPort r; GossipDNSName := GossipDNSName r;
    RPCAddress := RPCAddress r; RPCFamily := RPCFamily r;
    RPCPort := RPCPort r; RPCDNSName := RPCDNSName r; Count := Count r;
    HubVersion := HubVersion r; AppVersion := AppVersion r;
    PeerTimestamp := PeerTimestamp r; Country := Country r;
    CountryCode := CountryCode r; Region := Region r;
    RegionName := RegionName r; City := City r; Zip := Zip r;
    Latitude := Latitude r; Longitude := Longitude r; Hosting := Hosting r;
    Org := Org r; GeoDataFetchedAt := GeoDataFetchedAt r;
    Latency := Latency r; Version := Version r; IsSyncing := IsSyncing r;
    Nickname := Nickname r; RootHash := RootHash r;
    NumMessages := NumMessages r; NumFidEvents := NumFidEvents r;
    NumFnameEvents := NumFnameEvents r; PeerId := v;
    HubOperatorFid := HubOperatorFid r; InfoFetchedAt := InfoFetchedAt r;
    CreatedAt := CreatedAt r; UpdatedAt := UpdatedAt r
  |}.

Definition set_HubOperatorFid (v : option Z) (r : t) : t :=
  {|
    Network := Network r; Address := Address r; LastSeen := LastSeen r;
    GossipAddress := GossipAddress r; GossipFamily := GossipFamily r;
    GossipPort := GossipPort r; GossipDNSName := GossipDNSName r;
    RPCAddress := RPCAddress r; RPCFamily := RPCFamily r;
    RPCPort := RPCPort r; RPCDNSName := RPCDNSName r; Count := Count r;
    HubVersion := HubVersion r; AppVersion := AppVersion r;
    PeerTimestamp := PeerTimestamp r; Country := Country r;
    CountryCode := CountryCode r; Region := Region r;
    RegionName := RegionName r; City := City r; Zip := Zip r;
    Latitude := Latitude r; Longitude := Longitude r; Hosting := Hosting r;
    Org := Org r; GeoDataFetchedAt := GeoDataFetchedAt r;
    Latency := Latency r; Version := Version r; IsSyncing := IsSyncing r;
    Nickname := Nickname r; RootHash := RootHash r;
    NumMessages := NumMessages r; NumFidEvents := NumFidEvents r;
    NumFnameEvents := NumFnameEvents r; PeerId := PeerId r;
    HubOperatorFid := v; InfoFetchedAt := InfoFetchedAt r;
    CreatedAt := CreatedAt r; UpdatedAt := UpdatedAt r
  |}.

Definition set_InfoFetchedAt (v : option Time) (r : t) : t :=
  {|
    Network := Network r; Address := Address r; LastSeen := LastSeen r;
    GossipAddress := GossipAddress r; GossipFamily := GossipFamily r;
    GossipPort := GossipPort r; GossipDNSName := GossipDNSName r;
    RPCAddress := RPCAddress r; RPCFamily := RPCFamily r;
    RPCPort := RPCPort r; RPCDNSName := RPCDNSName r; Count := Count r;
    HubVersion := HubVersion r; AppVersion := AppVersion r;
    PeerTimestamp := PeerTimestamp r; Country := Country r;
    CountryCode := CountryCode r; Region := Region r;
    RegionName := RegionName r; City := City r; Zip := Zip r;
    Latitude := Latitude r; Longitude := Longitude r; Hosting := Hosting r;
    Org := Org r; GeoDataFetchedAt := GeoDataFetchedAt r;
    Latency := Latency r; Version := Version r; IsSyncing := IsSyncing r;
    Nickname := Nickname r; RootHash := RootHash r;
    NumMessages := NumMessages r; NumFidEvents := NumFidEvents r;
    NumFnameEvents := NumFnameEvents r; PeerId := PeerId r;
    HubOperatorFid := HubOperatorFid r; InfoFetchedAt := v;
    CreatedAt := CreatedAt r; UpdatedAt := UpdatedAt r
  |}.

Definition set_UpdatedAt (v : Time) (r : t) : t :=
  {|
    Network := Network r; Address := Address r; LastSeen := LastSeen r;
    GossipAddress := GossipAddress r; GossipFamily := GossipFamily r;
    GossipPort := GossipPort r; GossipDNSName := GossipDNSName r;
    RPCAddress := RPCAddress r; RPCFamily := RPCFamily r;
    RPCPort := RPCPort r; RPCDNSName := RPCDNSName r; Count := Count r;
    HubVersion := HubVersion r; AppVersion := AppVersion r;
    PeerTimestamp := PeerTimestamp r; Country := Country r;
    CountryCode := CountryCode r; Region := Region r;
    RegionName := RegionName r; City := City r; Zip := Zip r;
    Latitude := Latitude r; Longitude := Longitude r; Hosting := Hosting r;
    Org := Org r; GeoDataFetchedAt := GeoDataFetchedAt r;
    Latency := Latency r; Version := Version r; IsSyncing := IsSyncing r;
    Nickname := Nickname r; RootHash := RootHash r;
    NumMessages := NumMessages r; NumFidEvents := NumFidEvents r;
    NumFnameEvents := NumFnameEvents r; PeerId := PeerId r;
    HubOperatorFid := HubOperatorFid r; InfoFetchedAt := InfoFetchedAt r;
    CreatedAt := CreatedAt r; UpdatedAt := v
  |}.

End PeerAddress.
(** A row is identified by its primary key (network, address). *)
Definition key (r : PeerAddress.t) : string * string :=
  (PeerAddress.Network r, PeerAddress.Address r).

Definition same_key (a b : PeerAddress.t) : bool :=
  String.eqb (PeerAddress.Address a) (PeerAddress.Address b)
  && String.eqb (PeerAddress.Network a) (PeerAddress.Network b).

(** The anonymous struct type of [PeerContact.GossipAddress] and
    [PeerContact.RPCAddress]. *)
Module AddressInfo.
Record t : Type := mk {
  Address : string;
  Family : Z;
  Port : Z;
  DNSName : string
}.
End AddressInfo.

Module PeerContact.
Record t : Type := mk {
  GossipAddress : AddressInfo.t;
  RPCAddress : AddressInfo.t;
  Count : Z;        (* uint64 *)
  HubVersion : string;
  Network : string;
  AppVersion : string;
  Timestamp : Z     (* int64 *)
}.

(** What [encoding/json] can decode into the struct: the numeric fields are in
    the range of their Go types. *)
Definition well_formed (c : t) : Prop :=
  uint64_range (Count c) /\ int64_range (Timestamp c).
End PeerContact.

Module PeerListResponse.
Record t : Type := mk {
  Contacts : list PeerContact.t
}.
End PeerListResponse.

Module GeoData.
Record t : Type := mk {
  Country : string;
  CountryCode : string;
  Region : string;
  RegionName : string;
  City : string;
  Zip : string;
  Latitude : float;
  Longitude : float;
  Hosting : bool;
  Org : string
}.
End GeoData.

Module HubInfo.
Record t : Type := mk {
  Version : string;
  IsSyncing : bool;
  Nickname : string;
  RootHash : string;
  PeerId : string;
  HubOperatorFid : Z;
  NumMessages : Z;
  NumFidEvents : Z;
  NumFnameEvents : Z;
  Latency : Z
}.

Definition set_HubOperatorFid (v : Z) (h : t) : t :=
  {|
    Version := Version h; IsSyncing := IsSyncing h; Nickname := Nickname h;
    RootHash := RootHash h; PeerId := PeerId h; HubOperatorFid := v;
    NumMessages := NumMessages h; NumFidEvents := NumFidEvents h;
    NumFnameEvents := NumFnameEvents h; Latency := Latency h
  |}.
End HubInfo.

Module DbStats.
Record t : Type := mk {
  NumMessages : Z;
  NumFidEvents : Z;
  NumFnameEvents : Z
}.
End DbStats.

Module HubInfoResponse.
Record t : Type := mk {
  Version : string;
  IsSyncing : bool;
  Nickname : string;
  RootHash : string;
  DbStats : DbStats.t;
  PeerId : string;
  HubOperatorFid : Z
}.
End HubInfoResponse.

Module IPAPIResponse.
Record t : Type := mk {
  Message : string;
  Query : string;
  Status : string;
  Country : string;
  CountryCode : string;
  Region : string;
  RegionName : string;
  City : string;
  Zip : string;
  Latitude : float;
  Longitude : float;
  Timezone : string;
  ISP : string;
  Org : string;
  As : string;
  Hosting : bool
}.
End IPAPIResponse.

(** ** The table, as GORM drives it

    The three statements the program issues, with GORM's documented
    behaviour: [Where(...).Limit(n).Find], [Model(m).Updates(struct)] and
    [Clauses(OnConflict{...}).Create]. The table is the list of its rows. *)

Definition Table := list PeerAddress.t.

Inductive error : Type :=
| ErrMissingWhereClause            (* gorm.ErrMissingWhereClause *)
| ErrDriver                        (* the driver or the server failed *)
| ErrRequest                       (* error making request to IP API *)
| ErrParseTtl                      (* error parsing X-Ttl header *)
| ErrRateLimit (ttlSeconds : Z)    (* rate limit exceeded, waiting ... *)
| ErrDecode                        (* error decoding response *)
| ErrNoGeoData (ipAddress : string) (* no geo data found for ... *)
| ErrFetch                         (* error fetching info for peer *)
| ErrStatus (status : Z).          (* Non-OK HTTP status for peer *)

Import PeerAddress.

(** [Updates] with a struct writes the non-zero fields of the struct only. A
    pointer field is zero when it is [nil]: a pointer to [0], to [false] or to
    the empty string is written. *)
Definition pick_string (new old : string) : string :=
  if String.eqb new EmptyString then old else new.
Definition pick_int (new old : Z) : Z :=
  if new =? 0 then old else new.
Definition pick_time (new old : Time) : Time :=
  if new =? zeroTime then old else new.
Definition pick_ptr {A : Type} (new old : option A) : option A :=
  match new with
  | Some _ => new
  | None => old
  end.

(** The SET clause of [db.Model(m).Updates(upd)] applied to the row [r]. The
    field named [UpdatedAt] tracks the update time by GORM's convention: every
    [Updates] sets it to the current time. *)
Definition assign (now : Time) (upd r : PeerAddress.t) : PeerAddress.t :=
  {|
    Network := pick_string (Network upd) (Network r);
    Address := pick_string (Address upd) (Address r);
    LastSeen := pick_time (LastSeen upd) (LastSeen r);
    GossipAddress := pick_string (GossipAddress upd) (GossipAddress r);
    GossipFamily := pick_int (GossipFamily upd) (GossipFamily r);
    GossipPort := pick_int (GossipPort upd) (GossipPort r);
    GossipDNSName := pick_string (GossipDNSName upd) (GossipDNSName r);
    RPCAddress := pick_string (RPCAddress upd) (RPCAddress r);
    RPCFamily := pick_int (RPCFamily upd) (RPCFamily r);
    RPCPort := pick_int (RPCPort upd) (RPCPort r);
    RPCDNSName := pick_string (RPCDNSName upd) (RPCDNSName r);
    Count := pick_int (Count upd) (Count r);
    HubVersion := pick_string (HubVersion upd) (HubVersion r);
    AppVersion := pick_string (AppVersion upd) (AppVersion r);
    PeerTimestamp := pick_time (PeerTimestamp upd) (PeerTimestamp r);
    Country := pick_ptr (Country upd) (Country r);
    CountryCode := pick_ptr (CountryCode upd) (CountryCode r);
    Region := pick_ptr (Region upd) (Region r);
    RegionName := pick_ptr (RegionName upd) (RegionName r);
    City := pick_ptr (City upd) (City r); Zip := pick_ptr (Zip upd) (Zip r);
    Latitude := pick_ptr (Latitude upd) (Latitude r);
    Longitude := pick_ptr (Longitude upd) (Longitude r);
    Hosting := pick_ptr (Hosting upd) (Hosting r);
    Org := pick_ptr (Org upd) (Org r);
    GeoDataFetchedAt := pick_ptr (GeoDataFetchedAt upd) (GeoDataFetchedAt r);
    Latency := pick_ptr (Latency upd) (Latency r);
    Version := pick_ptr (Version upd) (Version r);
    IsSyncing := pick_ptr (IsSyncing upd) (IsSyncing r);
    Nickname := pick_ptr (Nickname upd) (Nickname r);
    RootHash := pick_ptr (RootHash upd) (RootHash r);
    NumMessages := pick_ptr (NumMessages upd) (NumMessages r);
    NumFidEvents := pick_ptr (NumFidEvents upd) (NumFidEvents r);
    NumFnameEvents := pick_ptr (NumFnameEvents upd) (NumFnameEvents r);
    PeerId := pick_ptr (PeerId upd) (PeerId r);
    HubOperatorFid := pick_ptr (HubOperatorFid upd) (HubOperatorFid r);
    InfoFetchedAt := pick_ptr (InfoFetchedAt upd) (InfoFetchedAt r);
    CreatedAt := pick_time (CreatedAt upd) (CreatedAt r); UpdatedAt := now
  |}.

(** The WHERE clause of [db.Model(m).Updates(upd)]: one equality per primary
    key field of [m] that is not zero. *)
Definition where_model (m r : PeerAddress.t) : bool :=
  (String.eqb (Network m) EmptyString || String.eqb (Network r) (Network m))
  && (String.eqb (Address m) EmptyString
      || String.eqb (Address r) (Address m)).

(** With no condition at all GORM refuses the statement. *)
Definition missing_where (m : PeerAddress.t) : bool :=
  String.eqb (Network m) EmptyString && String.eqb (Address m) EmptyString.

Definition Updates (now : Time) (m upd : PeerAddress.t) (tbl : Table)
  : Table :=
  map (fun r => if where_model m r then assign now upd r else r) tbl.

(** [Create] fills the zero [CreatedAt] and [UpdatedAt] with the current
    time. *)
Definition stamp_create (now : Time) (row : PeerAddress.t) : PeerAddress.t :=
  {|
    Network := Network row; Address := Address row; LastSeen := LastSeen row;
    GossipAddress := GossipAddress row; GossipFamily := GossipFamily row;
    GossipPort := GossipPort row; GossipDNSName := GossipDNSName row;
    RPCAddress := RPCAddress row; RPCFamily := RPCFamily row;
    RPCPort := RPCPort row; RPCDNSName := RPCDNSName row; Count := Count row;
    HubVersion := HubVersion row; AppVersion := AppVersion row;
    PeerTimestamp := PeerTimestamp row; Country := Country row;
    CountryCode := CountryCode row; Region := Region row;
    RegionName := RegionName row; City := City row; Zip := Zip row;
    Latitude := Latitude row; Longitude := Longitude row;
    Hosting := Hosting row; Org := Org row;
    GeoDataFetchedAt := GeoDataFetchedAt row; Latency := Latency row;
    Version := Version row; IsSyncing := IsSyncing row;
    Nickname := Nickname row; RootHash := RootHash row;
    NumMessages := NumMessages row; NumFidEvents := NumFidEvents row;
    NumFnameEvents := NumFnameEvents row; PeerId := PeerId row;
    HubOperatorFid := HubOperatorFid row; InfoFetchedAt := InfoFetchedAt row;
    CreatedAt := pick_time (CreatedAt row) now;
    UpdatedAt := pick_time (UpdatedAt row) now
  |}.

(** [ON CONFLICT (address, network) DO UPDATE SET c = excluded.c] for the
    thirteen columns of [clause.AssignmentColumns]. *)
Definition do_update (excluded r : PeerAddress.t) : PeerAddress.t :=
  {|
    Network := Network r; Address := Address r;
    LastSeen := LastSeen excluded; GossipAddress := GossipAddress excluded;
    GossipFamily := GossipFamily excluded; GossipPort := GossipPort excluded;
    GossipDNSName := GossipDNSName excluded;
    RPCAddress := RPCAddress excluded; RPCFamily := RPCFamily excluded;
    RPCPort := RPCPort excluded; RPCDNSName := RPCDNSName excluded;
    Count := Count excluded; HubVersion := HubVersion excluded;
    AppVersion := AppVersion excluded;
    PeerTimestamp := PeerTimestamp excluded; Country := Country r;
    CountryCode := CountryCode r; Region := Region r;
    RegionName := RegionName r; City := City r; Zip := Zip r;
    Latitude := Latitude r; Longitude := Longitude r; Hosting := Hosting r;
    Org := Org r; GeoDataFetchedAt := GeoDataFetchedAt r;
    Latency := Latency r; Version := Version r; IsSyncing := IsSyncing r;
    Nickname := Nickname r; RootHash := RootHash r;
    NumMessages := NumMessages r; NumFidEvents := NumFidEvents r;
    NumFnameEvents := NumFnameEvents r; PeerId := PeerId r;
    HubOperatorFid := HubOperatorFid r; InfoFetchedAt := InfoFetchedAt r;
    CreatedAt := CreatedAt r; UpdatedAt := UpdatedAt r
  |}.

Definition Create_OnConflict (now : Time) (row : PeerAddress.t) (tbl : Table)
  : Table :=
  let row := stamp_create now row in
  if existsb (fun r => same_key r row) tbl
  then map (fun r => if same_key r row then do_update row r else r) tbl
  else tbl ++ [row].

(** [Where(pred).Limit(limit).Find]: the statement has no ORDER BY; the rows
    come in table order. *)
Definition Find (pred : PeerAddress.t -> bool) (limit : nat) (tbl : Table)
  : list PeerAddress.t :=
  firstn limit (filter pred tbl).

(** [geo_data_fetched_at IS NULL OR geo_data_fetched_at < now() - interval
    '1 day'], the day being 24 hours. *)
Definition geo_stale (dbnow : Time) (r : PeerAddress.t) : bool :=
  match GeoDataFetchedAt r with
  | None => true
  | Some t => t <? dbnow - 24 * Hour
  end.

(** [info_fetched_at IS NULL OR info_fetched_at < now() - interval
    '1 hour']. *)
Definition info_stale (dbnow : Time) (r : PeerAddress.t) : bool :=
  match InfoFetchedAt r with
  | None => true
  | Some t => t <? dbnow - 1 * Hour
  end.

(** ** The world the pipelines run in *)

(** The effects a pipeline has on the outside, newest first in the trace. *)
Inductive Event : Type :=
| EvGet (url : string)
| EvSleep (d : Duration)
| EvFind (peers : list PeerAddress.t)
| EvCreate (row : PeerAddress.t) (err : option error)
| EvUpdates (model upd : PeerAddress.t) (err : option error).

Record World : Type := mkWorld {
  db : Table;
  clock : Time;
  calls : nat;
  trace : list Event
}.

(** The oracles: what the [k]-th call to the outside answers and how long it
    takes. A timeout of the prober's client is one of the transport errors
    [hubAPI] may answer. *)
Record Env : Type := mkEnv {
  HUB_URL : string;
  peerListAPI : nat -> string -> HttpResult PeerListResponse.t;
  geoAPI : nat -> string -> HttpResult IPAPIResponse.t;
  hubAPI : nat -> string -> HttpResult HubInfoResponse.t;
  elapsed : nat -> Duration;
  dbFault : nat -> bool
}.

(** State passing. *)
Definition M (A : Type) : Type := World -> A * World.

Definition ret {A : Type} (a : A) : M A := fun w => (a, w).

Definition bind {A B : Type} (c : M A) (k : A -> M B) : M B :=
  fun w => let (a, w') := c w in k a w'.

Declare Scope go_scope.
Delimit Scope go_scope with go.

Notation "x <- c ;; k" := (bind c (fun x => k))
  (at level 100, c at next level, right associativity) : go_scope.
Notation "' pat <- c ;; k" := (bind c (fun x => let 'pat := x in k))
  (at level 100, pat pattern, c at next level, right associativity) : go_scope.
Notation "c ;;; k" := (bind c (fun _ => k))
  (at level 100, right associativity) : go_scope.

Local Open Scope go_scope.

(** [exec c w]: the world after running [c] from [w]. *)
Definition exec {A : Type} (c : M A) (w : World) : World := snd (c w).

(** The [range] loop over a slice. *)
Fixpoint forEach {A : Type} (l : list A) (body : A -> M unit) : M unit :=
  match l with
  | [] => ret tt
  | x :: rest => body x ;;; forEach rest body
  end.

Definition emit (ev : Event) (w : World) : World :=
  {| db := db w; clock := clock w; calls := calls w; trace := ev :: trace w |}.

Definition set_db (tbl : Table) (w : World) : World :=
  {| db := tbl; clock := clock w; calls := calls w; trace := trace w |}.

Definition advance (d : Duration) (w : World) : World :=
  {| db := db w; clock := clock w + Z.max 0 d; calls := calls w;
     trace := trace w |}.

(** The URLs the pipelines ask for. *)
Definition peerListUrl (hub : string) : string :=
  ("http://" ++ hub ++ "/v1/currentPeers")%string.

Definition geoFields : string :=
  ("status,message,country,countryCode,region,regionName,city,zip,"
   ++ "lat,lon,timezone,isp,org,as,hosting,query")%string.

Definition geoUrl (ipAddress : string) : string :=
  ("http://ip-api.com/json/" ++ ipAddress ++ "?fields=" ++ geoFields)%string.

Definition hubUrl (rpcAddress : string) : string :=
  ("http://" ++ rpcAddress ++ ":2281/v1/info?dbstats=1")%string.

Section Pipelines.

Variable env : Env.

(** One call to the outside: it takes the time the oracle says. *)
Definition tick (w : World) : World :=
  {| db := db w; clock := clock w + Z.max 0 (elapsed env (calls w));
     calls := S (calls w); trace := trace w |}.

Definition time_Now : M Time := fun w => (clock w, w).

(** [time.Sleep] pauses for at least [d]: for [d] and for what the oracle
    adds; a negative or zero [d] returns at once. *)
Definition time_Sleep (d : Duration) : M unit :=
  fun w => (tt, emit (EvSleep d) (tick (advance d w))).

Definition http_Get {A : Type} (api : nat -> string -> HttpResult A)
  (url : string) : M (HttpResult A) :=
  fun w => (api (calls w) url, emit (EvGet url) (tick w)).

(** The world after the one [http.Get] of a step. *)
Definition after_get (url : string) (w : World) : World :=
  emit (EvGet url) (tick w).

(** The error of [Find] is not looked at: on a failure the slice stays
    empty. The database's [now()] is the clock of the world. *)
Definition db_Find (pred : Time -> PeerAddress.t -> bool) (limit : nat)
  : M (list PeerAddress.t) :=
  fun w =>
    let peers :=
      if dbFault env (calls w) then []
      else Find (pred (clock w)) limit (db w) in
    (peers, emit (EvFind peers) (tick w)).

Definition db_Create (row : PeerAddress.t) : M (option error) :=
  fun w =>
    if dbFault env (calls w) then
      (Some ErrDriver, emit (EvCreate row (Some ErrDriver)) (tick w))
    else
      (None, emit (EvCreate row None)
               (tick (set_db (Create_OnConflict (clock w) row (db w)) w))).

Definition db_Updates (m upd : PeerAddress.t) : M (option error) :=
  fun w =>
    if missing_where m then
      (Some ErrMissingWhereClause,
       emit (EvUpdates m upd (Some ErrMissingWhereClause)) w)
    else if dbFault env (calls w) then
      (Some ErrDriver, emit (EvUpdates m upd (Some ErrDriver)) (tick w))
    else
      (None, emit (EvUpdates m upd None)
               (tick (set_db (Updates (clock w) m upd (db w)) w))).

(** *** Peer list ingestor *)

(** The [PeerAddress] literal built for a contact. *)
Definition peerAddressOf (now : Time) (contact : PeerContact.t)
  : PeerAddress.t :=
  {|
    Network := PeerContact.Network contact;
    Address := AddressInfo.Address (PeerContact.GossipAddress contact);
    LastSeen := now;
    GossipAddress := AddressInfo.Address (PeerContact.GossipAddress contact);
    GossipFamily := AddressInfo.Family (PeerContact.GossipAddress contact);
    GossipPort := AddressInfo.Port (PeerContact.GossipAddress contact);
    GossipDNSName := AddressInfo.DNSName (PeerContact.GossipAddress contact);
    RPCAddress := AddressInfo.Address (PeerContact.RPCAddress contact);
    RPCFamily := AddressInfo.Family (PeerContact.RPCAddress contact);
    RPCPort := AddressInfo.Port (PeerContact.RPCAddress contact);
    RPCDNSName := AddressInfo.DNSName (PeerContact.RPCAddress contact);
    Count := wrap64 (PeerContact.Count contact);
    HubVersion := PeerContact.HubVersion contact;
    AppVersion := PeerContact.AppVersion contact;
    PeerTimestamp := UnixMilli (PeerContact.Timestamp contact);
    Country := None; CountryCode := None; Region := None; RegionName := None;
    City := None; Zip := None; Latitude := None; Longitude := None;
    Hosting := None; Org := None; GeoDataFetchedAt := None;
    Latency := None; Version := None; IsSyncing := None; Nickname := None;
    RootHash := None; NumMessages := None; NumFidEvents := None;
    NumFnameEvents := None; PeerId := None; HubOperatorFid := None;
    InfoFetchedAt := None;
    CreatedAt := zeroTime; UpdatedAt := zeroTime
  |}.

(** The body of the loop over the contacts: the error of the upsert is only
    logged. *)
Definition upsertContact (contact : PeerContact.t) : M unit :=
  now <- time_Now ;;
  err <- db_Create (peerAddressOf now contact) ;;
  ret tt.

Definition getPeerList : M unit :=
  let url := peerListUrl (HUB_URL env) in
  res <- http_Get (peerListAPI env) url ;;
  match res with
  | HttpErr => ret tt
  | HttpResp resp =>
      if negb (StatusCode resp =? StatusOK) then ret tt
      else
        match Body resp with
        | None => ret tt
        | Some peerListResponse =>
            forEach (PeerListResponse.Contacts peerListResponse) upsertContact
        end
  end.

(** *** Geo resolver *)

Definition float_is_zero (f : float) : bool := PrimFloat.eqb f 0%float.

Definition getGeoDataFromAPI (ipAddress : string)
  : M (option GeoData.t * option error) :=
  let apiUrl := geoUrl ipAddress in
  res <- http_Get (geoAPI env) apiUrl ;;
  match res with
  | HttpErr => ret (None, Some ErrRequest)
  | HttpResp resp =>
      let requestsRemaining := Header_Get (Headers resp) "X-Rl" in
      let ttl := Header_Get (Headers resp) "X-Ttl" in
      if (StatusCode resp =? StatusTooManyRequests)
         || String.eqb requestsRemaining "0"
      then
        match Atoi ttl with
        | None => ret (None, Some ErrParseTtl)
        | Some ttlSeconds =>
            time_Sleep (seconds_Duration ttlSeconds) ;;;
            ret (None, Some (ErrRateLimit ttlSeconds))
        end
      else
        match Body resp with
        | None => ret (None, Some ErrDecode)
        | Some apiResponse =>
            if String.eqb (IPAPIResponse.Message apiResponse) "reserved range"
            then ret (None, None)
            else if float_is_zero (IPAPIResponse.Latitude apiResponse)
                    && float_is_zero (IPAPIResponse.Longitude apiResponse)
            then ret (None, Some (ErrNoGeoData ipAddress))
            else
              ret (Some {|
                     GeoData.Country := IPAPIResponse.Country apiResponse;
                     GeoData.CountryCode :=
                       IPAPIResponse.CountryCode apiResponse;
                     GeoData.Region := IPAPIResponse.Region apiResponse;
                     GeoData.RegionName :=
                       IPAPIResponse.RegionName apiResponse;
                     GeoData.City := IPAPIResponse.City apiResponse;
                     GeoData.Zip := IPAPIResponse.Zip apiResponse;
                     GeoData.Latitude := IPAPIResponse.Latitude apiResponse;
                     GeoData.Longitude := IPAPIResponse.Longitude apiResponse;
                     GeoData.Hosting := IPAPIResponse.Hosting apiResponse;
                     GeoData.Org := IPAPIResponse.Org apiResponse
                   |}, None)
        end
  end.

(** The update struct of the resolver: the fetch time, and the ten geo fields
    when there is geo data. *)
Definition geoUpdate (now : Time) (geoData : option GeoData.t)
  : PeerAddress.t :=
  let peerAddressUpdate := set_GeoDataFetchedAt (Some now) PeerAddress.zero in
  match geoData with
  | Some g =>
      set_Org (Some (GeoData.Org g))
      (set_Hosting (Some (GeoData.Hosting g))
      (set_Longitude (Some (GeoData.Longitude g))
      (set_Latitude (Some (GeoData.Latitude g))
      (set_Zip (Some (GeoData.Zip g))
      (set_City (Some (GeoData.City g))
      (set_RegionName (Some (GeoData.RegionName g))
      (set_Region (Some (GeoData.Region g))
      (set_CountryCode (Some (GeoData.CountryCode g))
      (set_Country (Some (GeoData.Country g)) peerAddressUpdate)))))))))
  | None => peerAddressUpdate
  end.

(** The body of the loop over the batch; [now] is the variable of
    [resolveIPToGeo]. An error of the lookup is the [continue]. *)
Definition resolvePeer (now : Time) (peer : PeerAddress.t) : M unit :=
  '(geoData, err) <- getGeoDataFromAPI (GossipAddress peer) ;;
  match err with
  | Some _ => ret tt
  | None =>
      err <- db_Updates peer (geoUpdate now geoData) ;;
      ret tt
  end.

Fixpoint resolveIPToGeo_for (iterations : nat) (batchSize : nat) (now : Time)
  : M unit :=
  match iterations with
  | O => ret tt
  | S n =>
      peers <- db_Find geo_stale batchSize ;;
      forEach peers (resolvePeer now) ;;;
      time_Sleep (1 * Minute) ;;;
      resolveIPToGeo_for n batchSize now
  end.

(** [resolveIPToGeo], run for the given number of iterations of its loop. *)
Definition resolveIPToGeo (iterations : nat) : M unit :=
  let batchSize := 10%nat in
  now <- time_Now ;;
  resolveIPToGeo_for iterations batchSize now.

(** *** Hub info prober *)

Definition fetchHubInfo (peer : PeerAddress.t)
  : M (option HubInfo.t * option error) :=
  startTime <- time_Now ;;
  let url := hubUrl (RPCAddress peer) in
  res <- http_Get (hubAPI env) url ;;
  since <- time_Now ;;
  let latency := Duration_Milliseconds (since - startTime) in
  match res with
  | HttpErr => ret (None, Some ErrFetch)
  | HttpResp resp =>
      if negb (StatusCode resp =? StatusOK)
      then ret (None, Some (ErrStatus (StatusCode resp)))
      else
        match Body resp with
        | None => ret (None, Some ErrDecode)
        | Some hubInfoResponse =>
            let stats := HubInfoResponse.DbStats hubInfoResponse in
            let hubInfo := {|
              HubInfo.Version := HubInfoResponse.Version hubInfoResponse;
              HubInfo.IsSyncing := HubInfoResponse.IsSyncing hubInfoResponse;
              HubInfo.Nickname := HubInfoResponse.Nickname hubInfoResponse;
              HubInfo.RootHash := HubInfoResponse.RootHash hubInfoResponse;
              HubInfo.PeerId := HubInfoResponse.PeerId hubInfoResponse;
              HubInfo.HubOperatorFid := 0;
              HubInfo.NumMessages := DbStats.NumMessages stats;
              HubInfo.NumFidEvents := DbStats.NumFidEvents stats;
              HubInfo.NumFnameEvents := DbStats.NumFnameEvents stats;
              HubInfo.Latency := latency
            |} in
            let hubInfo :=
              if negb (HubInfoResponse.HubOperatorFid hubInfoResponse =? 0)
              then HubInfo.set_HubOperatorFid
                     (HubInfoResponse.HubOperatorFid hubInfoResponse) hubInfo
              else hubInfo in
            ret (Some hubInfo, None)
        end
  end.

(** The update struct of the prober: the fetch time, and the ten operational
    fields, each through a pointer into [info], when there is an [info]. *)
Definition infoUpdateOf (now : Time) (info : option HubInfo.t)
  : PeerAddress.t :=
  let infoUpdate := set_InfoFetchedAt (Some now) PeerAddress.zero in
  match info with
  | Some i =>
      set_Latency (Some (HubInfo.Latency i))
      (set_HubOperatorFid (Some (HubInfo.HubOperatorFid i))
      (set_PeerId (Some (HubInfo.PeerId i))
      (set_NumFnameEvents (Some (HubInfo.NumFnameEvents i))
      (set_NumFidEvents (Some (HubInfo.NumFidEvents i))
      (set_NumMessages (Some (HubInfo.NumMessages i))
      (set_RootHash (Some (HubInfo.RootHash i))
      (set_Nickname (Some (HubInfo.Nickname i))
      (set_IsSyncing (Some (HubInfo.IsSyncing i))
      (set_Version (Some (HubInfo.Version i)) infoUpdate)))))))))
  | None => infoUpdate
  end.

(** The body of the loop over the batch; [now] is the variable of
    [getHubInfo]. The error of the probe is only logged. *)
Definition probePeer (now : Time) (peer : PeerAddress.t) : M unit :=
  '(info, err) <- fetchHubInfo peer ;;
  err <- db_Updates peer (infoUpdateOf now info) ;;
  ret tt.

Fixpoint getHubInfo_for (iterations : nat) (batchSize : nat) (now : Time)
  : M unit :=
  match iterations with
  | O => ret tt
  | S n =>
      peers <- db_Find info_stale batchSize ;;
      forEach peers (probePeer now) ;;;
      time_Sleep (30 * Second) ;;;
      getHubInfo_for n batchSize now
  end.

(** [getHubInfo], run for the given number of iterations of its loop. *)
Definition getHubInfo (iterations : nat) : M unit :=
  let batchSize := 10%nat in
  now <- time_Now ;;
  getHubInfo_for iterations batchSize now.

End Pipelines.

(** ** The vocabulary of the properties *)

(** The tables the program can build: it starts from the empty table and
    writes through the three statements of the pipelines only. *)
Inductive reachable : Table -> Prop :=
| reach_empty : reachable []
| reach_create : forall now t contact tbl,
    reachable tbl ->
    reachable (Create_OnConflict now (peerAddressOf t contact) tbl)
| reach_geo : forall now t m geoData tbl,
    reachable tbl ->
    reachable (Updates now m (geoUpdate t geoData) tbl)
| reach_info : forall now t m info tbl,
    reachable tbl ->
    reachable (Updates now m (infoUpdateOf t info) tbl).

(** The rate-limit test of [getGeoDataFromAPI]. *)
Definition rate_limited (resp : Response IPAPIResponse.t) : bool :=
  (StatusCode resp =? StatusTooManyRequests)
  || String.eqb (Header_Get (Headers resp) "X-Rl") "0".

(** A lookup that succeeds with real data: not rate limited, decoded, not a
    reserved range, and not the coordinates (0, 0). *)
Definition real_data (resp : Response IPAPIResponse.t)
  (api : IPAPIResponse.t) : Prop :=
  rate_limited resp = false
  /\ Body resp = Some api
  /\ String.eqb (IPAPIResponse.Message api) "reserved range" = false
  /\ float_is_zero (IPAPIResponse.Latitude api)
     && float_is_zero (IPAPIResponse.Longitude api) = false.

(** A fetch that fails: transport error, status other than 200, or a body
    that does not decode. *)
Definition fetch_failed {A : Type} (res : HttpResult A) : Prop :=
  match res with
  | HttpErr => True
  | HttpResp resp => StatusCode resp <> StatusOK \/ Body resp = None
  end.

(** What [fetchHubInfo] returns for a response that decodes. *)
Definition hubInfoOf (latency : Z) (r : HubInfoResponse.t) : HubInfo.t :=
  {|
    HubInfo.Version := HubInfoResponse.Version r;
    HubInfo.IsSyncing := HubInfoResponse.IsSyncing r;
    HubInfo.Nickname := HubInfoResponse.Nickname r;
    HubInfo.RootHash := HubInfoResponse.RootHash r;
    HubInfo.PeerId := HubInfoResponse.PeerId r;
    HubInfo.HubOperatorFid := HubInfoResponse.HubOperatorFid r;
    HubInfo.NumMessages := DbStats.NumMessages (HubInfoResponse.DbStats r);
    HubInfo.NumFidEvents := DbStats.NumFidEvents (HubInfoResponse.DbStats r);
    HubInfo.NumFnameEvents :=
      DbStats.NumFnameEvents (HubInfoResponse.DbStats r);
    HubInfo.Latency := latency
  |}.

(** The latency the prober measures around its request. *)
Definition latency_at (env : Env) (w : World) : Z :=
  Duration_Milliseconds (clock (tick env w) - clock w).

(** The events a run adds to the trace all satisfy [P]. *)
Definition adds (P : Event -> Prop) (w w' : World) : Prop :=
  exists evs, trace w' = evs ++ trace w /\ Forall P evs.

(** The events of the resolver: it creates no row, and each of its [Updates]
    carries the fetch time [t]. *)
Definition geo_stamped (t : Time) (ev : Event) : Prop :=
  match ev with
  | EvUpdates _ upd _ => GeoDataFetchedAt upd = Some t
  | EvCreate _ _ => False
  | _ => True
  end.

(** The events of the prober: it creates no row, and each of its [Updates]
    carries the fetch time [t]. *)
Definition info_stamped (t : Time) (ev : Event) : Prop :=
  match ev with
  | EvUpdates _ upd _ => InfoFetchedAt upd = Some t
  | EvCreate _ _ => False
  | _ => True
  end.

(** A run that writes nothing: no [Create] and no [Updates]. *)
Definition no_write (ev : Event) : Prop :=
  match ev with
  | EvUpdates _ _ _ => False
  | EvCreate _ _ => False
  | _ => True
  end.

(** The fetch time of a row is the one it had or the time [t]. *)
Definition geo_time_kept_or (t : Time) (r0 r : PeerAddress.t) : Prop :=
  GeoDataFetchedAt r = GeoDataFetchedAt r0 \/ GeoDataFetchedAt r = Some t.

Definition info_time_kept_or (t : Time) (r0 r : PeerAddress.t) : Prop :=
  InfoFetchedAt r = InfoFetchedAt r0 \/ InfoFetchedAt r = Some t.

(** The update struct writes one of the ten geo fields. *)
Definition writes_geo (upd : PeerAddress.t) : Prop :=
  Country upd <> None \/ CountryCode upd <> None \/ Region upd <> None
  \/ RegionName upd <> None \/ City upd <> None \/ Zip upd <> None
  \/ Latitude upd <> None \/ Longitude upd <> None \/ Hosting upd <> None
  \/ Org upd <> None.

(** No statement writes a geo field without the geo fetch time. *)
Definition geo_with_stamp (ev : Event) : Prop :=
  match ev with
  | EvUpdates _ upd _ => writes_geo upd -> GeoDataFetchedAt upd <> None
  | EvCreate row _ => ~ writes_geo row
  | _ => True
  end.

(** The row [r] after the resolver's update with geo data [g], fetch time [t]
    and update time [now]. *)
Definition with_geo (now t : Time) (g : GeoData.t) (r : PeerAddress.t)
  : PeerAddress.t :=
  set_UpdatedAt now
  (set_GeoDataFetchedAt (Some t)
  (set_Org (Some (GeoData.Org g))
  (set_Hosting (Some (GeoData.Hosting g))
  (set_Longitude (Some (GeoData.Longitude g))
  (set_Latitude (Some (GeoData.Latitude g))
  (set_Zip (Some (GeoData.Zip g))
  (set_City (Some (GeoData.City g))
  (set_RegionName (Some (GeoData.RegionName g))
  (set_Region (Some (GeoData.Region g))
  (set_CountryCode (Some (GeoData.CountryCode g))
  (set_Country (Some (GeoData.Country g)) r))))))))))).

(** The row [r] after the prober's update with the probe's [i], fetch time
    [t] and update time [now]. *)
Definition with_info (now t : Time) (i : HubInfo.t) (r : PeerAddress.t)
  : PeerAddress.t :=
  set_UpdatedAt now
  (set_InfoFetchedAt (Some t)
  (set_Latency (Some (HubInfo.Latency i))
  (set_HubOperatorFid (Some (HubInfo.HubOperatorFid i))
  (set_PeerId (Some (HubInfo.PeerId i))
  (set_NumFnameEvents (Some (HubInfo.NumFnameEvents i))
  (set_NumFidEvents (Some (HubInfo.NumFidEvents i))
  (set_NumMessages (Some (HubInfo.NumMessages i))
  (set_RootHash (Some (HubInfo.RootHash i))
  (set_Nickname (Some (HubInfo.Nickname i))
  (set_IsSyncing (Some (HubInfo.IsSyncing i))
  (set_Version (Some (HubInfo.Version i)) r))))))))))).

(** The geo data of a decoded answer. *)
Definition geoDataOf (api : IPAPIResponse.t) : GeoData.t :=
  {|
    GeoData.Country := IPAPIResponse.Country api;
    GeoData.CountryCode := IPAPIResponse.CountryCode api;
    GeoData.Region := IPAPIResponse.Region api;
    GeoData.RegionName := IPAPIResponse.RegionName api;
    GeoData.City := IPAPIResponse.City api;
    GeoData.Zip := IPAPIResponse.Zip api;
    GeoData.Latitude := IPAPIResponse.Latitude api;
    GeoData.Longitude := IPAPIResponse.Longitude api;
    GeoData.Hosting := IPAPIResponse.Hosting api;
    GeoData.Org := IPAPIResponse.Org api
  |}.

(** The number of upserts attempted in a trace. *)
Definition is_create (ev : Event) : bool :=
  match ev with
  | EvCreate _ _ => true
  | _ => false
  end.

Definition attempts (tr : list Event) : nat :=
  List.length (filter is_create tr).

(** ** Concrete inputs *)

Definition addr (a : string) : AddressInfo.t :=
  {| AddressInfo.Address := a; AddressInfo.Family := 4;
     AddressInfo.Port := 2282; AddressInfo.DNSName := EmptyString |}.

Definition contact_a (count timestamp : Z) : PeerContact.t :=
  {| PeerContact.GossipAddress := addr "10.0.0.7";
     PeerContact.RPCAddress := addr "10.0.0.7";
     PeerContact.Count := count;
     PeerContact.HubVersion := "1.9.2";
     PeerContact.Network := "mainnet";
     PeerContact.AppVersion := "1.0";
     PeerContact.Timestamp := timestamp |}.

(** A row as the ingestor leaves it at time 0. *)
Definition peer_a : PeerAddress.t :=
  stamp_create 0 (peerAddressOf 0 (contact_a 3 1700000000000)).

Definition world_at (t : Time) (tbl : Table) : World :=
  {| db := tbl; clock := t; calls := 0; trace := [] |}.

(** An environment whose peer-list endpoint answers [res], whose other
    endpoints are down, whose calls take no time and whose database fails at
    the calls listed in [faults]. *)
Definition env_peers (res : HttpResult PeerListResponse.t)
  (faults : list nat) : Env :=
  {| HUB_URL := "hub.example:2281";
     peerListAPI := fun _ _ => res;
     geoAPI := fun _ _ => HttpErr;
     hubAPI := fun _ _ => HttpErr;
     elapsed := fun _ => 0;
     dbFault := fun k => existsb (Nat.eqb k) faults |}.

Definition ok_response {A : Type} (body : A) : HttpResult A :=
  HttpResp {| StatusCode := 200; Headers := []; Body := Some body |}.

Definition contact_b : PeerContact.t :=
  {| PeerContact.GossipAddress := addr "10.0.0.8";
     PeerContact.RPCAddress := addr "10.0.0.8";
     PeerContact.Count := 1;
     PeerContact.HubVersion := "1.9.2";
     PeerContact.Network := "mainnet";
     PeerContact.AppVersion := "1.0";
     PeerContact.Timestamp := 1700000000001 |}.

Definition contact_c : PeerContact.t :=
  {| PeerContact.GossipAddress := addr "10.0.0.9";
     PeerContact.RPCAddress := addr "10.0.0.9";
     PeerContact.Count := 2;
     PeerContact.HubVersion := "1.9.2";
     PeerContact.Network := "mainnet";
     PeerContact.AppVersion := "1.0";
     PeerContact.Timestamp := 1700000000002 |}.

(** Answers of the geolocation service. *)
Definition api_fail (message : string) : IPAPIResponse.t :=
  {| IPAPIResponse.Message := message;
     IPAPIResponse.Query := "10.0.0.7";
     IPAPIResponse.Status := "fail";
     IPAPIResponse.Country := EmptyString;
     IPAPIResponse.CountryCode := EmptyString;
     IPAPIResponse.Region := EmptyString;
     IPAPIResponse.RegionName := EmptyString;
     IPAPIResponse.City := EmptyString;
     IPAPIResponse.Zip := EmptyString;
     IPAPIResponse.Latitude := 0%float;
     IPAPIResponse.Longitude := 0%float;
     IPAPIResponse.Timezone := EmptyString;
     IPAPIResponse.ISP := EmptyString;
     IPAPIResponse.Org := EmptyString;
     IPAPIResponse.As := EmptyString;
     IPAPIResponse.Hosting := false |}.

Definition api_berlin : IPAPIResponse.t :=
  {| IPAPIResponse.Message := EmptyString;
     IPAPIResponse.Query := "10.0.0.7";
     IPAPIResponse.Status := "success";
     IPAPIResponse.Country := "Germany";
     IPAPIResponse.CountryCode := "DE";
     IPAPIResponse.Region := "BE";
     IPAPIResponse.RegionName := "Land Berlin";
     IPAPIResponse.City := "Berlin";
     IPAPIResponse.Zip := "10115";
     IPAPIResponse.Latitude := 52.5%float;
     IPAPIResponse.Longitude := 13.5%float;
     IPAPIResponse.Timezone := "Europe/Berlin";
     IPAPIResponse.ISP := "Example Net";
     IPAPIResponse.Org := "Example Org";
     IPAPIResponse.As := "AS64500 Example";
     IPAPIResponse.Hosting := true |}.

Definition geo_response (status : Z) (rl ttl : string)
  (body : option IPAPIResponse.t) : HttpResult IPAPIResponse.t :=
  HttpResp {| StatusCode := status;
              Headers := [("X-Rl", rl); ("X-Ttl", ttl)];
              Body := body |}.

(** An environment whose geolocation service answers the [k]-th call with
    [answer k], whose calls take no time and whose database never fails. *)
Definition env_geo (answer : nat -> HttpResult IPAPIResponse.t) : Env :=
  {| HUB_URL := "hub.example:2281";
     peerListAPI := fun _ _ => HttpErr;
     geoAPI := fun k _ => answer k;
     hubAPI := fun _ _ => HttpErr;
     elapsed := fun _ => 0;
     dbFault := fun _ => false |}.

(** The service is down for the first 4324 calls of the process and then
    answers that the address is in a reserved range. *)
Definition down_then_reserved (k : nat) : HttpResult IPAPIResponse.t :=
  if (k <? 4324)%nat then HttpErr
  else geo_response 200 "44" "60" (Some (api_fail "reserved range")).

(** Answers of a hub to the prober. *)
Definition hub_body (fid : Z) : HubInfoResponse.t :=
  {| HubInfoResponse.Version := "1.9.2";
     HubInfoResponse.IsSyncing := false;
     HubInfoResponse.Nickname := "hub-a";
     HubInfoResponse.RootHash := "a1b2c3";
     HubInfoResponse.DbStats :=
       {| DbStats.NumMessages := 10; DbStats.NumFidEvents := 20;
          DbStats.NumFnameEvents := 30 |};
     HubInfoResponse.PeerId := "12D3KooW";
     HubInfoResponse.HubOperatorFid := fid |}.

(** An environment whose hubs all answer [answer], whose calls take seven
    milliseconds and whose database never fails. *)
Definition env_hub (answer : HttpResult HubInfoResponse.t) : Env :=
  {| HUB_URL := "hub.example:2281";
     peerListAPI := fun _ _ => HttpErr;
     geoAPI := fun _ _ => HttpErr;
     hubAPI := fun _ _ => answer;
     elapsed := fun _ => 7 * Millisecond;
     dbFault := fun _ => false |}.

(** The row of the peer 10.0.0.7 after a probe at time 0 that reported the
    operator fid 5. *)
Definition peer_probed : PeerAddress.t :=
  with_info 0 0 (hubInfoOf 7 (hub_body 5)) peer_a.

(** ** The ingestor's goroutine *)

Section Ingestor.

Variable env : Env.

(** Receiving from [ticker.C] blocks until the ticker delivers a tick: the
    oracle says for how long. *)
Definition ticker_recv : M unit := fun w => (tt, tick env w).

Fixpoint ingestor_for (ticks : nat) : M unit :=
  match ticks with
  | O => ret tt
  | S n => ticker_recv ;;; getPeerList env ;;; ingestor_for n
  end.

(** The goroutine of [main] that seeds the table and then polls on every
    tick, run for the given number of ticks. *)
Definition ingestor (ticks : nat) : M unit :=
  getPeerList env ;;; ingestor_for ticks.

End Ingestor.

(** ** The column groups of a row *)

(** The thirteen columns the upsert assigns on conflict. *)
Definition ingest_cols (r : PeerAddress.t) :=
  (LastSeen r,
   (GossipAddress r, GossipFamily r, GossipPort r, GossipDNSName r),
   (RPCAddress r, RPCFamily r, RPCPort r, RPCDNSName r),
   (PeerTimestamp r, HubVersion r, AppVersion r, Count r)).

(** The ten geo columns. *)
Definition geo_fields (r : PeerAddress.t) :=
  (Country r, CountryCode r, Region r, RegionName r, City r,
   (Zip r, Latitude r, Longitude r, Hosting r, Org r)).

(** The ten operational columns. *)
Definition info_fields (r : PeerAddress.t) :=
  (Latency r, Version r, IsSyncing r, Nickname r, RootHash r,
   (NumMessages r, NumFidEvents r, NumFnameEvents r, PeerId r,
    HubOperatorFid r)).

Definition geo_of (g : GeoData.t) :=
  (Some (GeoData.Country g), Some (GeoData.CountryCode g),
   Some (GeoData.Region g), Some (GeoData.RegionName g),
   Some (GeoData.City g),
   (Some (GeoData.Zip g), Some (GeoData.Latitude g),
    Some (GeoData.Longitude g), Some (GeoData.Hosting g),
    Some (GeoData.Org g))).

Definition info_of (i : HubInfo.t) :=
  (Some (HubInfo.Latency i), Some (HubInfo.Version i),
   Some (HubInfo.IsSyncing i), Some (HubInfo.Nickname i),
   Some (HubInfo.RootHash i),
   (Some (HubInfo.NumMessages i), Some (HubInfo.NumFidEvents i),
    Some (HubInfo.NumFnameEvents i), Some (HubInfo.PeerId i),
    Some (HubInfo.HubOperatorFid i))).

(** The geo columns of a row are all NULL, or they are all set and the geo
    fetch time is set with them. *)
Definition geo_group_inv (r : PeerAddress.t) : Prop :=
  geo_fields r = geo_fields PeerAddress.zero
  \/ ((exists g, geo_fields r = geo_of g) /\ GeoDataFetchedAt r <> None).

(** The operational columns of a row are all NULL, or they are all set and
    the info fetch time is set with them. *)
Definition info_group_inv (r : PeerAddress.t) : Prop :=
  info_fields r = info_fields PeerAddress.zero
  \/ ((exists i, info_fields r = info_of i) /\ InfoFetchedAt r <> None).

(** What a run of the resolver keeps of a row. *)
Definition kept_by_resolver (r0 r : PeerAddress.t) : Prop :=
  key r = key r0 /\ ingest_cols r = ingest_cols r0
  /\ info_fields r = info_fields r0 /\ InfoFetchedAt r = InfoFetchedAt r0
  /\ CreatedAt r = CreatedAt r0.

(** What a run of the prober keeps of a row. *)
Definition kept_by_prober (r0 r : PeerAddress.t) : Prop :=
  key r = key r0 /\ ingest_cols r = ingest_cols r0
  /\ geo_fields r = geo_fields r0
  /\ GeoDataFetchedAt r = GeoDataFetchedAt r0
  /\ CreatedAt r = CreatedAt r0.

(** What a run of the ingestor keeps of a row. *)
Definition kept_by_ingestor (r0 r : PeerAddress.t) : Prop :=
  key r = key r0
  /\ geo_fields r = geo_fields r0
  /\ GeoDataFetchedAt r = GeoDataFetchedAt r0
  /\ info_fields r = info_fields r0 /\ InfoFetchedAt r = InfoFetchedAt r0
  /\ CreatedAt r = CreatedAt r0 /\ UpdatedAt r = UpdatedAt r0.

(** The table [tbl'] holds the rows of [tbl], in order and related by [R],
    and after them rows that were added. *)
Definition grows (R : PeerAddress.t -> PeerAddress.t -> Prop)
  (tbl tbl' : Table) : Prop :=
  exists kept added, tbl' = kept ++ added /\ Forall2 R tbl kept.

Definition set_LastSeen (v : Time) (r : PeerAddress.t) : PeerAddress.t :=
  {|
    Network := Network r; Address := Address r; LastSeen := v;
    GossipAddress := GossipAddress r; GossipFamily := GossipFamily r;
    GossipPort := GossipPort r; GossipDNSName := GossipDNSName r;
    RPCAddress := RPCAddress r; RPCFamily := RPCFamily r;
    RPCPort := RPCPort r; RPCDNSName := RPCDNSName r; Count := Count r;
    HubVersion := HubVersion r; AppVersion := AppVersion r;
    PeerTimestamp := PeerTimestamp r; Country := Country r;
    CountryCode := CountryCode r; Region := Region r;
    RegionName := RegionName r; City := City r; Zip := Zip r;
    Latitude := Latitude r; Longitude := Longitude r; Hosting := Hosting r;
    Org := Org r; GeoDataFetchedAt := GeoDataFetchedAt r;
    Latency := Latency r; Version := Version r; IsSyncing := IsSyncing r;
    Nickname := Nickname r; RootHash := RootHash r;
    NumMessages := NumMessages r; NumFidEvents := NumFidEvents r;
    NumFnameEvents := NumFnameEvents r; PeerId := PeerId r;
    HubOperatorFid := HubOperatorFid r; InfoFetchedAt := InfoFetchedAt r;
    CreatedAt := CreatedAt r; UpdatedAt := UpdatedAt r
  |}.

(** The number of requests in a trace. *)
Definition is_get (ev : Event) : bool :=
  match ev with
  | EvGet _ => true
  | _ => false
  end.

Definition gets (tr : list Event) : nat := List.length (filter is_get tr).

(** The number of [Updates] statements in a trace. *)
Definition is_updates (ev : Event) : bool :=
  match ev with
  | EvUpdates _ _ _ => true
  | _ => false
  end.

Definition statements (tr : list Event) : nat :=
  List.length (filter is_updates tr).

(** An [Updates] that writes coordinates does not write (0, 0). *)
Definition real_coordinates (ev : Event) : Prop :=
  match ev with
  | EvUpdates _ upd _ =>
      match Latitude upd, Longitude upd with
      | Some lat, Some lon =>
          float_is_zero lat && float_is_zero lon = false
      | _, _ => True
      end
  | _ => True
  end.

(** From [w] to [w'] the run sent [g] requests, issued [s] [Updates] and
    took at least the time [d]. *)
Definition paced (g s : nat) (d : Duration) (w w' : World) : Prop :=
  gets (trace w') = (gets (trace w) + g)%nat
  /\ statements (trace w') = (statements (trace w) + s)%nat
  /\ clock w + d <= clock w'.

(** ** Concrete tables *)

(** The peer 10.0.0.7 ingested at time 0, resolved to Berlin by an update of
    time 30 and probed by an update of time 40. *)
Definition table_resolved : Table :=
  Updates 30 peer_a (geoUpdate 20 (Some (geoDataOf api_berlin)))
    (Create_OnConflict 0 (peerAddressOf 0 (contact_a 3 1700000000000)) []).

Definition table_probed : Table :=
  Updates 40 peer_a (infoUpdateOf 35 (Some (hubInfoOf 7 (hub_body 5))))
    table_resolved.

(** A second row, for the peer 10.0.0.8. *)
Definition peer_b : PeerAddress.t :=
  stamp_create 0 (peerAddressOf 0 contact_b).

(** The service refuses with status 429 and sends no TTL header. *)
Definition refusal_without_ttl : Response IPAPIResponse.t :=
  {| StatusCode := 429; Headers := [("X-Rl", "0")]; Body := None |}.

(** * Properties *)

Unset Implicit Arguments.

(** ** Integers and times *)

Lemma wrap64_small (z : Z) : int64_range z -> wrap64 z = z.
Proof.
  unfold int64_range, wrap64. intros H.
  rewrite Z.mod_small by lia. lia.
Qed.

Lemma wrap64_uint64 (z : Z) :
  uint64_range z ->
  wrap64 z = if z <? 2^63 then z else z - 2^64.
Proof.
  unfold uint64_range, wrap64. intros H.
  destruct (Z.ltb_spec z (2^63)).
  - rewrite Z.mod_small by lia. lia.
  - replace (z + 2^63) with ((z - 2^63) + 1 * 2^64) by lia.
    rewrite Z.mod_add by lia. rewrite Z.mod_small by lia. lia.
Qed.

Lemma UnixMilli_instant (msec : Z) : UnixMilli msec = msec * Millisecond.
Proof.
  unfold UnixMilli, Unix, unixTime, Millisecond.
  pose proof (Z.quot_rem' msec 1000) as E.
  assert (B : -1000 < Z.rem msec 1000 < 1000).
  { pose proof (Z.rem_bound_abs msec 1000). lia. }
  set (q := Z.quot msec 1000) in *. set (r := Z.rem msec 1000) in *.
  destruct (Z.ltb_spec (r * 1000000) 0); cbn [orb].
  - assert (Q : Z.quot (r * 1000000) 1000000000 = 0).
    { rewrite <- (Z.opp_involutive (r * 1000000)).
      rewrite Z.quot_opp_l by lia. rewrite Z.quot_small by lia. reflexivity. }
    rewrite Q.
    destruct (Z.ltb_spec (r * 1000000 - 0 * 1000000000) 0); lia.
  - destruct (Z.leb_spec 1000000000 (r * 1000000)); [lia|]. lia.
Qed.

Lemma UnixMilli_roundtrip (msec : Z) : Time_UnixMilli (UnixMilli msec) = msec.
Proof.
  rewrite UnixMilli_instant. unfold Time_UnixMilli, Millisecond.
  apply Z.div_mul. lia.
Qed.

Lemma seconds_Duration_exact (n : Z) :
  int64_range (n * Second) -> seconds_Duration n = n * Second.
Proof. intros H. unfold seconds_Duration. now apply wrap64_small. Qed.

(** ** The statements on the table *)

Lemma assign_geoUpdate_none (now t : Time) (r : PeerAddress.t) :
  assign now (geoUpdate t None) r
  = set_UpdatedAt now (set_GeoDataFetchedAt (Some t) r).
Proof. destruct r; reflexivity. Qed.

Lemma assign_geoUpdate_some (now t : Time) (g : GeoData.t)
  (r : PeerAddress.t) :
  assign now (geoUpdate t (Some g)) r = with_geo now t g r.
Proof. destruct r; reflexivity. Qed.

Lemma assign_infoUpdate_none (now t : Time) (r : PeerAddress.t) :
  assign now (infoUpdateOf t None) r
  = set_UpdatedAt now (set_InfoFetchedAt (Some t) r).
Proof. destruct r; reflexivity. Qed.

Lemma assign_infoUpdate_some (now t : Time) (i : HubInfo.t)
  (r : PeerAddress.t) :
  assign now (infoUpdateOf t (Some i)) r = with_info now t i r.
Proof. destruct r; reflexivity. Qed.

Lemma key_assign_geo (now t : Time) (g : option GeoData.t)
  (r : PeerAddress.t) :
  key (assign now (geoUpdate t g) r) = key r.
Proof. destruct g; reflexivity. Qed.

Lemma key_assign_info (now t : Time) (i : option HubInfo.t)
  (r : PeerAddress.t) :
  key (assign now (infoUpdateOf t i) r) = key r.
Proof. destruct i; reflexivity. Qed.

Lemma same_key_iff (a b : PeerAddress.t) :
  same_key a b = true <-> key a = key b.
Proof.
  unfold same_key, key. rewrite andb_true_iff, !String.eqb_eq.
  split; [intros [-> ->]; reflexivity | intros E; inversion E; auto].
Qed.

Lemma key_do_update (excluded r : PeerAddress.t) :
  key (do_update excluded r) = key r.
Proof. reflexivity. Qed.

Lemma key_stamp_create (now : Time) (row : PeerAddress.t) :
  key (stamp_create now row) = key row.
Proof. reflexivity. Qed.

Lemma map_key_Updates (now : Time) (m upd : PeerAddress.t) (tbl : Table) :
  (forall r, key (assign now upd r) = key r) ->
  map key (Updates now m upd tbl) = map key tbl.
Proof.
  intros K. unfold Updates. rewrite map_map. apply map_ext.
  intros r. destruct (where_model m r); auto.
Qed.

Lemma length_Updates (now : Time) (m upd : PeerAddress.t) (tbl : Table) :
  List.length (Updates now m upd tbl) = List.length tbl.
Proof. unfold Updates. apply length_map. Qed.

Lemma existsb_same_key (row : PeerAddress.t) (tbl : Table) :
  existsb (fun r => same_key r row) tbl = true <-> In (key row) (map key tbl).
Proof.
  rewrite existsb_exists, in_map_iff. split.
  - intros (r & I & S). exists r. apply same_key_iff in S. auto.
  - intros (r & E & I). exists r. split; auto. now apply same_key_iff.
Qed.

(** The two branches of the upsert. *)
Lemma Create_conflict (now : Time) (row : PeerAddress.t) (tbl : Table) :
  In (key row) (map key tbl) ->
  Create_OnConflict now row tbl
  = map (fun r => if same_key r (stamp_create now row)
                  then do_update (stamp_create now row) r else r) tbl.
Proof.
  intros I. unfold Create_OnConflict.
  destruct (existsb _ tbl) eqn:E; auto.
  rewrite <- (key_stamp_create now) in I.
  apply existsb_same_key in I. congruence.
Qed.

Lemma Create_insert (now : Time) (row : PeerAddress.t) (tbl : Table) :
  ~ In (key row) (map key tbl) ->
  Create_OnConflict now row tbl = tbl ++ [stamp_create now row].
Proof.
  intros I. unfold Create_OnConflict.
  destruct (existsb _ tbl) eqn:E; auto.
  apply existsb_same_key in E. rewrite key_stamp_create in E. contradiction.
Qed.

Lemma map_key_conflict (row : PeerAddress.t) (tbl : Table) :
  map key (map (fun r => if same_key r row then do_update row r else r) tbl)
  = map key tbl.
Proof.
  rewrite map_map. apply map_ext. intros r.
  destruct (same_key r row); reflexivity.
Qed.

Lemma In_dec_key (k : string * string) (l : list (string * string)) :
  {In k l} + {~ In k l}.
Proof.
  apply in_dec. intros [a b] [c d].
  destruct (string_dec a c), (string_dec b d); subst; auto;
    right; congruence.
Qed.

(** The upsert keeps the keys distinct. *)
Lemma NoDup_Create (now : Time) (row : PeerAddress.t) (tbl : Table) :
  NoDup (map key tbl) -> NoDup (map key (Create_OnConflict now row tbl)).
Proof.
  intros N. destruct (In_dec_key (key row) (map key tbl)) as [I | I].
  - rewrite Create_conflict by exact I. now rewrite map_key_conflict.
  - rewrite Create_insert by exact I. rewrite map_app. cbn [map].
    rewrite key_stamp_create.
    apply NoDup_app; [exact N | repeat constructor; intros [] | ].
    intros k Ik [<- | []]. contradiction.
Qed.

(** An upsert at a key already in the table keeps the number of rows. *)
Lemma length_Create_conflict (now : Time) (row : PeerAddress.t)
  (tbl : Table) :
  In (key row) (map key tbl) ->
  List.length (Create_OnConflict now row tbl) = List.length tbl.
Proof. intros I. rewrite Create_conflict by exact I. apply length_map. Qed.

(** After an upsert the key of the row is in the table. *)
Lemma key_in_Create (now : Time) (row : PeerAddress.t) (tbl : Table) :
  In (key row) (map key (Create_OnConflict now row tbl)).
Proof.
  destruct (In_dec_key (key row) (map key tbl)) as [I | I].
  - rewrite Create_conflict by exact I. now rewrite map_key_conflict.
  - rewrite Create_insert by exact I. rewrite map_app. apply in_or_app.
    right. left. apply key_stamp_create.
Qed.

(** Every table the program builds has distinct keys. *)
Lemma reachable_NoDup (tbl : Table) : reachable tbl -> NoDup (map key tbl).
Proof.
  induction 1.
  - constructor.
  - now apply NoDup_Create.
  - rewrite map_key_Updates; auto. intros r. apply key_assign_geo.
  - rewrite map_key_Updates; auto. intros r. apply key_assign_info.
Qed.

(** ** Running the pipelines *)

Lemma exec_bind {A B : Type} (c : M A) (k : A -> M B) (w : World) :
  exec (bind c k) w = exec (k (fst (c w))) (snd (c w)).
Proof. unfold exec, bind. destruct (c w); reflexivity. Qed.

Lemma exec_ret {A : Type} (a : A) (w : World) : exec (ret a) w = w.
Proof. reflexivity. Qed.

Lemma exec_forEach_cons {A : Type} (x : A) (l : list A) (body : A -> M unit)
  (w : World) :
  exec (forEach (x :: l) body) w = exec (forEach l body) (exec (body x) w).
Proof. cbn [forEach]. rewrite exec_bind. reflexivity. Qed.

Lemma exec_forEach_app {A : Type} (l1 l2 : list A) (body : A -> M unit)
  (w : World) :
  exec (forEach (l1 ++ l2) body) w
  = exec (forEach l2 body) (exec (forEach l1 body) w).
Proof.
  revert w. induction l1 as [| x l1 IH]; intros w.
  - reflexivity.
  - cbn [app]. rewrite !exec_forEach_cons. apply IH.
Qed.

Lemma adds_refl (P : Event -> Prop) (w : World) : adds P w w.
Proof. exists []. split; [reflexivity | constructor]. Qed.

Lemma adds_trans (P : Event -> Prop) (w1 w2 w3 : World) :
  adds P w1 w2 -> adds P w2 w3 -> adds P w1 w3.
Proof.
  intros (e1 & T1 & F1) (e2 & T2 & F2). exists (e2 ++ e1). split.
  - rewrite T2, T1. apply app_assoc.
  - apply Forall_app. auto.
Qed.

Lemma adds_emit (P : Event -> Prop) (ev : Event) (w w' : World) :
  P ev -> trace w' = trace w -> adds P w (emit ev w').
Proof.
  intros Pev T. exists [ev]. split; [cbn; now rewrite T | now constructor].
Qed.

Lemma adds_weaken (P Q : Event -> Prop) (w w' : World) :
  (forall ev, P ev -> Q ev) -> adds P w w' -> adds Q w w'.
Proof.
  intros PQ (evs & T & F). exists evs. split; auto.
  eapply Forall_impl; eauto.
Qed.

Lemma adds_forEach {A : Type} (P : Event -> Prop) (body : A -> M unit)
  (l : list A) :
  (forall x w, adds P w (exec (body x) w)) ->
  forall w, adds P w (exec (forEach l body) w).
Proof.
  intros B. induction l as [| x l IH]; intros w.
  - apply adds_refl.
  - rewrite exec_forEach_cons. eapply adds_trans; [apply B | apply IH].
Qed.

Section Steps.

Variable env : Env.

Lemma exec_time_Sleep (d : Duration) (w : World) :
  exec (time_Sleep env d) w = emit (EvSleep d) (tick env (advance d w)).
Proof. reflexivity. Qed.

Lemma clock_time_Sleep (d : Duration) (w : World) :
  clock w + d <= clock (exec (time_Sleep env d) w).
Proof. rewrite exec_time_Sleep. cbn. lia. Qed.

Lemma db_time_Sleep (d : Duration) (w : World) :
  db (exec (time_Sleep env d) w) = db w.
Proof. reflexivity. Qed.

(** The three outcomes of [Updates]. *)
Lemma db_Updates_applied (m upd : PeerAddress.t) (w : World) :
  missing_where m = false ->
  dbFault env (calls w) = false ->
  exec (db_Updates env m upd) w
  = emit (EvUpdates m upd None)
      (tick env (set_db (Updates (clock w) m upd (db w)) w)).
Proof. intros H1 H2. unfold exec, db_Updates. now rewrite H1, H2. Qed.

Lemma db_Updates_trace (m upd : PeerAddress.t) (w : World) :
  exists err,
    trace (exec (db_Updates env m upd) w) = EvUpdates m upd err :: trace w.
Proof.
  unfold exec, db_Updates.
  destruct (missing_where m); [| destruct (dbFault env (calls w))];
    eexists; reflexivity.
Qed.

Lemma db_Updates_db (m upd : PeerAddress.t) (w : World) :
  db (exec (db_Updates env m upd) w) = db w
  \/ db (exec (db_Updates env m upd) w) = Updates (clock w) m upd (db w).
Proof.
  unfold exec, db_Updates.
  destruct (missing_where m); [| destruct (dbFault env (calls w))];
    cbn; auto.
Qed.

Lemma db_Create_applied (row : PeerAddress.t) (w : World) :
  dbFault env (calls w) = false ->
  exec (db_Create env row) w
  = emit (EvCreate row None)
      (tick env (set_db (Create_OnConflict (clock w) row (db w)) w)).
Proof. intros H. unfold exec, db_Create. now rewrite H. Qed.

Lemma db_Create_failed (row : PeerAddress.t) (w : World) :
  dbFault env (calls w) = true ->
  exec (db_Create env row) w
  = emit (EvCreate row (Some ErrDriver)) (tick env w).
Proof. intros H. unfold exec, db_Create. now rewrite H. Qed.

(** *** The ingestor *)

Lemma exec_upsertContact (contact : PeerContact.t) (w : World) :
  exec (upsertContact env contact) w
  = exec (db_Create env (peerAddressOf (clock w) contact)) w.
Proof.
  unfold upsertContact, exec, bind, time_Now, ret.
  destruct (db_Create env _ w); reflexivity.
Qed.

Lemma getPeerList_cases (w : World) :
  let url := peerListUrl (HUB_URL env) in
  exec (getPeerList env) w
  = match peerListAPI env (calls w) url with
    | HttpErr => after_get env url w
    | HttpResp resp =>
        if negb (StatusCode resp =? StatusOK) then after_get env url w
        else
          match Body resp with
          | None => after_get env url w
          | Some peerListResponse =>
              exec (forEach (PeerListResponse.Contacts peerListResponse)
                            (upsertContact env))
                   (after_get env url w)
          end
    end.
Proof.
  unfold getPeerList, exec, bind, http_Get, after_get. cbn.
  destruct (peerListAPI env (calls w) _) as [| resp]; [reflexivity |].
  destruct (negb _); [reflexivity |].
  destruct (Body resp); reflexivity.
Qed.

(** *** The resolver *)

(** The lookup never writes the table. *)
Lemma getGeoDataFromAPI_db (ipAddress : string) (w : World) :
  db (exec (getGeoDataFromAPI env ipAddress) w) = db w.
Proof.
  unfold getGeoDataFromAPI, exec, bind, http_Get, ret, time_Sleep. cbn.
  destruct (geoAPI env (calls w) _) as [| resp]; [reflexivity |].
  destruct (_ || _).
  - destruct (Atoi _); reflexivity.
  - destruct (Body resp) as [api |]; [| reflexivity].
    destruct (String.eqb _ _); [reflexivity |].
    destruct (_ && _); reflexivity.
Qed.

(** One iteration of the resolver's inner loop, outcome by outcome. *)
Lemma resolvePeer_cases (now : Time) (peer : PeerAddress.t) (w : World) :
  let url := geoUrl (GossipAddress peer) in
  exec (resolvePeer env now peer) w
  = match geoAPI env (calls w) url with
    | HttpErr => after_get env url w
    | HttpResp resp =>
        if rate_limited resp then
          match Atoi (Header_Get (Headers resp) "X-Ttl") with
          | None => after_get env url w
          | Some ttlSeconds =>
              exec (time_Sleep env (seconds_Duration ttlSeconds))
                   (after_get env url w)
          end
        else
          match Body resp with
          | None => after_get env url w
          | Some api =>
              if String.eqb (IPAPIResponse.Message api) "reserved range"
              then exec (db_Updates env peer (geoUpdate now None))
                        (after_get env url w)
              else if float_is_zero (IPAPIResponse.Latitude api)
                      && float_is_zero (IPAPIResponse.Longitude api)
              then after_get env url w
              else exec (db_Updates env peer
                           (geoUpdate now (Some (geoDataOf api))))
                        (after_get env url w)
          end
    end.
Proof.
  unfold resolvePeer, getGeoDataFromAPI, rate_limited, exec, bind, http_Get,
    after_get, ret, time_Sleep. cbn.
  destruct (geoAPI env (calls w) _) as [| resp]; [reflexivity |].
  destruct (_ || _).
  - destruct (Atoi _); reflexivity.
  - destruct (Body resp) as [api |]; [| reflexivity].
    destruct (String.eqb _ _).
    + destruct (db_Updates env peer _ _); reflexivity.
    + destruct (_ && _); [reflexivity |].
      unfold geoDataOf. destruct (db_Updates env peer _ _); reflexivity.
Qed.

(** *** The prober *)

Lemma fetchHubInfo_cases (peer : PeerAddress.t) (w : World) :
  let url := hubUrl (RPCAddress peer) in
  fetchHubInfo env peer w
  = (match hubAPI env (calls w) url with
     | HttpErr => (None, Some ErrFetch)
     | HttpResp resp =>
         if negb (StatusCode resp =? StatusOK)
         then (None, Some (ErrStatus (StatusCode resp)))
         else
           match Body resp with
           | None => (None, Some ErrDecode)
           | Some r => (Some (hubInfoOf (latency_at env w) r), None)
           end
     end, after_get env url w).
Proof.
  unfold fetchHubInfo, bind, http_Get, after_get, time_Now, ret, latency_at.
  cbn.
  destruct (hubAPI env (calls w) _) as [| resp]; [reflexivity |].
  destruct (negb _); [reflexivity |].
  destruct (Body resp) as [r |]; [| reflexivity].
  unfold hubInfoOf.
  destruct (Z.eqb_spec (HubInfoResponse.HubOperatorFid r) 0) as [E | E];
    cbn; [rewrite E |]; reflexivity.
Qed.

Lemma probePeer_exec (now : Time) (peer : PeerAddress.t) (w : World) :
  exec (probePeer env now peer) w
  = exec (db_Updates env peer
            (infoUpdateOf now (fst (fst (fetchHubInfo env peer w)))))
         (snd (fetchHubInfo env peer w)).
Proof.
  unfold probePeer, exec, bind, ret.
  destruct (fetchHubInfo env peer w) as [[info err] w1]. cbn.
  destruct (db_Updates env peer _ w1); reflexivity.
Qed.

End Steps.

(** ** The ingestor: upserts *)

Lemma NoDup_key_inj (tbl : Table) (a b : PeerAddress.t) :
  NoDup (map key tbl) -> In a tbl -> In b tbl -> key a = key b -> a = b.
Proof.
  induction tbl as [| x tbl IH]; cbn; intros N Ia Ib E; [contradiction |].
  inversion N as [| k l Nin N' Ek]; subst.
  destruct Ia as [-> | Ia], Ib as [-> | Ib]; auto.
  - exfalso. apply Nin. rewrite E. now apply in_map.
  - exfalso. apply Nin. rewrite <- E. now apply in_map.
Qed.

Lemma key_peerAddressOf (t : Time) (c : PeerContact.t) :
  key (peerAddressOf t c)
  = (PeerContact.Network c, AddressInfo.Address (PeerContact.GossipAddress c)).
Proof. reflexivity. Qed.

(** The rows at the key of an upserted row carry the row's thirteen mutable
    columns, whatever was there before. *)
Lemma Create_row_at_key (now : Time) (row : PeerAddress.t) (tbl : Table)
  (r : PeerAddress.t) :
  In r (Create_OnConflict now row tbl) -> key r = key row ->
  exists r0, r = do_update row r0.
Proof.
  intros I K. destruct (In_dec_key (key row) (map key tbl)) as [Ik | Ik].
  - rewrite Create_conflict in I by exact Ik.
    apply in_map_iff in I. destruct I as (r0 & E & I0).
    destruct (same_key r0 (stamp_create now row)) eqn:S.
    + exists r0. now subst r.
    + subst r.
      assert (T : same_key r0 (stamp_create now row) = true).
      { apply same_key_iff. now rewrite key_stamp_create. }
      congruence.
  - rewrite Create_insert in I by exact Ik.
    apply in_app_or in I. destruct I as [I | [<- | []]].
    + exfalso. apply Ik. rewrite <- K. now apply in_map.
    + exists (stamp_create now row). reflexivity.
Qed.

(** C7: a contact upserted a second time at the same (network, address)
    replaces the thirteen mutable ingestion columns of the row at that key
    (last-seen, the gossip and RPC endpoint descriptors, peer timestamp, hub
    and app version, count) and keeps every other column; the table keeps its
    number of rows, and no table the program builds holds two rows with the
    same key. *)
Theorem upsert_twice_replaces_mutable_fields
  (tbl : Table) (now1 now2 t1 t2 : Time) (c1 c2 : PeerContact.t) :
  reachable tbl ->
  PeerContact.Network c1 = PeerContact.Network c2 ->
  AddressInfo.Address (PeerContact.GossipAddress c1)
  = AddressInfo.Address (PeerContact.GossipAddress c2) ->
  let p1 := peerAddressOf t1 c1 in
  let p2 := peerAddressOf t2 c2 in
  let tbl1 := Create_OnConflict now1 p1 tbl in
  let tbl2 := Create_OnConflict now2 p2 tbl1 in
  NoDup (map key tbl) /\ NoDup (map key tbl1) /\ NoDup (map key tbl2)
  /\ List.length tbl2 = List.length tbl1
  /\ exists r1,
       In r1 tbl1 /\ key r1 = key p2
       /\ In (do_update p2 r1) tbl2
       /\ (forall r, In r tbl2 -> key r = key p2 -> r = do_update p2 r1)
       /\ LastSeen (do_update p2 r1) = t2
       /\ (GossipAddress (do_update p2 r1), GossipFamily (do_update p2 r1),
           GossipPort (do_update p2 r1), GossipDNSName (do_update p2 r1))
          = (GossipAddress p2, GossipFamily p2, GossipPort p2,
             GossipDNSName p2)
       /\ (RPCAddress (do_update p2 r1), RPCFamily (do_update p2 r1),
           RPCPort (do_update p2 r1), RPCDNSName (do_update p2 r1))
          = (RPCAddress p2, RPCFamily p2, RPCPort p2, RPCDNSName p2)
       /\ (PeerTimestamp (do_update p2 r1), HubVersion (do_update p2 r1),
           AppVersion (do_update p2 r1), Count (do_update p2 r1))
          = (PeerTimestamp p2, HubVersion p2, AppVersion p2, Count p2).
Proof.
  intros R En Ea p1 p2 tbl1 tbl2.
  assert (N : NoDup (map key tbl)) by now apply reachable_NoDup.
  assert (N1 : NoDup (map key tbl1)) by now apply NoDup_Create.
  assert (N2 : NoDup (map key tbl2)) by now apply NoDup_Create.
  assert (K12 : key p1 = key p2).
  { unfold p1, p2. rewrite !key_peerAddressOf. congruence. }
  assert (I1 : In (key p2) (map key tbl1)).
  { rewrite <- K12. apply key_in_Create. }
  split; [exact N |]. split; [exact N1 |]. split; [exact N2 |].
  split; [now apply length_Create_conflict |].
  apply in_map_iff in I1. destruct I1 as (r1 & K1 & I1).
  exists r1.
  assert (I2 : In (do_update p2 r1) tbl2).
  { unfold tbl2. rewrite Create_conflict by (rewrite <- K1; now apply in_map).
    apply in_map_iff. exists r1. split; auto.
    replace (same_key r1 (stamp_create now2 p2)) with true; [reflexivity |].
    symmetry. apply same_key_iff. now rewrite key_stamp_create. }
  split; [exact I1 |]. split; [exact K1 |]. split; [exact I2 |].
  split; [| repeat split; reflexivity].
  intros r Ir Kr. apply (NoDup_key_inj tbl2); auto.
  rewrite Kr. symmetry. exact K1.
Qed.

(** C7, at a concrete input: two sightings of the peer 10.0.0.7 on mainnet,
    upserted into the empty table. *)
Lemma upsert_twice_witness :
  let p2 := peerAddressOf 20 (contact_a 2 1700000000500) in
  let p1 := peerAddressOf 10 (contact_a 5 1700000000000) in
  let tbl1 := Create_OnConflict 10 p1 [] in
  let tbl2 := Create_OnConflict 20 p2 tbl1 in
  reachable []
  /\ List.length tbl2 = 1%nat
  /\ map Count tbl2 = [2]
  /\ map LastSeen tbl2 = [20]
  /\ map CreatedAt tbl2 = [10].
Proof.
  pose proof (upsert_twice_replaces_mutable_fields [] 10 20 10 20
                (contact_a 5 1700000000000) (contact_a 2 1700000000500)
                reach_empty eq_refl eq_refl) as H.
  cbv zeta in H. destruct H as (_ & _ & _ & L & _).
  split; [constructor |]. split; [exact L |].
  repeat split; reflexivity.
Defined.

(** ** The ingestor: one cycle *)

Lemma attempts_upsertContact (env : Env) (c : PeerContact.t) (w : World) :
  attempts (trace (exec (upsertContact env c) w)) = S (attempts (trace w)).
Proof.
  rewrite exec_upsertContact. unfold exec, db_Create.
  destruct (dbFault env (calls w)); reflexivity.
Qed.

Lemma attempts_forEach (env : Env) (cs : list PeerContact.t) (w : World) :
  attempts (trace (exec (forEach cs (upsertContact env)) w))
  = (attempts (trace w) + List.length cs)%nat.
Proof.
  revert w. induction cs as [| c cs IH]; intros w.
  - cbn. lia.
  - rewrite exec_forEach_cons, IH, attempts_upsertContact. cbn. lia.
Qed.

Lemma upsertContact_failed (env : Env) (c : PeerContact.t) (w : World) :
  dbFault env (calls w) = true ->
  db (exec (upsertContact env c) w) = db w.
Proof.
  intros F. rewrite exec_upsertContact, db_Create_failed by exact F.
  reflexivity.
Qed.

Lemma upsertContact_applied (env : Env) (c : PeerContact.t) (w : World) :
  dbFault env (calls w) = false ->
  db (exec (upsertContact env c) w)
  = Create_OnConflict (clock w) (peerAddressOf (clock w) c) (db w).
Proof.
  intros F. rewrite exec_upsertContact, db_Create_applied by exact F.
  reflexivity.
Qed.

(** C8: a cycle whose fetch fails (transport error, status other than 200,
    body that does not decode) attempts no upsert and leaves the table as it
    was. In a cycle whose fetch succeeds every contact of the response gets
    its upsert attempt, in order; an upsert that fails changes nothing in the
    table, so the upserts applied before it stay, and the loop goes on with
    the contacts after it. *)
Theorem getPeerList_failure_isolation (env : Env) (w : World) :
  let url := peerListUrl (HUB_URL env) in
  (fetch_failed (peerListAPI env (calls w) url) ->
   exec (getPeerList env) w = after_get env url w
   /\ db (exec (getPeerList env) w) = db w
   /\ attempts (trace (exec (getPeerList env) w)) = attempts (trace w))
  /\ (forall resp body,
        peerListAPI env (calls w) url = HttpResp resp ->
        StatusCode resp = StatusOK ->
        Body resp = Some body ->
        let contacts := PeerListResponse.Contacts body in
        exec (getPeerList env) w
        = exec (forEach contacts (upsertContact env)) (after_get env url w)
        /\ attempts (trace (exec (getPeerList env) w))
           = (attempts (trace w) + List.length contacts)%nat
        /\ forall before c rest,
             contacts = before ++ c :: rest ->
             let w1 := exec (forEach before (upsertContact env))
                            (after_get env url w) in
             dbFault env (calls w1) = true ->
             db (exec (upsertContact env c) w1) = db w1
             /\ exec (getPeerList env) w
                = exec (forEach rest (upsertContact env))
                       (exec (upsertContact env c) w1)).
Proof.
  intros url. pose proof (getPeerList_cases env w) as E. cbv zeta in E.
  fold url in E. split.
  - intros F. destruct (peerListAPI env (calls w) url) as [| resp].
    + rewrite E. repeat split; reflexivity.
    + cbn in F. destruct F as [F | F].
      * apply Z.eqb_neq in F. rewrite F in E. cbn in E.
        rewrite E. repeat split; reflexivity.
      * rewrite F in E. destruct (negb _); rewrite E; repeat split;
          reflexivity.
  - intros resp body A S B contacts. rewrite A, S, B in E. cbn in E.
    fold contacts in E. split; [exact E |]. split.
    + rewrite E, attempts_forEach. reflexivity.
    + intros before c rest C w1 F. split.
      * now apply upsertContact_failed.
      * rewrite E, C, exec_forEach_app, exec_forEach_cons. reflexivity.
Qed.

(** C8, at concrete inputs: an endpoint that is down, and a cycle of three
    contacts in which the database fails on the second upsert (call 2). *)
Lemma getPeerList_failure_witness :
  let w := world_at 0 [peer_a] in
  let down := env_peers HttpErr [] in
  let body := {| PeerListResponse.Contacts :=
                   [contact_b; contact_a 4 1700000000000; contact_c] |} in
  let up := env_peers (ok_response body) [2%nat] in
  db (exec (getPeerList down) w) = [peer_a]
  /\ attempts (trace (exec (getPeerList up) w)) = 3%nat
  /\ map Address (db (exec (getPeerList up) w))
     = ["10.0.0.7"; "10.0.0.8"; "10.0.0.9"]
  /\ map Count (db (exec (getPeerList up) w)) = [3; 1; 2].
Proof.
  intros w down body up.
  destruct (getPeerList_failure_isolation down w) as [Hdown _].
  destruct (getPeerList_failure_isolation up w) as [_ Hup].
  specialize (Hdown I). destruct Hdown as (_ & D & _).
  specialize (Hup _ body eq_refl eq_refl eq_refl).
  destruct Hup as (_ & A & Hup).
  specialize (Hup [contact_b] (contact_a 4 1700000000000) [contact_c]
                eq_refl eq_refl).
  destruct Hup as [_ E].
  split; [exact D |]. split; [exact A |].
  rewrite E. split; reflexivity.
Defined.

(** C10 as it is written fails: a contact whose count is 2^63, a value of
    its [uint64] field, is stored with the count -2^63. *)
Lemma count_stored_as_is_counterexample :
  let c := contact_a (2^63) 1700000000000 in
  let w' := exec (upsertContact (env_peers HttpErr []) c) (world_at 0 []) in
  PeerContact.well_formed c
  /\ map key (db w') = [("mainnet", "10.0.0.7")]
  /\ map Count (db w') = [- 2^63]
  /\ map Count (db w') <> [PeerContact.Count c].
Proof.
  cbv zeta. split; [| split; [| split]].
  - unfold PeerContact.well_formed, uint64_range, int64_range. cbn. lia.
  - reflexivity.
  - reflexivity.
  - vm_compute. discriminate.
Qed.

(** C10, amended: after the upsert of a contact, the row at the contact's key
    has as peer timestamp the instant that many milliseconds after the epoch,
    and as count the contact's count converted to [int64]: the count itself
    below 2^63, the count minus 2^64 from there on. Nothing of the row that
    was there before enters either value. *)
Theorem upsert_stores_timestamp_and_count
  (env : Env) (contact : PeerContact.t) (w : World) :
  PeerContact.well_formed contact ->
  dbFault env (calls w) = false ->
  let w' := exec (upsertContact env contact) w in
  let k := (PeerContact.Network contact,
            AddressInfo.Address (PeerContact.GossipAddress contact)) in
  In k (map key (db w'))
  /\ forall r, In r (db w') -> key r = k ->
       PeerTimestamp r = PeerContact.Timestamp contact * Millisecond
       /\ Time_UnixMilli (PeerTimestamp r) = PeerContact.Timestamp contact
       /\ Count r = (if PeerContact.Count contact <? 2^63
                     then PeerContact.Count contact
                     else PeerContact.Count contact - 2^64).
Proof.
  intros [Wc Wt] F w' k. unfold w'.
  rewrite upsertContact_applied by exact F. split.
  - unfold k. rewrite <- (key_peerAddressOf (clock w)). apply key_in_Create.
  - intros r I K.
    destruct (Create_row_at_key _ _ _ _ I) as (r0 & ->).
    { rewrite K. unfold k. symmetry. apply key_peerAddressOf. }
    cbn [do_update PeerTimestamp Count peerAddressOf].
    rewrite UnixMilli_roundtrip, UnixMilli_instant, wrap64_uint64 by exact Wc.
    repeat split.
Qed.

(** C10, amended, at a concrete input: the peer 10.0.0.7 is in the table with
    count 3 and reports the count 2, a smaller one. *)
Lemma upsert_stores_witness :
  let c := contact_a 2 1700000000500 in
  let w := world_at 50 [peer_a] in
  let w' := exec (upsertContact (env_peers HttpErr []) c) w in
  PeerContact.well_formed c
  /\ map Count (db w) = [3]
  /\ map Count (db w') = [2]
  /\ map PeerTimestamp (db w') = [1700000000500 * Millisecond].
Proof.
  intros c w w'.
  assert (W : PeerContact.well_formed c).
  { unfold PeerContact.well_formed, uint64_range, int64_range. cbn. lia. }
  destruct (upsert_stores_timestamp_and_count (env_peers HttpErr []) c w
              W eq_refl) as [_ H].
  specialize (H (do_update (peerAddressOf 50 c) peer_a) (or_introl eq_refl)
                eq_refl).
  destruct H as (T & _ & C).
  split; [exact W |]. split; [reflexivity |].
  split.
  - change ([Count (do_update (peerAddressOf 50 c) peer_a)] = [2]).
    rewrite C. reflexivity.
  - change ([PeerTimestamp (do_update (peerAddressOf 50 c) peer_a)]
            = [1700000000500 * Millisecond]).
    rewrite T. reflexivity.
Defined.

(** ** The loops of the resolver and of the prober *)

Section Loops.

Variable env : Env.

Lemma adds_after_get (P : Event -> Prop) (url : string) (w : World) :
  P (EvGet url) -> adds P w (after_get env url w).
Proof. intros H. now apply adds_emit. Qed.

Lemma adds_Sleep (P : Event -> Prop) (d : Duration) (w : World) :
  P (EvSleep d) -> adds P w (exec (time_Sleep env d) w).
Proof. intros H. rewrite exec_time_Sleep. now apply adds_emit. Qed.

Lemma adds_Find (P : Event -> Prop) (pred : Time -> PeerAddress.t -> bool)
  (limit : nat) (w : World) :
  (forall peers, P (EvFind peers)) ->
  adds P w (exec (db_Find env pred limit) w).
Proof. intros H. unfold exec, db_Find. cbn. now apply adds_emit. Qed.

Lemma adds_Updates (P : Event -> Prop) (m upd : PeerAddress.t) (w : World) :
  (forall err, P (EvUpdates m upd err)) ->
  adds P w (exec (db_Updates env m upd) w).
Proof.
  intros H. destruct (db_Updates_trace env m upd w) as [err T].
  exists [EvUpdates m upd err]. split; [exact T | constructor; auto].
Qed.

Lemma adds_Create (P : Event -> Prop) (row : PeerAddress.t) (w : World) :
  (forall err, P (EvCreate row err)) ->
  adds P w (exec (db_Create env row) w).
Proof.
  intros H. unfold exec, db_Create.
  destruct (dbFault env (calls w)); cbn; now apply adds_emit.
Qed.

(** What one step of the resolver does to the table. *)
Lemma resolvePeer_db (now : Time) (peer : PeerAddress.t) (w : World) :
  db (exec (resolvePeer env now peer) w) = db w
  \/ exists t g,
       db (exec (resolvePeer env now peer) w)
       = Updates t peer (geoUpdate now g) (db w).
Proof.
  pose proof (resolvePeer_cases env now peer w) as E. cbv zeta in E.
  set (url := geoUrl (GossipAddress peer)) in *.
  destruct (geoAPI env (calls w) url) as [| resp]; [rewrite E; now left |].
  destruct (rate_limited resp).
  { destruct (Atoi _); rewrite E; now left. }
  destruct (Body resp) as [api |]; [| rewrite E; now left].
  destruct (String.eqb _ _).
  - rewrite E. destruct (db_Updates_db env peer (geoUpdate now None)
                           (after_get env url w)) as [D | D];
      rewrite D; [now left | right; eauto].
  - destruct (_ && _); [rewrite E; now left |].
    rewrite E.
    destruct (db_Updates_db env peer (geoUpdate now (Some (geoDataOf api)))
                (after_get env url w)) as [D | D];
      rewrite D; [now left | right; eauto].
Qed.

(** What one step of the prober does to the table. *)
Lemma probePeer_db (now : Time) (peer : PeerAddress.t) (w : World) :
  db (exec (probePeer env now peer) w) = db w
  \/ exists t i,
       db (exec (probePeer env now peer) w)
       = Updates t peer (infoUpdateOf now i) (db w).
Proof.
  rewrite probePeer_exec.
  pose proof (fetchHubInfo_cases env peer w) as E. cbv zeta in E.
  rewrite E. cbn [fst snd].
  match goal with
  | |- context [db_Updates env peer ?u] =>
      destruct (db_Updates_db env peer u
                  (after_get env (hubUrl (RPCAddress peer)) w)) as [D | D]
  end; rewrite D; [now left | right; eauto].
Qed.

(** Every event of a step of the resolver is a lookup, a sleep, or an
    [Updates] that carries the resolver's [now]. *)
Lemma resolvePeer_adds (P : Event -> Prop) (now : Time)
  (peer : PeerAddress.t) (w : World) :
  (forall url, P (EvGet url)) ->
  (forall d, P (EvSleep d)) ->
  (forall g err, P (EvUpdates peer (geoUpdate now g) err)) ->
  adds P w (exec (resolvePeer env now peer) w).
Proof.
  intros Pg Ps Pu.
  pose proof (resolvePeer_cases env now peer w) as E. cbv zeta in E.
  set (url := geoUrl (GossipAddress peer)) in *.
  assert (G : adds P w (after_get env url w)) by now apply adds_after_get.
  destruct (geoAPI env (calls w) url) as [| resp]; [now rewrite E |].
  destruct (rate_limited resp).
  { destruct (Atoi _); rewrite E; auto.
    eapply adds_trans; [exact G | now apply adds_Sleep]. }
  destruct (Body resp) as [api |]; [| now rewrite E].
  destruct (String.eqb _ _).
  - rewrite E. eapply adds_trans; [exact G | now apply adds_Updates].
  - destruct (_ && _); [now rewrite E |].
    rewrite E. eapply adds_trans; [exact G | now apply adds_Updates].
Qed.

Lemma probePeer_adds (P : Event -> Prop) (now : Time)
  (peer : PeerAddress.t) (w : World) :
  (forall url, P (EvGet url)) ->
  (forall i err, P (EvUpdates peer (infoUpdateOf now i) err)) ->
  adds P w (exec (probePeer env now peer) w).
Proof.
  intros Pg Pu. rewrite probePeer_exec.
  pose proof (fetchHubInfo_cases env peer w) as E. cbv zeta in E.
  rewrite E. cbn [fst snd].
  eapply adds_trans; [now apply adds_after_get | now apply adds_Updates].
Qed.

Lemma forEach_rel {A : Type} (J : World -> World -> Prop)
  (body : A -> M unit) :
  (forall w, J w w) ->
  (forall a b c, J a b -> J b c -> J a c) ->
  (forall x w, J w (exec (body x) w)) ->
  forall l w, J w (exec (forEach l body) w).
Proof.
  intros Jr Jt Jb. induction l as [| x l IH]; intros w.
  - apply Jr.
  - rewrite exec_forEach_cons. eapply Jt; [apply Jb | apply IH].
Qed.

(** One iteration of each loop: the scan, the batch, the pause. *)
Lemma resolveIPToGeo_for_S (n batchSize : nat) (now : Time) (w : World) :
  exec (resolveIPToGeo_for env (S n) batchSize now) w
  = exec (resolveIPToGeo_for env n batchSize now)
      (exec (time_Sleep env (1 * Minute))
         (exec (forEach (fst (db_Find env geo_stale batchSize w))
                        (resolvePeer env now))
               (exec (db_Find env geo_stale batchSize) w))).
Proof. cbn [resolveIPToGeo_for]. rewrite !exec_bind. reflexivity. Qed.

Lemma getHubInfo_for_S (n batchSize : nat) (now : Time) (w : World) :
  exec (getHubInfo_for env (S n) batchSize now) w
  = exec (getHubInfo_for env n batchSize now)
      (exec (time_Sleep env (30 * Second))
         (exec (forEach (fst (db_Find env info_stale batchSize w))
                        (probePeer env now))
               (exec (db_Find env info_stale batchSize) w))).
Proof. cbn [getHubInfo_for]. rewrite !exec_bind. reflexivity. Qed.

(** Induction over the iterations of the two loops: a relation between the
    world before and the world after that is reflexive, transitive and holds
    of each scan, each step and each sleep holds of the whole run. *)
Lemma resolveIPToGeo_for_rel (J : World -> World -> Prop)
  (batchSize : nat) (now : Time) :
  (forall w, J w w) ->
  (forall a b c, J a b -> J b c -> J a c) ->
  (forall w, J w (exec (db_Find env geo_stale batchSize) w)) ->
  (forall peer w, J w (exec (resolvePeer env now peer) w)) ->
  (forall d w, J w (exec (time_Sleep env d) w)) ->
  forall n w, J w (exec (resolveIPToGeo_for env n batchSize now) w).
Proof.
  intros Jr Jt Jf Jp Js. induction n as [| n IH]; intros w.
  - apply Jr.
  - rewrite resolveIPToGeo_for_S.
    eapply Jt; [| apply IH].
    eapply Jt; [| apply Js].
    eapply Jt; [apply Jf |].
    now apply forEach_rel.
Qed.

Lemma getHubInfo_for_rel (J : World -> World -> Prop)
  (batchSize : nat) (now : Time) :
  (forall w, J w w) ->
  (forall a b c, J a b -> J b c -> J a c) ->
  (forall w, J w (exec (db_Find env info_stale batchSize) w)) ->
  (forall peer w, J w (exec (probePeer env now peer) w)) ->
  (forall d w, J w (exec (time_Sleep env d) w)) ->
  forall n w, J w (exec (getHubInfo_for env n batchSize now) w).
Proof.
  intros Jr Jt Jf Jp Js. induction n as [| n IH]; intros w.
  - apply Jr.
  - rewrite getHubInfo_for_S.
    eapply Jt; [| apply IH].
    eapply Jt; [| apply Js].
    eapply Jt; [apply Jf |].
    now apply forEach_rel.
Qed.

Lemma exec_resolveIPToGeo (n : nat) (w : World) :
  exec (resolveIPToGeo env n) w
  = exec (resolveIPToGeo_for env n 10 (clock w)) w.
Proof. reflexivity. Qed.

Lemma exec_getHubInfo (n : nat) (w : World) :
  exec (getHubInfo env n) w = exec (getHubInfo_for env n 10 (clock w)) w.
Proof. reflexivity. Qed.

End Loops.

(** ** The fetch time written by the loops *)

Lemma Forall2_same {A : Type} (R : A -> A -> Prop) (l : list A) :
  (forall x, R x x) -> Forall2 R l l.
Proof. intros Rr. induction l; constructor; auto. Qed.

Lemma Forall2_chain {A : Type} (R : A -> A -> Prop) :
  (forall x y z, R x y -> R y z -> R x z) ->
  forall l1 l2 l3, Forall2 R l1 l2 -> Forall2 R l2 l3 -> Forall2 R l1 l3.
Proof.
  intros Rt l1 l2 l3 H12. revert l3.
  induction H12 as [| x y l1 l2 Rxy H12 IH]; intros l3 H23;
    inversion H23; subst; constructor; eauto.
Qed.

Lemma Forall2_image {A : Type} (R : A -> A -> Prop) (f : A -> A)
  (l : list A) :
  (forall x, R x (f x)) -> Forall2 R l (map f l).
Proof. intros Rf. induction l; cbn; constructor; auto. Qed.

Lemma geo_time_kept_or_refl (t : Time) (r : PeerAddress.t) :
  geo_time_kept_or t r r.
Proof. now left. Qed.

Lemma geo_time_kept_or_trans (t : Time) (a b c : PeerAddress.t) :
  geo_time_kept_or t a b -> geo_time_kept_or t b c -> geo_time_kept_or t a c.
Proof.
  unfold geo_time_kept_or. intros [H1 | H1] [H2 | H2]; rewrite H2; auto.
Qed.

Lemma info_time_kept_or_refl (t : Time) (r : PeerAddress.t) :
  info_time_kept_or t r r.
Proof. now left. Qed.

Lemma info_time_kept_or_trans (t : Time) (a b c : PeerAddress.t) :
  info_time_kept_or t a b -> info_time_kept_or t b c ->
  info_time_kept_or t a c.
Proof.
  unfold info_time_kept_or. intros [H1 | H1] [H2 | H2]; rewrite H2; auto.
Qed.

Lemma GeoDataFetchedAt_geoUpdate (now : Time) (g : option GeoData.t) :
  GeoDataFetchedAt (geoUpdate now g) = Some now.
Proof. destruct g; reflexivity. Qed.

Lemma InfoFetchedAt_infoUpdateOf (now : Time) (i : option HubInfo.t) :
  InfoFetchedAt (infoUpdateOf now i) = Some now.
Proof. destruct i; reflexivity. Qed.

Lemma Updates_geo_time (t now : Time) (m : PeerAddress.t)
  (g : option GeoData.t) (tbl : Table) :
  Forall2 (geo_time_kept_or now) tbl (Updates t m (geoUpdate now g) tbl).
Proof.
  apply Forall2_image. intros r. destruct (where_model m r).
  - right. destruct g; reflexivity.
  - now left.
Qed.

Lemma Updates_info_time (t now : Time) (m : PeerAddress.t)
  (i : option HubInfo.t) (tbl : Table) :
  Forall2 (info_time_kept_or now) tbl (Updates t m (infoUpdateOf now i) tbl).
Proof.
  apply Forall2_image. intros r. destruct (where_model m r).
  - right. destruct i; reflexivity.
  - now left.
Qed.

(** Every event of a run of the resolver's loop with the variable [now]. *)
Lemma resolveIPToGeo_for_stamped (env : Env) (n batchSize : nat)
  (now : Time) (w : World) :
  adds (geo_stamped now) w (exec (resolveIPToGeo_for env n batchSize now) w).
Proof.
  apply resolveIPToGeo_for_rel.
  - apply adds_refl.
  - apply adds_trans.
  - intros w0. now apply adds_Find.
  - intros peer w0. apply resolvePeer_adds; cbn; auto.
    intros g err. apply GeoDataFetchedAt_geoUpdate.
  - intros d w0. now apply adds_Sleep.
Qed.

Lemma getHubInfo_for_stamped (env : Env) (n batchSize : nat)
  (now : Time) (w : World) :
  adds (info_stamped now) w (exec (getHubInfo_for env n batchSize now) w).
Proof.
  apply getHubInfo_for_rel.
  - apply adds_refl.
  - apply adds_trans.
  - intros w0. now apply adds_Find.
  - intros peer w0. apply probePeer_adds; cbn; auto.
    intros i err. apply InfoFetchedAt_infoUpdateOf.
  - intros d w0. now apply adds_Sleep.
Qed.

(** The table after a run of the resolver's loop, row by row. *)
Lemma resolveIPToGeo_for_rows (env : Env) (n batchSize : nat)
  (now : Time) (w : World) :
  Forall2 (geo_time_kept_or now) (db w)
    (db (exec (resolveIPToGeo_for env n batchSize now) w)).
Proof.
  apply (resolveIPToGeo_for_rel env
           (fun a b => Forall2 (geo_time_kept_or now) (db a) (db b))).
  - intros w0. apply Forall2_same, geo_time_kept_or_refl.
  - intros a b c. apply Forall2_chain, geo_time_kept_or_trans.
  - intros w0. apply Forall2_same, geo_time_kept_or_refl.
  - intros peer w0.
    destruct (resolvePeer_db env now peer w0) as [D | (t & g & D)];
      rewrite D.
    + apply Forall2_same, geo_time_kept_or_refl.
    + apply Updates_geo_time.
  - intros d w0. apply Forall2_same, geo_time_kept_or_refl.
Qed.

Lemma getHubInfo_for_rows (env : Env) (n batchSize : nat)
  (now : Time) (w : World) :
  Forall2 (info_time_kept_or now) (db w)
    (db (exec (getHubInfo_for env n batchSize now) w)).
Proof.
  apply (getHubInfo_for_rel env
           (fun a b => Forall2 (info_time_kept_or now) (db a) (db b))).
  - intros w0. apply Forall2_same, info_time_kept_or_refl.
  - intros a b c. apply Forall2_chain, info_time_kept_or_trans.
  - intros w0. apply Forall2_same, info_time_kept_or_refl.
  - intros peer w0.
    destruct (probePeer_db env now peer w0) as [D | (t & i & D)];
      rewrite D.
    + apply Forall2_same, info_time_kept_or_refl.
    + apply Updates_info_time.
  - intros d w0. apply Forall2_same, info_time_kept_or_refl.
Qed.

(** C3: in a run of the resolver's loop, of any number of iterations, every
    [Updates] carries as [GeoDataFetchedAt] the clock read once when the
    goroutine started, whatever the clock is at the attempt; so does every
    [Updates] of the prober's loop for [InfoFetchedAt]. Hence each row of the
    table after the run has the fetch time it had before the run or that one
    start time. *)
Theorem fetched_at_is_the_start_time (env : Env) (n : nat) (w : World) :
  adds (geo_stamped (clock w)) w (exec (resolveIPToGeo env n) w)
  /\ adds (info_stamped (clock w)) w (exec (getHubInfo env n) w)
  /\ Forall2 (geo_time_kept_or (clock w)) (db w)
       (db (exec (resolveIPToGeo env n) w))
  /\ Forall2 (info_time_kept_or (clock w)) (db w)
       (db (exec (getHubInfo env n) w)).
Proof.
  rewrite exec_resolveIPToGeo, exec_getHubInfo.
  split; [apply resolveIPToGeo_for_stamped |].
  split; [apply getHubInfo_for_stamped |].
  split; [apply resolveIPToGeo_for_rows | apply getHubInfo_for_rows].
Qed.

(** ** The resolver, outcome by outcome *)

Lemma geo_stale_later (t0 t1 : Time) (r : PeerAddress.t) :
  geo_stale t0 r = true -> t0 <= t1 -> geo_stale t1 r = true.
Proof.
  unfold geo_stale. destruct (GeoDataFetchedAt r) as [t |]; auto.
  rewrite !Z.ltb_lt. lia.
Qed.

Lemma trace_after_get (env : Env) (url : string) (w : World) :
  trace (after_get env url w) = EvGet url :: trace w.
Proof. reflexivity. Qed.

Lemma db_after_get (env : Env) (url : string) (w : World) :
  db (after_get env url w) = db w.
Proof. reflexivity. Qed.

(** C4 as it is written fails: the answer for an address in a reserved range
    has the coordinates (0, 0), and the resolver stamps the row. *)
Lemma degenerate_coordinates_counterexample :
  let api := api_fail "reserved range" in
  let env := env_geo (fun _ => geo_response 200 "44" "60" (Some api)) in
  let w := world_at 100 [peer_a] in
  let w' := exec (resolvePeer env 100 peer_a) w in
  float_is_zero (IPAPIResponse.Latitude api) = true
  /\ float_is_zero (IPAPIResponse.Longitude api) = true
  /\ map GeoDataFetchedAt (db w) = [None]
  /\ map GeoDataFetchedAt (db w') = [Some 100]
  /\ db w' <> db w.
Proof.
  cbv zeta. repeat split; try reflexivity.
  intros E. apply (f_equal (map GeoDataFetchedAt)) in E.
  vm_compute in E. discriminate E.
Qed.

(** C4, amended: when the answer decodes to the coordinates (0, 0) and is not
    the reserved-range answer, the step of the resolver issues no statement
    and leaves the table as it was; a row that a scan found stale is stale
    for every later scan, so it is eligible again at the next one. *)
Theorem degenerate_coordinates_no_write
  (env : Env) (now : Time) (peer : PeerAddress.t) (w : World)
  (resp : Response IPAPIResponse.t) (api : IPAPIResponse.t) :
  geoAPI env (calls w) (geoUrl (GossipAddress peer)) = HttpResp resp ->
  Body resp = Some api ->
  float_is_zero (IPAPIResponse.Latitude api) = true ->
  float_is_zero (IPAPIResponse.Longitude api) = true ->
  String.eqb (IPAPIResponse.Message api) "reserved range" = false ->
  let w' := exec (resolvePeer env now peer) w in
  db w' = db w
  /\ adds no_write w w'
  /\ forall r t0 t1,
       In r (db w) -> geo_stale t0 r = true -> t0 <= t1 ->
       In r (filter (geo_stale t1) (db w')).
Proof.
  intros A B Zlat Zlon Nres w'.
  pose proof (resolvePeer_cases env now peer w) as E. cbv zeta in E.
  fold w' in E. rewrite A, B, Nres, Zlat, Zlon in E. cbn [andb] in E.
  assert (D : db w' = db w /\ adds no_write w w').
  { destruct (rate_limited resp).
    - destruct (Atoi _); rewrite E.
      + split; [reflexivity |].
        eapply adds_trans;
          [now apply adds_after_get | now apply adds_Sleep].
      + split; [reflexivity | now apply adds_after_get].
    - rewrite E. split; [reflexivity | now apply adds_after_get]. }
  destruct D as [D T]. split; [exact D |]. split; [exact T |].
  intros r t0 t1 I S L. rewrite D. apply filter_In. split; auto.
  eapply geo_stale_later; eauto.
Qed.

(** C4, amended, at a concrete input: the service has no data for the
    address and says so with another message. *)
Lemma degenerate_coordinates_witness :
  let api := api_fail "private range" in
  let env := env_geo (fun _ => geo_response 200 "44" "60" (Some api)) in
  let w := world_at 100 [peer_a] in
  let w' := exec (resolvePeer env 100 peer_a) w in
  String.eqb (IPAPIResponse.Message api) "reserved range" = false
  /\ db w' = [peer_a]
  /\ In peer_a (filter (geo_stale (100 + 1 * Minute)) (db w')).
Proof.
  intros api env w w'.
  destruct (degenerate_coordinates_no_write env 100 peer_a w _ api
              eq_refl eq_refl eq_refl eq_refl eq_refl) as (D & _ & S).
  split; [reflexivity |]. split; [exact D |].
  apply (S peer_a 100 (100 + 1 * Minute)).
  - now left.
  - reflexivity.
  - unfold Minute, Second. lia.
Defined.

(** C6 as it is written fails: the nanoseconds of a large enough number of
    seconds do not fit a [Duration]; the product wraps to a negative value and
    the sleep returns at once. *)
Lemma rate_limit_sleep_counterexample :
  let env := env_geo (fun _ => geo_response 429 "0" "9223372037" None) in
  let w := world_at 100 [peer_a] in
  let r := getGeoDataFromAPI env (GossipAddress peer_a) w in
  Atoi "9223372037" = Some 9223372037
  /\ fst r = (None, Some (ErrRateLimit 9223372037))
  /\ trace (snd r)
     = [EvSleep (-9223372036709551616); EvGet (geoUrl "10.0.0.7")]
  /\ clock (snd r) = clock w
  /\ ~ (clock w + 9223372037 * Second <= clock (snd r)).
Proof.
  cbv zeta. split; [reflexivity |]. split; [reflexivity |].
  split; [reflexivity |]. split; [reflexivity |].
  vm_compute. intros H. apply H. reflexivity.
Qed.

(** C6, amended: when the status is 429 or the remaining quota is the string
    0, the step of the resolver issues no statement and leaves the table as it
    was, whatever the TTL header holds; when the TTL header is an integer
    whose nanoseconds fit a [Duration], the lookup sleeps that many seconds,
    so that the clock has advanced by at least as much, and then returns the
    rate-limit error. *)
Theorem rate_limit_sleeps_then_errors
  (env : Env) (now : Time) (peer : PeerAddress.t) (w : World)
  (resp : Response IPAPIResponse.t) :
  let url := geoUrl (GossipAddress peer) in
  geoAPI env (calls w) url = HttpResp resp ->
  rate_limited resp = true ->
  db (exec (resolvePeer env now peer) w) = db w
  /\ adds no_write w (exec (resolvePeer env now peer) w)
  /\ forall ttlSeconds,
       Atoi (Header_Get (Headers resp) "X-Ttl") = Some ttlSeconds ->
       int64_range (ttlSeconds * Second) ->
       let r := getGeoDataFromAPI env (GossipAddress peer) w in
       fst r = (None, Some (ErrRateLimit ttlSeconds))
       /\ trace (snd r)
          = EvSleep (ttlSeconds * Second) :: EvGet url :: trace w
       /\ clock w + ttlSeconds * Second <= clock (snd r)
       /\ exec (resolvePeer env now peer) w = snd r.
Proof.
  intros url A L.
  pose proof (resolvePeer_cases env now peer w) as E. cbv zeta in E.
  fold url in E. rewrite A, L in E.
  split; [| split].
  - destruct (Atoi _); rewrite E; reflexivity.
  - destruct (Atoi _); rewrite E.
    + eapply adds_trans; [now apply adds_after_get | now apply adds_Sleep].
    + now apply adds_after_get.
  - intros ttlSeconds T R r. rewrite T in E.
    assert (Er : r = ((None, Some (ErrRateLimit ttlSeconds)),
                      exec (time_Sleep env (seconds_Duration ttlSeconds))
                           (after_get env url w))).
    { unfold r, getGeoDataFromAPI, bind, http_Get. fold url. rewrite A.
      unfold rate_limited in L. cbn [Headers StatusCode]. rewrite L, T.
      reflexivity. }
    rewrite Er, E. cbn [fst snd].
    rewrite seconds_Duration_exact by exact R.
    split; [reflexivity |]. split; [reflexivity |]. split; [| reflexivity].
    eapply Z.le_trans; [| apply clock_time_Sleep].
    cbn. lia.
Qed.

(** C6, amended, at a concrete input: status 429 with a TTL of 5 seconds. *)
Lemma rate_limit_witness :
  let env := env_geo (fun _ => geo_response 429 "0" "5" None) in
  let w := world_at 100 [peer_a] in
  let r := getGeoDataFromAPI env (GossipAddress peer_a) w in
  Atoi "5" = Some 5
  /\ int64_range (5 * Second)
  /\ db (exec (resolvePeer env 100 peer_a) w) = [peer_a]
  /\ fst r = (None, Some (ErrRateLimit 5))
  /\ clock w + 5 * Second <= clock (snd r).
Proof.
  intros env w r.
  assert (R : int64_range (5 * Second)).
  { unfold int64_range, Second. lia. }
  destruct (rate_limit_sleeps_then_errors env 100 peer_a w _
              eq_refl eq_refl) as (D & _ & S).
  destruct (S 5 eq_refl R) as (F & _ & C & _).
  split; [reflexivity |]. split; [exact R |]. split; [exact D |].
  split; [exact F | exact C].
Defined.

(** ** The resolver: what it writes *)

(** Refutes [writes_geo upd] for a struct whose ten geo fields are [None]. *)
Ltac no_geo_field W :=
  unfold writes_geo in W; cbn in W;
  repeat (destruct W as [W | W]; [now apply W |]); now apply W.

Lemma not_writes_geo_peerAddressOf (t : Time) (c : PeerContact.t) :
  ~ writes_geo (peerAddressOf t c).
Proof. intros W. no_geo_field W. Qed.

Lemma not_writes_geo_infoUpdateOf (now : Time) (i : option HubInfo.t) :
  ~ writes_geo (infoUpdateOf now i).
Proof. intros W. destruct i; no_geo_field W. Qed.

Lemma not_writes_geo_stamp (now : Time) :
  ~ writes_geo (set_GeoDataFetchedAt (Some now) PeerAddress.zero).
Proof. intros W. no_geo_field W. Qed.

Lemma geo_stamped_with_stamp (t : Time) (ev : Event) :
  geo_stamped t ev -> geo_with_stamp ev.
Proof.
  destruct ev; cbn; auto. intros E _. rewrite E. discriminate.
Qed.

(** No statement of the three pipelines writes a geo field without the geo
    fetch time. *)
Lemma resolveIPToGeo_geo_with_stamp (env : Env) (n : nat) (w : World) :
  adds geo_with_stamp w (exec (resolveIPToGeo env n) w).
Proof.
  eapply adds_weaken; [apply geo_stamped_with_stamp |].
  rewrite exec_resolveIPToGeo. apply resolveIPToGeo_for_stamped.
Qed.

Lemma getHubInfo_geo_with_stamp (env : Env) (n : nat) (w : World) :
  adds geo_with_stamp w (exec (getHubInfo env n) w).
Proof.
  rewrite exec_getHubInfo. apply getHubInfo_for_rel.
  - apply adds_refl.
  - apply adds_trans.
  - intros w0. now apply adds_Find.
  - intros peer w0. apply probePeer_adds; cbn; auto.
    intros i err W. now apply not_writes_geo_infoUpdateOf in W.
  - intros d w0. now apply adds_Sleep.
Qed.

Lemma getPeerList_geo_with_stamp (env : Env) (w : World) :
  adds geo_with_stamp w (exec (getPeerList env) w).
Proof.
  pose proof (getPeerList_cases env w) as E. cbv zeta in E.
  set (url := peerListUrl (HUB_URL env)) in *.
  assert (G : adds geo_with_stamp w (after_get env url w)).
  { now apply adds_after_get. }
  destruct (peerListAPI env (calls w) url) as [| resp]; [now rewrite E |].
  destruct (negb _); [now rewrite E |].
  destruct (Body resp) as [body |]; [| now rewrite E].
  rewrite E. eapply adds_trans; [exact G |].
  apply adds_forEach. intros c w0. rewrite exec_upsertContact.
  apply adds_Create. intros err. apply not_writes_geo_peerAddressOf.
Qed.

(** The rows a statement of key [peer] reaches keep being reached. *)
Lemma where_model_assign_geo (peer : PeerAddress.t) (t now : Time)
  (g : option GeoData.t) (r : PeerAddress.t) :
  where_model peer (assign t (geoUpdate now g) r) = where_model peer r.
Proof. destruct g; reflexivity. Qed.

(** C9: a lookup that succeeds with real data makes the resolver issue one
    statement, an [Updates] whose struct holds the ten geo fields of the
    answer together with [GeoDataFetchedAt]; when the statement is applied,
    the rows of the peer's key get the eleven values at once. No statement
    of a run of the resolver, of the prober or of the ingestor writes a geo
    field without the geo fetch time. *)
Theorem real_data_one_update
  (env : Env) (now : Time) (peer : PeerAddress.t) (w : World)
  (resp : Response IPAPIResponse.t) (api : IPAPIResponse.t) :
  let url := geoUrl (GossipAddress peer) in
  geoAPI env (calls w) url = HttpResp resp ->
  real_data resp api ->
  let w1 := after_get env url w in
  let w' := exec (resolvePeer env now peer) w in
  let upd := geoUpdate now (Some (geoDataOf api)) in
  (exists err, trace w' = EvUpdates peer upd err :: EvGet url :: trace w)
  /\ (Country upd, CountryCode upd, Region upd, RegionName upd, City upd)
     = (Some (IPAPIResponse.Country api),
        Some (IPAPIResponse.CountryCode api),
        Some (IPAPIResponse.Region api),
        Some (IPAPIResponse.RegionName api),
        Some (IPAPIResponse.City api))
  /\ (Zip upd, Latitude upd, Longitude upd, Hosting upd, Org upd)
     = (Some (IPAPIResponse.Zip api),
        Some (IPAPIResponse.Latitude api),
        Some (IPAPIResponse.Longitude api),
        Some (IPAPIResponse.Hosting api),
        Some (IPAPIResponse.Org api))
  /\ GeoDataFetchedAt upd = Some now
  /\ (missing_where peer = false ->
      dbFault env (calls w1) = false ->
      db w' = map (fun r => if where_model peer r
                            then with_geo (clock w1) now (geoDataOf api) r
                            else r) (db w))
  /\ (forall n w0,
        adds geo_with_stamp w0 (exec (resolveIPToGeo env n) w0)
        /\ adds geo_with_stamp w0 (exec (getHubInfo env n) w0)
        /\ adds geo_with_stamp w0 (exec (getPeerList env) w0)).
Proof.
  intros url A (L & B & Nres & Nzero) w1 w' upd.
  pose proof (resolvePeer_cases env now peer w) as E. cbv zeta in E.
  fold url w' in E. rewrite A, L, B, Nres, Nzero in E. fold w1 upd in E.
  split.
  { destruct (db_Updates_trace env peer upd w1) as [err T].
    exists err. rewrite E, T. reflexivity. }
  split; [reflexivity |]. split; [reflexivity |]. split; [reflexivity |].
  split.
  - intros Hw Hf. rewrite E, db_Updates_applied by assumption.
    cbn [db emit tick set_db]. unfold Updates. apply map_ext.
    intros r. destruct (where_model peer r); [| reflexivity].
    apply assign_geoUpdate_some.
  - intros n w0. split; [apply resolveIPToGeo_geo_with_stamp |].
    split; [apply getHubInfo_geo_with_stamp |].
    apply getPeerList_geo_with_stamp.
Qed.

(** C9, at a concrete input: the service places the peer in Berlin. *)
Lemma real_data_witness :
  let env := env_geo (fun _ => geo_response 200 "44" "60" (Some api_berlin)) in
  let w := world_at 100 [peer_a] in
  let w' := exec (resolvePeer env 100 peer_a) w in
  real_data {| StatusCode := 200; Headers := [("X-Rl", "44"); ("X-Ttl", "60")];
               Body := Some api_berlin |} api_berlin
  /\ db w' = [with_geo 100 100 (geoDataOf api_berlin) peer_a]
  /\ map City (db w') = [Some "Berlin"]
  /\ map GeoDataFetchedAt (db w') = [Some 100].
Proof.
  intros env w w'.
  assert (R : real_data {| StatusCode := 200;
                           Headers := [("X-Rl", "44"); ("X-Ttl", "60")];
                           Body := Some api_berlin |} api_berlin).
  { repeat split; reflexivity. }
  destruct (real_data_one_update env 100 peer_a w _ api_berlin eq_refl R)
    as (_ & _ & _ & _ & D & _).
  specialize (D eq_refl eq_refl).
  split; [exact R |]. split; [exact D |].
  unfold w'. rewrite D. split; reflexivity.
Defined.

(** C2, the resolver on a reserved range: the statement it issues holds
    [GeoDataFetchedAt] and no geo field, and when it is applied the rows of the
    peer's key change in that column and in [UpdatedAt] only. The time written
    is the [now] of the goroutine's start: a row so stamped is stale at a scan
    of time [t] exactly when [now] is more than a day before [t], however
    recent the update is. *)
Theorem reserved_range_stamp
  (env : Env) (now : Time) (peer : PeerAddress.t) (w : World)
  (resp : Response IPAPIResponse.t) (api : IPAPIResponse.t) :
  let url := geoUrl (GossipAddress peer) in
  geoAPI env (calls w) url = HttpResp resp ->
  rate_limited resp = false ->
  Body resp = Some api ->
  String.eqb (IPAPIResponse.Message api) "reserved range" = true ->
  let w1 := after_get env url w in
  let w' := exec (resolvePeer env now peer) w in
  let upd := set_GeoDataFetchedAt (Some now) PeerAddress.zero in
  (exists err, trace w' = EvUpdates peer upd err :: EvGet url :: trace w)
  /\ ~ writes_geo upd
  /\ (missing_where peer = false ->
      dbFault env (calls w1) = false ->
      db w' = map (fun r => if where_model peer r
                            then set_UpdatedAt (clock w1)
                                   (set_GeoDataFetchedAt (Some now) r)
                            else r) (db w)
      /\ forall r t,
           In r (db w') -> where_model peer r = true ->
           geo_stale t r = (now <? t - 24 * Hour)).
Proof.
  intros url A L B Res w1 w' upd.
  pose proof (resolvePeer_cases env now peer w) as E. cbv zeta in E.
  fold url w' in E. rewrite A, L, B, Res in E. fold w1 in E.
  change (geoUpdate now None) with upd in E.
  split.
  { destruct (db_Updates_trace env peer upd w1) as [err T].
    exists err. rewrite E, T. reflexivity. }
  split.
  { apply not_writes_geo_stamp. }
  intros Hw Hf.
  assert (D : db w' = map (fun r => if where_model peer r
                                    then set_UpdatedAt (clock w1)
                                           (set_GeoDataFetchedAt (Some now) r)
                                    else r) (db w)).
  { rewrite E, db_Updates_applied by assumption.
    cbn [db emit tick set_db]. unfold Updates. apply map_ext.
    intros r. destruct (where_model peer r); [| reflexivity].
    apply (assign_geoUpdate_none (clock w1) now r). }
  split; [exact D |].
  intros r t I Wm. rewrite D in I. apply in_map_iff in I.
  destruct I as (r0 & <- & _).
  destruct (where_model peer r0) eqn:W0; [reflexivity | congruence].
Qed.

(** C2, at the failing input: the goroutine started at time 0,
    the lookup happens 25 hours later and the row, stamped with 0, is stale at
    the scan one minute after the update. *)
Lemma reserved_range_witness :
  let api := api_fail "reserved range" in
  let env := env_geo (fun _ => geo_response 200 "44" "60" (Some api)) in
  let w := world_at (25 * Hour) [peer_a] in
  let w' := exec (resolvePeer env 0 peer_a) w in
  map GeoDataFetchedAt (db w') = [Some 0]
  /\ map UpdatedAt (db w') = [25 * Hour]
  /\ map Country (db w') = [None]
  /\ Find (geo_stale (25 * Hour + 1 * Minute)) 10 (db w') = db w'.
Proof.
  intros api env w w'.
  destruct (reserved_range_stamp env 0 peer_a w _ api
              eq_refl eq_refl eq_refl eq_refl) as (_ & _ & H).
  destruct (H eq_refl eq_refl) as [D S].
  unfold w'. rewrite D. cbn [map db w world_at].
  change (where_model peer_a peer_a) with true. cbv iota.
  repeat split; try reflexivity.
Defined.

(** C2, over the whole loop: the geolocation service is down for the first
    1441 iterations (a day and a minute), then answers that the address is in
    a reserved range. The row is stamped in iteration 1442 with the start
    time 0, and the scan of iteration 1443, a minute later, selects it
    again. *)
Lemma reserved_range_restale_run :
  let env := env_geo down_then_reserved in
  let w := exec (resolveIPToGeo env 1442) (world_at 0 [peer_a]) in
  map GeoDataFetchedAt (db w) = [Some 0]
  /\ clock w = 1442 * Minute
  /\ fst (db_Find env geo_stale 10 w) = db w.
Proof. vm_compute. repeat split. Qed.

(** ** The prober *)

Lemma where_model_with_info (peer : PeerAddress.t) (t now : Time)
  (i : HubInfo.t) (r : PeerAddress.t) :
  where_model peer (with_info t now i r) = where_model peer r.
Proof. reflexivity. Qed.

(** C1, the prober on a probe that succeeds: the statement it issues holds
    the reported operator fid behind a pointer that is never nil, so that the
    value is written whether it is zero or not; when the statement is
    applied, every row of the peer's key has the reported value as
    [HubOperatorFid], and the value it had before is gone. *)
Theorem successful_probe_stores_reported_fid
  (env : Env) (now : Time) (peer : PeerAddress.t) (w : World)
  (resp : Response HubInfoResponse.t) (body : HubInfoResponse.t) :
  let url := hubUrl (RPCAddress peer) in
  hubAPI env (calls w) url = HttpResp resp ->
  StatusCode resp = StatusOK ->
  Body resp = Some body ->
  let w1 := after_get env url w in
  let w' := exec (probePeer env now peer) w in
  let info := hubInfoOf (latency_at env w) body in
  (exists err,
     trace w' = EvUpdates peer (infoUpdateOf now (Some info)) err
                :: EvGet url :: trace w)
  /\ HubOperatorFid (infoUpdateOf now (Some info))
     = Some (HubInfoResponse.HubOperatorFid body)
  /\ (missing_where peer = false ->
      dbFault env (calls w1) = false ->
      db w' = map (fun r => if where_model peer r
                            then with_info (clock w1) now info r
                            else r) (db w)
      /\ forall r,
           In r (db w') -> where_model peer r = true ->
           HubOperatorFid r = Some (HubInfoResponse.HubOperatorFid body)).
Proof.
  intros url A S B w1 w' info.
  assert (E : w' = exec (db_Updates env peer (infoUpdateOf now (Some info)))
                        w1).
  { unfold w'. rewrite probePeer_exec.
    pose proof (fetchHubInfo_cases env peer w) as F. cbv zeta in F.
    fold url in F. rewrite A, S, B in F. rewrite F. reflexivity. }
  split.
  { destruct (db_Updates_trace env peer (infoUpdateOf now (Some info)) w1)
      as [err T].
    exists err. rewrite E, T. reflexivity. }
  split; [reflexivity |].
  intros Hw Hf.
  assert (D : db w' = map (fun r => if where_model peer r
                                    then with_info (clock w1) now info r
                                    else r) (db w)).
  { rewrite E, db_Updates_applied by assumption.
    cbn [db emit tick set_db]. unfold Updates. apply map_ext.
    intros r. destruct (where_model peer r); [| reflexivity].
    apply assign_infoUpdate_some. }
  split; [exact D |].
  intros r I Wm. rewrite D in I. apply in_map_iff in I.
  destruct I as (r0 & <- & _).
  destruct (where_model peer r0) eqn:W0; [reflexivity | congruence].
Qed.

(** C1, at the failing input: the row holds the operator fid 5
    and the hub reports 0. *)
Lemma zero_fid_replaces_prior_value :
  let env := env_hub (ok_response (hub_body 0)) in
  let w := world_at 100 [peer_probed] in
  let w' := exec (probePeer env 100 peer_probed) w in
  map HubOperatorFid (db w) = [Some 5]
  /\ map HubOperatorFid (db w') = [Some 0].
Proof.
  intros env w w'.
  destruct (successful_probe_stores_reported_fid env 100 peer_probed w _
              (hub_body 0) eq_refl eq_refl eq_refl) as (_ & _ & H).
  destruct (H eq_refl eq_refl) as [D F].
  split; [reflexivity |].
  unfold w'. rewrite D. reflexivity.
Defined.

(** C5 as it is written fails: the update of a failed probe also sets the
    row's [UpdatedAt]. *)
Lemma failed_probe_counterexample :
  let env := env_hub HttpErr in
  let w := world_at 100 [peer_probed] in
  let w' := exec (probePeer env 50 peer_probed) w in
  fetch_failed (hubAPI env (calls w) (hubUrl (RPCAddress peer_probed)))
  /\ map UpdatedAt (db w) = [0]
  /\ map UpdatedAt (db w') = [100 + 7 * Millisecond]
  /\ db w' <> [set_InfoFetchedAt (Some 50) peer_probed].
Proof.
  cbv zeta. split; [exact I |]. split; [reflexivity |].
  split; [reflexivity |].
  intros E. apply (f_equal (map UpdatedAt)) in E.
  vm_compute in E. discriminate E.
Qed.

(** C5, amended: when the probe fails (transport error, status other than
    200, body that does not decode) the prober issues one statement, whose
    struct holds [InfoFetchedAt] and nothing else; when it is applied, the
    rows of the peer's key change in [InfoFetchedAt] and in the audit column
    [UpdatedAt] only, so that every operational field and every other field
    keeps its value; and the loop goes on with the rest of the batch. *)
Theorem failed_probe_stamps_only
  (env : Env) (now : Time) (peer : PeerAddress.t) (w : World) :
  let url := hubUrl (RPCAddress peer) in
  fetch_failed (hubAPI env (calls w) url) ->
  let w1 := after_get env url w in
  let w' := exec (probePeer env now peer) w in
  let upd := set_InfoFetchedAt (Some now) PeerAddress.zero in
  (exists err, trace w' = EvUpdates peer upd err :: EvGet url :: trace w)
  /\ (missing_where peer = false ->
      dbFault env (calls w1) = false ->
      db w' = map (fun r => if where_model peer r
                            then set_UpdatedAt (clock w1)
                                   (set_InfoFetchedAt (Some now) r)
                            else r) (db w))
  /\ (forall r,
        let r' := set_UpdatedAt (clock w1) (set_InfoFetchedAt (Some now) r) in
        (Version r', IsSyncing r', Nickname r', RootHash r', PeerId r')
        = (Version r, IsSyncing r, Nickname r, RootHash r, PeerId r)
        /\ (NumMessages r', NumFidEvents r', NumFnameEvents r',
            HubOperatorFid r', Latency r')
           = (NumMessages r, NumFidEvents r, NumFnameEvents r,
              HubOperatorFid r, Latency r))
  /\ (forall rest,
        exec (forEach (peer :: rest) (probePeer env now)) w
        = exec (forEach rest (probePeer env now)) w').
Proof.
  intros url F w1 w' upd.
  assert (E : w' = exec (db_Updates env peer upd) w1).
  { unfold w'. rewrite probePeer_exec.
    pose proof (fetchHubInfo_cases env peer w) as C. cbv zeta in C.
    fold url in C. rewrite C. cbn [fst snd].
    destruct (hubAPI env (calls w) url) as [| resp]; [reflexivity |].
    cbn in F. destruct F as [F | F].
    - apply Z.eqb_neq in F. rewrite F. reflexivity.
    - rewrite F. destruct (negb _); reflexivity. }
  split.
  { destruct (db_Updates_trace env peer upd w1) as [err T].
    exists err. rewrite E, T. reflexivity. }
  split.
  { intros Hw Hf. rewrite E, db_Updates_applied by assumption.
    cbn [db emit tick set_db]. unfold Updates. apply map_ext.
    intros r. destruct (where_model peer r); [| reflexivity].
    apply (assign_infoUpdate_none (clock w1) now r). }
  split.
  { intros r. cbv zeta. split; reflexivity. }
  intros rest. apply exec_forEach_cons.
Qed.

(** C5, amended, at a concrete input: the hub of the first peer of a batch of
    two does not answer. *)
Lemma failed_probe_witness :
  let env := env_hub HttpErr in
  let other := stamp_create 0 (peerAddressOf 0 contact_b) in
  let w := world_at 100 [peer_probed; other] in
  let w' := exec (probePeer env 50 peer_probed) w in
  fetch_failed (hubAPI env (calls w) (hubUrl (RPCAddress peer_probed)))
  /\ db w' = [set_UpdatedAt (100 + 7 * Millisecond)
                (set_InfoFetchedAt (Some 50) peer_probed); other]
  /\ map InfoFetchedAt
       (db (exec (forEach [peer_probed; other] (probePeer env 50)) w))
     = [Some 50; Some 50].
Proof.
  intros env other w w'.
  destruct (failed_probe_stamps_only env 50 peer_probed w I)
    as (_ & D & _ & N).
  specialize (D eq_refl eq_refl).
  split; [exact I |]. split; [exact D |].
  rewrite (N [other]). reflexivity.
Defined.

(** ** The pipelines stay within the reachable tables *)

Lemma upsertContact_reachable (env : Env) (c : PeerContact.t) (w : World) :
  reachable (db w) -> reachable (db (exec (upsertContact env c) w)).
Proof.
  intros R. destruct (dbFault env (calls w)) eqn:F.
  - now rewrite upsertContact_failed.
  - rewrite upsertContact_applied by exact F. now constructor.
Qed.

Lemma getPeerList_reachable (env : Env) (w : World) :
  reachable (db w) -> reachable (db (exec (getPeerList env) w)).
Proof.
  intros R. pose proof (getPeerList_cases env w) as E. cbv zeta in E.
  destruct (peerListAPI env (calls w) _) as [| resp]; [now rewrite E |].
  destruct (negb _); [now rewrite E |].
  destruct (Body resp) as [body |]; [| now rewrite E].
  rewrite E.
  apply (forEach_rel (fun a b => reachable (db a) -> reachable (db b)));
    auto.
  intros x w0. apply upsertContact_reachable.
Qed.

Lemma resolveIPToGeo_reachable (env : Env) (n : nat) (w : World) :
  reachable (db w) -> reachable (db (exec (resolveIPToGeo env n) w)).
Proof.
  rewrite exec_resolveIPToGeo.
  apply (resolveIPToGeo_for_rel env
           (fun a b => reachable (db a) -> reachable (db b))); auto.
  intros peer w0 R.
  destruct (resolvePeer_db env (clock w) peer w0) as [D | (t & g & D)];
    rewrite D; [exact R | now constructor].
Qed.

Lemma getHubInfo_reachable (env : Env) (n : nat) (w : World) :
  reachable (db w) -> reachable (db (exec (getHubInfo env n) w)).
Proof.
  rewrite exec_getHubInfo.
  apply (getHubInfo_for_rel env
           (fun a b => reachable (db a) -> reachable (db b))); auto.
  intros peer w0 R.
  destruct (probePeer_db env (clock w) peer w0) as [D | (t & i & D)];
    rewrite D; [exact R | now constructor].
Qed.

(** * Further properties of the pipelines *)

(** ** Invariants of the rows *)

Lemma Forall_Create (P : PeerAddress.t -> Prop) (now : Time)
  (row : PeerAddress.t) (tbl : Table) :
  Forall P tbl ->
  (forall r, P r -> P (do_update (stamp_create now row) r)) ->
  P (stamp_create now row) ->
  Forall P (Create_OnConflict now row tbl).
Proof.
  intros F U N. unfold Create_OnConflict.
  destruct (existsb _ tbl).
  - apply Forall_forall. intros r I. apply in_map_iff in I.
    destruct I as (r0 & <- & I0).
    rewrite Forall_forall in F.
    destruct (same_key r0 _); auto.
  - apply Forall_app. split; [exact F | now constructor].
Qed.

Lemma Forall_Updates (P : PeerAddress.t -> Prop) (now : Time)
  (m upd : PeerAddress.t) (tbl : Table) :
  Forall P tbl ->
  (forall r, P r -> P (assign now upd r)) ->
  Forall P (Updates now m upd tbl).
Proof.
  intros F U. apply Forall_forall. intros r I. apply in_map_iff in I.
  destruct I as (r0 & <- & I0). rewrite Forall_forall in F.
  destruct (where_model m r0); auto.
Qed.

Lemma geo_group_inv_geoUpdate (now t : Time) (g : option GeoData.t)
  (r : PeerAddress.t) :
  geo_group_inv r -> geo_group_inv (assign now (geoUpdate t g) r).
Proof.
  intros [N | [[g0 F] S]]; destruct g as [g |].
  - right. split; [exists g; reflexivity | discriminate].
  - left. exact N.
  - right. split; [exists g; reflexivity | discriminate].
  - right. split; [exists g0; exact F | discriminate].
Qed.

Lemma geo_group_inv_infoUpdate (now t : Time) (i : option HubInfo.t)
  (r : PeerAddress.t) :
  geo_group_inv r -> geo_group_inv (assign now (infoUpdateOf t i) r).
Proof.
  assert (E : geo_fields (assign now (infoUpdateOf t i) r) = geo_fields r
              /\ GeoDataFetchedAt (assign now (infoUpdateOf t i) r)
                 = GeoDataFetchedAt r).
  { destruct i; split; reflexivity. }
  destruct E as [E1 E2]. unfold geo_group_inv. now rewrite E1, E2.
Qed.

Lemma info_group_inv_infoUpdate (now t : Time) (i : option HubInfo.t)
  (r : PeerAddress.t) :
  info_group_inv r -> info_group_inv (assign now (infoUpdateOf t i) r).
Proof.
  intros [N | [[i0 F] S]]; destruct i as [i |].
  - right. split; [exists i; reflexivity | discriminate].
  - left. exact N.
  - right. split; [exists i; reflexivity | discriminate].
  - right. split; [exists i0; exact F | discriminate].
Qed.

Lemma info_group_inv_geoUpdate (now t : Time) (g : option GeoData.t)
  (r : PeerAddress.t) :
  info_group_inv r -> info_group_inv (assign now (geoUpdate t g) r).
Proof.
  assert (E : info_fields (assign now (geoUpdate t g) r) = info_fields r
              /\ InfoFetchedAt (assign now (geoUpdate t g) r)
                 = InfoFetchedAt r).
  { destruct g; split; reflexivity. }
  destruct E as [E1 E2]. unfold info_group_inv. now rewrite E1, E2.
Qed.

(** X1: in every table the program builds, the ten geo columns of a row are
    all NULL or all set, and when they are set so is the geo fetch time. *)
Theorem geo_group_all_or_nothing (tbl : Table) :
  reachable tbl -> Forall geo_group_inv tbl.
Proof.
  induction 1 as [| now t c tbl R IH | now t m g tbl R IH
                  | now t m i tbl R IH].
  - constructor.
  - apply Forall_Create; auto. now left.
  - apply Forall_Updates; auto. intros r. apply geo_group_inv_geoUpdate.
  - apply Forall_Updates; auto. intros r. apply geo_group_inv_infoUpdate.
Qed.

(** X2: in every table the program builds, the ten operational columns of a
    row are all NULL or all set, and when they are set so is the info fetch
    time. *)
Theorem info_group_all_or_nothing (tbl : Table) :
  reachable tbl -> Forall info_group_inv tbl.
Proof.
  induction 1 as [| now t c tbl R IH | now t m g tbl R IH
                  | now t m i tbl R IH].
  - constructor.
  - apply Forall_Create; auto. now left.
  - apply Forall_Updates; auto. intros r. apply info_group_inv_geoUpdate.
  - apply Forall_Updates; auto. intros r. apply info_group_inv_infoUpdate.
Qed.

(** X3: in every table the program builds, the gossip address column of a
    row repeats the address of its key: the address the resolver looks up is
    the one the row is filed under. *)
Theorem gossip_address_is_the_key (tbl : Table) :
  reachable tbl -> Forall (fun r => GossipAddress r = Address r) tbl.
Proof.
  induction 1 as [| now t c tbl R IH | now t m g tbl R IH
                  | now t m i tbl R IH].
  - constructor.
  - rewrite Forall_forall in IH. apply Forall_forall. intros r I.
    destruct (In_dec_key (key (peerAddressOf t c)) (map key tbl)) as [K | K].
    + rewrite Create_conflict in I by exact K. apply in_map_iff in I.
      destruct I as (r0 & <- & I0).
      destruct (same_key r0 _) eqn:S; [| now apply IH].
      apply same_key_iff in S. rewrite key_stamp_create in S.
      unfold key in S. cbn in S |- *. congruence.
    + rewrite Create_insert in I by exact K. apply in_app_or in I.
      destruct I as [I | [<- | []]]; [now apply IH | reflexivity].
  - apply Forall_Updates; auto. intros r E. destruct g; exact E.
  - apply Forall_Updates; auto. intros r E. destruct i; exact E.
Qed.

Lemma reachable_table_probed : reachable table_probed.
Proof. repeat constructor. Qed.

(** X1, on the row of a peer that was ingested, resolved and probed. *)
Lemma geo_group_witness :
  reachable table_probed
  /\ Forall geo_group_inv table_probed
  /\ map City table_probed = [Some "Berlin"]
  /\ map GeoDataFetchedAt table_probed = [Some 20].
Proof.
  split; [exact reachable_table_probed |].
  split; [exact (geo_group_all_or_nothing table_probed
                   reachable_table_probed) |].
  split; reflexivity.
Defined.

(** X2, on the same row. *)
Lemma info_group_witness :
  reachable table_probed
  /\ Forall info_group_inv table_probed
  /\ map Nickname table_probed = [Some "hub-a"]
  /\ map InfoFetchedAt table_probed = [Some 35].
Proof.
  split; [exact reachable_table_probed |].
  split; [exact (info_group_all_or_nothing table_probed
                   reachable_table_probed) |].
  split; reflexivity.
Defined.

(** X3, on the same row. *)
Lemma gossip_address_witness :
  reachable table_probed
  /\ Forall (fun r => GossipAddress r = Address r) table_probed
  /\ map Address table_probed = ["10.0.0.7"].
Proof.
  split; [exact reachable_table_probed |].
  split; [exact (gossip_address_is_the_key table_probed
                   reachable_table_probed) |].
  reflexivity.
Defined.

(** ** What each pipeline leaves alone *)

Lemma kept_by_resolver_refl (r : PeerAddress.t) : kept_by_resolver r r.
Proof. repeat split. Qed.

Lemma kept_by_resolver_trans (a b c : PeerAddress.t) :
  kept_by_resolver a b -> kept_by_resolver b c -> kept_by_resolver a c.
Proof.
  intros (A1 & A2 & A3 & A4 & A5) (B1 & B2 & B3 & B4 & B5).
  repeat split; congruence.
Qed.

Lemma kept_by_prober_refl (r : PeerAddress.t) : kept_by_prober r r.
Proof. repeat split. Qed.

Lemma kept_by_prober_trans (a b c : PeerAddress.t) :
  kept_by_prober a b -> kept_by_prober b c -> kept_by_prober a c.
Proof.
  intros (A1 & A2 & A3 & A4 & A5) (B1 & B2 & B3 & B4 & B5).
  repeat split; congruence.
Qed.

Lemma kept_by_ingestor_refl (r : PeerAddress.t) : kept_by_ingestor r r.
Proof. repeat split. Qed.

Lemma kept_by_ingestor_trans (a b c : PeerAddress.t) :
  kept_by_ingestor a b -> kept_by_ingestor b c -> kept_by_ingestor a c.
Proof.
  intros (A1 & A2 & A3 & A4 & A5 & A6 & A7) (B1 & B2 & B3 & B4 & B5 & B6 & B7).
  repeat split; congruence.
Qed.

Lemma Updates_kept_by_resolver (t now : Time) (m : PeerAddress.t)
  (g : option GeoData.t) (tbl : Table) :
  Forall2 kept_by_resolver tbl (Updates t m (geoUpdate now g) tbl).
Proof.
  apply Forall2_image. intros r. destruct (where_model m r).
  - destruct g; repeat split.
  - apply kept_by_resolver_refl.
Qed.

Lemma Updates_kept_by_prober (t now : Time) (m : PeerAddress.t)
  (i : option HubInfo.t) (tbl : Table) :
  Forall2 kept_by_prober tbl (Updates t m (infoUpdateOf now i) tbl).
Proof.
  apply Forall2_image. intros r. destruct (where_model m r).
  - destruct i; repeat split.
  - apply kept_by_prober_refl.
Qed.

(** X4: a run of the resolver, of any number of iterations, keeps the rows of
    the table in number and order, and keeps of each row the key, the
    thirteen ingestion columns, the ten operational columns with their fetch
    time, and the creation time. *)
Theorem resolver_leaves_other_groups (env : Env) (n : nat) (w : World) :
  Forall2 kept_by_resolver (db w) (db (exec (resolveIPToGeo env n) w)).
Proof.
  rewrite exec_resolveIPToGeo.
  apply (resolveIPToGeo_for_rel env
           (fun a b => Forall2 kept_by_resolver (db a) (db b))).
  - intros w0. apply Forall2_same, kept_by_resolver_refl.
  - intros a b c. apply Forall2_chain, kept_by_resolver_trans.
  - intros w0. apply Forall2_same, kept_by_resolver_refl.
  - intros peer w0.
    destruct (resolvePeer_db env (clock w) peer w0) as [D | (t & g & D)];
      rewrite D.
    + apply Forall2_same, kept_by_resolver_refl.
    + apply Updates_kept_by_resolver.
  - intros d w0. apply Forall2_same, kept_by_resolver_refl.
Qed.

(** X5: a run of the prober, of any number of iterations, keeps the rows of
    the table in number and order, and keeps of each row the key, the thirteen
    ingestion columns, the ten geo columns with their fetch time, and the
    creation time. *)
Theorem prober_leaves_other_groups (env : Env) (n : nat) (w : World) :
  Forall2 kept_by_prober (db w) (db (exec (getHubInfo env n) w)).
Proof.
  rewrite exec_getHubInfo.
  apply (getHubInfo_for_rel env
           (fun a b => Forall2 kept_by_prober (db a) (db b))).
  - intros w0. apply Forall2_same, kept_by_prober_refl.
  - intros a b c. apply Forall2_chain, kept_by_prober_trans.
  - intros w0. apply Forall2_same, kept_by_prober_refl.
  - intros peer w0.
    destruct (probePeer_db env (clock w) peer w0) as [D | (t & i & D)];
      rewrite D.
    + apply Forall2_same, kept_by_prober_refl.
    + apply Updates_kept_by_prober.
  - intros d w0. apply Forall2_same, kept_by_prober_refl.
Qed.

(** *** The ingestor only adds rows *)

Lemma grows_refl (R : PeerAddress.t -> PeerAddress.t -> Prop) (tbl : Table) :
  (forall r, R r r) -> grows R tbl tbl.
Proof.
  intros Rr. exists tbl, []. split; [now rewrite app_nil_r |].
  now apply Forall2_same.
Qed.

Lemma grows_trans (R : PeerAddress.t -> PeerAddress.t -> Prop)
  (t1 t2 t3 : Table) :
  (forall a b c, R a b -> R b c -> R a c) ->
  grows R t1 t2 -> grows R t2 t3 -> grows R t1 t3.
Proof.
  intros Rt (k & a & -> & F1) (k' & a' & -> & F2).
  apply Forall2_app_inv_l in F2. destruct F2 as (k1 & k2 & Fk & Fa & ->).
  exists k1, (k2 ++ a'). split; [now rewrite app_assoc |].
  eapply Forall2_chain; eauto.
Qed.

Lemma Create_grows (now : Time) (row : PeerAddress.t) (tbl : Table) :
  grows kept_by_ingestor tbl (Create_OnConflict now row tbl).
Proof.
  unfold Create_OnConflict. destruct (existsb _ tbl).
  - eexists. exists []. split; [now rewrite app_nil_r |].
    apply Forall2_image. intros r.
    destruct (same_key r _); repeat split.
  - exists tbl. eexists. split; [reflexivity |].
    apply Forall2_same, kept_by_ingestor_refl.
Qed.

Lemma upsertContact_grows (env : Env) (c : PeerContact.t) (w : World) :
  grows kept_by_ingestor (db w) (db (exec (upsertContact env c) w)).
Proof.
  destruct (dbFault env (calls w)) eqn:F.
  - rewrite upsertContact_failed by exact F.
    apply grows_refl, kept_by_ingestor_refl.
  - rewrite upsertContact_applied by exact F. apply Create_grows.
Qed.

Lemma gets_upsertContact (env : Env) (c : PeerContact.t) (w : World) :
  gets (trace (exec (upsertContact env c) w)) = gets (trace w).
Proof.
  rewrite exec_upsertContact. unfold exec, db_Create.
  destruct (dbFault env (calls w)); reflexivity.
Qed.

Lemma getPeerList_grows (env : Env) (w : World) :
  grows kept_by_ingestor (db w) (db (exec (getPeerList env) w))
  /\ gets (trace (exec (getPeerList env) w)) = S (gets (trace w)).
Proof.
  pose proof (getPeerList_cases env w) as E. cbv zeta in E.
  set (url := peerListUrl (HUB_URL env)) in *.
  assert (G : grows kept_by_ingestor (db w) (db (after_get env url w))
              /\ gets (trace (after_get env url w)) = S (gets (trace w))).
  { split; [apply grows_refl, kept_by_ingestor_refl | reflexivity]. }
  destruct (peerListAPI env (calls w) url) as [| resp]; [now rewrite E |].
  destruct (negb _); [now rewrite E |].
  destruct (Body resp) as [body |]; [| now rewrite E].
  rewrite E. destruct G as [G1 G2]. rewrite <- G2.
  generalize (after_get env url w) G1. clear.
  induction (PeerListResponse.Contacts body) as [| c cs IH]; intros w0 G.
  - split; [exact G | reflexivity].
  - rewrite exec_forEach_cons.
    destruct (IH (exec (upsertContact env c) w0)) as [I1 I2].
    + eapply grows_trans; [apply kept_by_ingestor_trans | exact G |].
      apply upsertContact_grows.
    + split; [exact I1 |]. rewrite I2. apply gets_upsertContact.
Qed.

Lemma ingestor_for_S (env : Env) (n : nat) (w : World) :
  exec (ingestor_for env (S n)) w
  = exec (ingestor_for env n) (exec (getPeerList env) (tick env w)).
Proof. cbn [ingestor_for]. rewrite !exec_bind. reflexivity. Qed.

Lemma ingestor_for_grows (env : Env) (n : nat) (w : World) :
  grows kept_by_ingestor (db w) (db (exec (ingestor_for env n) w))
  /\ gets (trace (exec (ingestor_for env n) w)) = (gets (trace w) + n)%nat.
Proof.
  revert w. induction n as [| n IH]; intros w.
  - split; [apply grows_refl, kept_by_ingestor_refl | cbn; lia].
  - rewrite ingestor_for_S.
    destruct (getPeerList_grows env (tick env w)) as [H1 H2].
    destruct (IH (exec (getPeerList env) (tick env w))) as [I1 I2].
    split.
    + eapply grows_trans; [apply kept_by_ingestor_trans | exact H1 |].
      exact I1.
    + rewrite I2, H2. cbn [trace tick]. lia.
Qed.

(** X6: the goroutine that seeds the table and then polls on each tick
    fetches the peer list once more than it has received ticks; whatever the
    fetches answer and whichever upserts fail, it never removes or reorders a
    row, never changes a key, and leaves the geo columns, the operational
    columns, both fetch times and both audit times of every row that was
    there as they were: what it adds comes after. *)
Theorem ingestor_only_adds (env : Env) (ticks : nat) (w : World) :
  grows kept_by_ingestor (db w) (db (exec (ingestor env ticks) w))
  /\ gets (trace (exec (ingestor env ticks) w))
     = (gets (trace w) + S ticks)%nat.
Proof.
  unfold ingestor. rewrite exec_bind.
  change (snd (getPeerList env w)) with (exec (getPeerList env) w).
  destruct (getPeerList_grows env w) as [G1 G2].
  destruct (ingestor_for_grows env ticks (exec (getPeerList env) w))
    as [I1 I2].
  split.
  - eapply grows_trans; [apply kept_by_ingestor_trans | exact G1 |].
    exact I1.
  - rewrite I2, G2. lia.
Qed.

(** ** The statements of the three pipelines do not disturb each other *)

Lemma where_model_assign_info (peer : PeerAddress.t) (t now : Time)
  (i : option HubInfo.t) (r : PeerAddress.t) :
  where_model peer (assign t (infoUpdateOf now i) r) = where_model peer r.
Proof. destruct i; reflexivity. Qed.

Lemma assign_geo_info_swap (t1 t2 n1 n2 : Time) (g : option GeoData.t)
  (i : option HubInfo.t) (r : PeerAddress.t) :
  set_UpdatedAt 0
    (assign t1 (geoUpdate n1 g) (assign t2 (infoUpdateOf n2 i) r))
  = set_UpdatedAt 0
      (assign t2 (infoUpdateOf n2 i) (assign t1 (geoUpdate n1 g) r)).
Proof. destruct r, g, i; vm_compute; reflexivity. Qed.

Lemma geo_kept_by_info (t n : Time) (i : option HubInfo.t)
  (x : PeerAddress.t) :
  geo_fields (assign t (infoUpdateOf n i) x) = geo_fields x
  /\ GeoDataFetchedAt (assign t (infoUpdateOf n i) x) = GeoDataFetchedAt x.
Proof. destruct i; split; reflexivity. Qed.

Lemma info_kept_by_geo (t n : Time) (g : option GeoData.t)
  (x : PeerAddress.t) :
  info_fields (assign t (geoUpdate n g) x) = info_fields x
  /\ InfoFetchedAt (assign t (geoUpdate n g) x) = InfoFetchedAt x.
Proof. destruct g; split; reflexivity. Qed.

(** X7: an update of the resolver and an update of the prober, on whichever
    rows and in whichever order, give the same table but for the update time
    (the later statement's); the ten geo columns and the geo fetch time are
    those the resolver's update leaves, the ten operational columns and the
    info fetch time those the prober's update leaves: neither statement
    loses what the other wrote. *)
Theorem geo_and_info_updates_commute
  (t1 t2 n1 n2 : Time) (m1 m2 : PeerAddress.t) (g : option GeoData.t)
  (i : option HubInfo.t) (tbl : Table) :
  let G := Updates t1 m1 (geoUpdate n1 g) in
  let I := Updates t2 m2 (infoUpdateOf n2 i) in
  map (set_UpdatedAt 0) (G (I tbl)) = map (set_UpdatedAt 0) (I (G tbl))
  /\ map geo_fields (I (G tbl)) = map geo_fields (G tbl)
  /\ map GeoDataFetchedAt (I (G tbl)) = map GeoDataFetchedAt (G tbl)
  /\ map info_fields (G (I tbl)) = map info_fields (I tbl)
  /\ map InfoFetchedAt (G (I tbl)) = map InfoFetchedAt (I tbl).
Proof.
  intros G I. unfold G, I, Updates.
  split; [| split; [| split; [| split]]];
    rewrite !map_map; apply map_ext; intros r; cbn beta.
  - destruct (where_model m1 r) eqn:W1, (where_model m2 r) eqn:W2;
      rewrite ?where_model_assign_geo, ?where_model_assign_info, ?W1, ?W2;
      try reflexivity.
    apply assign_geo_info_swap.
  - destruct (where_model m2 (if where_model m1 r
                              then assign t1 (geoUpdate n1 g) r else r));
      [apply geo_kept_by_info | reflexivity].
  - destruct (where_model m2 (if where_model m1 r
                              then assign t1 (geoUpdate n1 g) r else r));
      [apply geo_kept_by_info | reflexivity].
  - destruct (where_model m1 (if where_model m2 r
                              then assign t2 (infoUpdateOf n2 i) r else r));
      [apply info_kept_by_geo | reflexivity].
  - destruct (where_model m1 (if where_model m2 r
                              then assign t2 (infoUpdateOf n2 i) r else r));
      [apply info_kept_by_geo | reflexivity].
Qed.

Lemma assign_geo_do_update (t n : Time) (g : option GeoData.t)
  (x r : PeerAddress.t) :
  assign t (geoUpdate n g) (do_update x r)
  = do_update x (assign t (geoUpdate n g) r).
Proof. destruct r, x, g; vm_compute; reflexivity. Qed.

Lemma assign_info_do_update (t n : Time) (i : option HubInfo.t)
  (x r : PeerAddress.t) :
  assign t (infoUpdateOf n i) (do_update x r)
  = do_update x (assign t (infoUpdateOf n i) r).
Proof. destruct r, x, i; vm_compute; reflexivity. Qed.

Lemma same_key_assign (t : Time) (upd r row : PeerAddress.t) :
  key (assign t upd r) = key r ->
  same_key (assign t upd r) row = same_key r row.
Proof.
  intros K. unfold same_key.
  assert (N : Network (assign t upd r) = Network r).
  { apply (f_equal fst) in K. exact K. }
  assert (A : Address (assign t upd r) = Address r).
  { apply (f_equal snd) in K. exact K. }
  now rewrite N, A.
Qed.

Lemma upsert_Updates_swap (now t : Time) (row m upd : PeerAddress.t)
  (tbl : Table) :
  (forall r, key (assign t upd r) = key r) ->
  (forall x r, assign t upd (do_update x r) = do_update x (assign t upd r)) ->
  In (key row) (map key tbl) ->
  Create_OnConflict now row (Updates t m upd tbl)
  = Updates t m upd (Create_OnConflict now row tbl).
Proof.
  intros K S I.
  rewrite (Create_conflict now row (Updates t m upd tbl))
    by (rewrite map_key_Updates; auto).
  rewrite (Create_conflict now row tbl) by exact I.
  unfold Updates. rewrite !map_map. apply map_ext. intros r.
  destruct (where_model m r) eqn:W.
  - rewrite same_key_assign by apply K.
    destruct (same_key r _).
    + replace (where_model m (do_update (stamp_create now row) r)) with true
        by (symmetry; exact W).
      symmetry. apply S.
    + now rewrite W.
  - destruct (same_key r _).
    + replace (where_model m (do_update (stamp_create now row) r))
        with false by (symmetry; exact W).
      reflexivity.
    + now rewrite W.
Qed.

(** X8: the upsert of a peer that is in the table and an update of the
    resolver or of the prober, on whichever rows, give the same table in
    either order: the ingestor neither loses nor undoes what the other two
    pipelines write, and they do not undo what it writes. *)
Theorem upsert_commutes_with_updates
  (now t n : Time) (row m : PeerAddress.t) (g : option GeoData.t)
  (i : option HubInfo.t) (tbl : Table) :
  In (key row) (map key tbl) ->
  Create_OnConflict now row (Updates t m (geoUpdate n g) tbl)
  = Updates t m (geoUpdate n g) (Create_OnConflict now row tbl)
  /\ Create_OnConflict now row (Updates t m (infoUpdateOf n i) tbl)
     = Updates t m (infoUpdateOf n i) (Create_OnConflict now row tbl).
Proof.
  intros I. split; apply upsert_Updates_swap; auto.
  - intros r. apply key_assign_geo.
  - intros x r. apply assign_geo_do_update.
  - intros r. apply key_assign_info.
  - intros x r. apply assign_info_do_update.
Qed.

(** X8, at a concrete input: the peer 10.0.0.7 reports again, count 9, while
    the resolver places it in Berlin. *)
Lemma upsert_commutes_witness :
  let row := peerAddressOf 50 (contact_a 9 1700000000900) in
  let upd := geoUpdate 20 (Some (geoDataOf api_berlin)) in
  In (key row) (map key [peer_a])
  /\ Create_OnConflict 50 row (Updates 60 peer_a upd [peer_a])
     = Updates 60 peer_a upd (Create_OnConflict 50 row [peer_a])
  /\ map Count (Updates 60 peer_a upd (Create_OnConflict 50 row [peer_a]))
     = [9]
  /\ map City (Create_OnConflict 50 row (Updates 60 peer_a upd [peer_a]))
     = [Some "Berlin"].
Proof.
  intros row upd.
  assert (I : In (key row) (map key [peer_a])) by (left; reflexivity).
  destruct (upsert_commutes_with_updates 50 60 20 row peer_a
              (Some (geoDataOf api_berlin)) None [peer_a] I) as [E _].
  split; [exact I |]. split; [exact E |]. split; reflexivity.
Defined.

(** ** New and returning peers *)

Lemma stale_without_fetch_time (t : Time) (r : PeerAddress.t) :
  GeoDataFetchedAt r = None -> InfoFetchedAt r = None ->
  geo_stale t r = true /\ info_stale t r = true.
Proof. unfold geo_stale, info_stale. intros -> ->. split; reflexivity. Qed.

(** X9: the upsert of a contact whose key is not in the table adds one row,
    at the end; the row has no geo and no operational column set, and at any
    time it satisfies both staleness predicates, so the resolver and the
    prober are due to take it up. *)
Theorem new_peer_is_due_for_both (env : Env) (c : PeerContact.t)
  (w : World) :
  dbFault env (calls w) = false ->
  ~ In (key (peerAddressOf (clock w) c)) (map key (db w)) ->
  let r := stamp_create (clock w) (peerAddressOf (clock w) c) in
  db (exec (upsertContact env c) w) = db w ++ [r]
  /\ geo_fields r = geo_fields PeerAddress.zero
  /\ info_fields r = info_fields PeerAddress.zero
  /\ (CreatedAt r, UpdatedAt r) = (clock w, clock w)
  /\ forall t,
       In r (filter (geo_stale t) (db (exec (upsertContact env c) w)))
       /\ In r (filter (info_stale t) (db (exec (upsertContact env c) w))).
Proof.
  intros F N r. rewrite upsertContact_applied by exact F.
  rewrite Create_insert by exact N. fold r.
  split; [reflexivity |]. split; [reflexivity |]. split; [reflexivity |].
  split.
  { unfold r, stamp_create, pick_time. cbn [CreatedAt UpdatedAt peerAddressOf].
    rewrite Z.eqb_refl. reflexivity. }
  intros t.
  destruct (stale_without_fetch_time t r eq_refl eq_refl) as [G I].
  split; apply filter_In; (split; [apply in_or_app; right; now left |]);
    assumption.
Qed.

(** X9, at a concrete input: the peer 10.0.0.8 is first seen at time 50. *)
Lemma new_peer_witness :
  let env := env_peers HttpErr [] in
  let w := world_at 50 [peer_a] in
  let w' := exec (upsertContact env contact_b) w in
  map Address (db w') = ["10.0.0.7"; "10.0.0.8"]
  /\ map Address (Find (geo_stale 51) 10 (db w')) = ["10.0.0.7"; "10.0.0.8"]
  /\ map CreatedAt (db w') = [0; 50].
Proof.
  intros env w w'.
  assert (N : ~ In (key (peerAddressOf (clock w) contact_b))
                (map key (db w))).
  { intros [E | []]. discriminate E. }
  destruct (new_peer_is_due_for_both env contact_b w eq_refl N)
    as (D & _).
  unfold w'. rewrite D. repeat split.
Defined.

Lemma do_update_again (t1 t2 : Time) (c : PeerContact.t)
  (r0 : PeerAddress.t) :
  do_update (peerAddressOf t2 c) (do_update (peerAddressOf t1 c) r0)
  = set_LastSeen t2 (do_update (peerAddressOf t1 c) r0).
Proof. reflexivity. Qed.

(** X10: when a contact that was upserted is upserted again unchanged, the
    second upsert changes the last-seen time of its row and nothing else in
    the table; at the same time of sighting it changes nothing at all. *)
Theorem unchanged_contact_only_refreshes_last_seen
  (now1 now2 t1 t2 : Time) (c : PeerContact.t) (tbl : Table) :
  let p := peerAddressOf t2 c in
  let tbl1 := Create_OnConflict now1 (peerAddressOf t1 c) tbl in
  Create_OnConflict now2 p tbl1
  = map (fun r => if same_key r p then set_LastSeen t2 r else r) tbl1
  /\ Create_OnConflict now2 (peerAddressOf t1 c) tbl1 = tbl1.
Proof.
  intros p tbl1.
  assert (K : In (key p) (map key tbl1)).
  { change (key p) with (key (peerAddressOf t1 c)). apply key_in_Create. }
  assert (S : forall t, Create_OnConflict now2 (peerAddressOf t c) tbl1
                = map (fun r => if same_key r p then set_LastSeen t r else r)
                    tbl1).
  { intros t. rewrite Create_conflict by exact K.
    apply map_ext_in. intros r I.
    change (same_key r (stamp_create now2 (peerAddressOf t c)))
      with (same_key r p).
    destruct (same_key r p) eqn:Sk; [| reflexivity].
    apply same_key_iff in Sk.
    destruct (Create_row_at_key now1 (peerAddressOf t1 c) tbl r I Sk)
      as (r0 & ->).
    apply do_update_again. }
  split; [apply S |].
  rewrite S. rewrite <- (map_id tbl1) at 2. apply map_ext_in. intros r I.
  destruct (same_key r p) eqn:Sk; [| reflexivity].
  apply same_key_iff in Sk.
  destruct (Create_row_at_key now1 (peerAddressOf t1 c) tbl r I Sk)
    as (r0 & ->).
  reflexivity.
Qed.

(** ** What the lookup and the probe return *)

(** The lookup, outcome by outcome. *)
Lemma getGeoDataFromAPI_cases (env : Env) (ipAddress : string) (w : World) :
  let url := geoUrl ipAddress in
  getGeoDataFromAPI env ipAddress w
  = match geoAPI env (calls w) url with
    | HttpErr => ((None, Some ErrRequest), after_get env url w)
    | HttpResp resp =>
        if rate_limited resp then
          match Atoi (Header_Get (Headers resp) "X-Ttl") with
          | None => ((None, Some ErrParseTtl), after_get env url w)
          | Some ttlSeconds =>
              ((None, Some (ErrRateLimit ttlSeconds)),
               exec (time_Sleep env (seconds_Duration ttlSeconds))
                    (after_get env url w))
          end
        else
          match Body resp with
          | None => ((None, Some ErrDecode), after_get env url w)
          | Some api =>
              if String.eqb (IPAPIResponse.Message api) "reserved range"
              then ((None, None), after_get env url w)
              else if float_is_zero (IPAPIResponse.Latitude api)
                      && float_is_zero (IPAPIResponse.Longitude api)
              then ((None, Some (ErrNoGeoData ipAddress)),
                    after_get env url w)
              else ((Some (geoDataOf api), None), after_get env url w)
          end
    end.
Proof.
  unfold getGeoDataFromAPI, rate_limited, bind, http_Get, after_get, ret,
    time_Sleep, exec. cbn.
  destruct (geoAPI env (calls w) _) as [| resp]; [reflexivity |].
  destruct (_ || _).
  - destruct (Atoi _); reflexivity.
  - destruct (Body resp) as [api |]; [| reflexivity].
    destruct (String.eqb _ _); [reflexivity |].
    destruct (_ && _); reflexivity.
Qed.

(** X11: a lookup sends one request and issues no statement, so it leaves
    the table as it was; it never returns geo data together with an error;
    it returns geo data only for an answer with real data, and then the data
    of that answer; it returns neither data nor error only for an answer in
    a reserved range. *)
Theorem getGeoDataFromAPI_result (env : Env) (ipAddress : string)
  (w : World) :
  let r := getGeoDataFromAPI env ipAddress w in
  db (snd r) = db w
  /\ gets (trace (snd r)) = S (gets (trace w))
  /\ statements (trace (snd r)) = statements (trace w)
  /\ match fst r with
     | (Some d, Some _) => False
     | (Some d, None) =>
         exists resp api,
           geoAPI env (calls w) (geoUrl ipAddress) = HttpResp resp
           /\ real_data resp api /\ d = geoDataOf api
     | (None, None) =>
         exists resp api,
           geoAPI env (calls w) (geoUrl ipAddress) = HttpResp resp
           /\ rate_limited resp = false /\ Body resp = Some api
           /\ String.eqb (IPAPIResponse.Message api) "reserved range" = true
     | (None, Some _) => True
     end.
Proof.
  pose proof (getGeoDataFromAPI_cases env ipAddress w) as E.
  cbv zeta in E |- *. rewrite E. clear E.
  destruct (geoAPI env (calls w) (geoUrl ipAddress)) as [| resp];
    [repeat split |].
  destruct (rate_limited resp) eqn:L.
  { destruct (Atoi _); repeat split. }
  destruct (Body resp) as [api |] eqn:B; [| repeat split].
  destruct (String.eqb (IPAPIResponse.Message api) "reserved range") eqn:Res.
  { split; [reflexivity |]. split; [reflexivity |]. split; [reflexivity |].
    exists resp, api. repeat split; auto. }
  destruct (float_is_zero (IPAPIResponse.Latitude api)
            && float_is_zero (IPAPIResponse.Longitude api)) eqn:Zero;
    [repeat split |].
  split; [reflexivity |]. split; [reflexivity |]. split; [reflexivity |].
  exists resp, api. repeat split; auto.
Qed.

(** X18: a probe sends one request and issues no statement, so it leaves the
    table as it was; it never returns an info together with an error; it
    returns an info exactly when the status is 200 and the body decodes, and
    then the fields of the body with the latency measured around the
    request. *)
Theorem fetchHubInfo_result (env : Env) (peer : PeerAddress.t) (w : World) :
  let r := fetchHubInfo env peer w in
  db (snd r) = db w
  /\ gets (trace (snd r)) = S (gets (trace w))
  /\ statements (trace (snd r)) = statements (trace w)
  /\ match fst r with
     | (Some _, Some _) => False
     | (Some info, None) =>
         exists resp body,
           hubAPI env (calls w) (hubUrl (RPCAddress peer)) = HttpResp resp
           /\ StatusCode resp = StatusOK /\ Body resp = Some body
           /\ info = hubInfoOf (latency_at env w) body
     | (None, None) => False
     | (None, Some _) =>
         fetch_failed (hubAPI env (calls w) (hubUrl (RPCAddress peer)))
     end.
Proof.
  pose proof (fetchHubInfo_cases env peer w) as E. cbv zeta in E |- *.
  rewrite E. cbn [fst snd].
  split; [reflexivity |]. split; [reflexivity |]. split; [reflexivity |].
  destruct (hubAPI env (calls w) _) as [| resp]; [exact I |].
  destruct (Z.eqb_spec (StatusCode resp) StatusOK) as [S | S]; cbn [negb].
  - destruct (Body resp) as [body |] eqn:B.
    + exists resp, body. repeat split; auto.
    + cbn. now right.
  - cbn. now left.
Qed.

(** ** The resolver on a service that refuses without a TTL *)

Lemma resolvePeer_without_ttl (env : Env) (now : Time)
  (peer : PeerAddress.t) (w : World) (resp : Response IPAPIResponse.t) :
  geoAPI env (calls w) (geoUrl (GossipAddress peer)) = HttpResp resp ->
  rate_limited resp = true ->
  Atoi (Header_Get (Headers resp) "X-Ttl") = None ->
  exec (resolvePeer env now peer) w
  = after_get env (geoUrl (GossipAddress peer)) w.
Proof.
  intros A L T.
  pose proof (resolvePeer_cases env now peer w) as E. cbv zeta in E.
  now rewrite A, L, T in E.
Qed.

(** X12: when the service answers every lookup with a rate-limit response
    whose TTL header is not an integer, the resolver does not pause: over a
    batch it sends one request per peer, one after the other, sleeps for
    none of them and writes nothing. *)
Theorem refusals_without_ttl_are_not_paced
  (env : Env) (now : Time) (resp : Response IPAPIResponse.t)
  (peers : list PeerAddress.t) (w : World) :
  (forall k url, geoAPI env k url = HttpResp resp) ->
  rate_limited resp = true ->
  Atoi (Header_Get (Headers resp) "X-Ttl") = None ->
  let w' := exec (forEach peers (resolvePeer env now)) w in
  trace w'
  = rev (map (fun p => EvGet (geoUrl (GossipAddress p))) peers) ++ trace w
  /\ db w' = db w.
Proof.
  intros A L T. cbv zeta. revert w.
  induction peers as [| p peers IH]; intros w.
  - split; reflexivity.
  - rewrite exec_forEach_cons.
    rewrite (resolvePeer_without_ttl env now p w resp (A _ _) L T).
    destruct (IH (after_get env (geoUrl (GossipAddress p)) w)) as [I1 I2].
    rewrite I1, I2. split; [| reflexivity].
    cbn [map rev]. rewrite <- app_assoc. reflexivity.
Qed.

(** X12, at a concrete input: a batch of two peers against a service that
    answers 429 without a TTL header. *)
Lemma refusals_without_ttl_witness :
  let env := env_geo (fun _ => HttpResp refusal_without_ttl) in
  let w := world_at 100 [peer_a; peer_b] in
  let w' := exec (forEach [peer_a; peer_b] (resolvePeer env 100)) w in
  rate_limited refusal_without_ttl = true
  /\ Atoi (Header_Get (Headers refusal_without_ttl) "X-Ttl") = None
  /\ trace w' = [EvGet (geoUrl "10.0.0.8"); EvGet (geoUrl "10.0.0.7")]
  /\ clock w' = 100
  /\ db w' = [peer_a; peer_b].
Proof.
  intros env w w'.
  destruct (refusals_without_ttl_are_not_paced env 100 refusal_without_ttl
              [peer_a; peer_b] w (fun _ _ => eq_refl) eq_refl eq_refl)
    as [T D].
  split; [reflexivity |]. split; [reflexivity |].
  split; [exact T |]. split; [reflexivity | exact D].
Defined.

(** ** The coordinates the resolver writes *)

Lemma resolvePeer_real_coordinates (env : Env) (now : Time)
  (peer : PeerAddress.t) (w : World) :
  adds real_coordinates w (exec (resolvePeer env now peer) w).
Proof.
  pose proof (resolvePeer_cases env now peer w) as E. cbv zeta in E.
  set (url := geoUrl (GossipAddress peer)) in *.
  assert (G : adds real_coordinates w (after_get env url w)).
  { now apply adds_after_get. }
  destruct (geoAPI env (calls w) url) as [| resp]; [now rewrite E |].
  destruct (rate_limited resp).
  { destruct (Atoi _); rewrite E; auto.
    eapply adds_trans; [exact G | now apply adds_Sleep]. }
  destruct (Body resp) as [api |]; [| now rewrite E].
  destruct (String.eqb _ _).
  - rewrite E. eapply adds_trans; [exact G |].
    apply adds_Updates. intros err. exact I.
  - destruct (_ && _) eqn:Z; [now rewrite E |].
    rewrite E. eapply adds_trans; [exact G |].
    apply adds_Updates. intros err. exact Z.
Qed.

(** X19: no statement of a run of the resolver, of any number of
    iterations, writes the coordinates (0, 0): a row that has coordinates
    from the resolver has real ones. *)
Theorem resolver_never_writes_null_island (env : Env) (n : nat)
  (w : World) :
  adds real_coordinates w (exec (resolveIPToGeo env n) w).
Proof.
  rewrite exec_resolveIPToGeo. apply resolveIPToGeo_for_rel.
  - apply adds_refl.
  - apply adds_trans.
  - intros w0. now apply adds_Find.
  - intros peer w0. apply resolvePeer_real_coordinates.
  - intros d w0. now apply adds_Sleep.
Qed.

(** ** The pace of the two loops *)

(** Unfolds the counters of a trace that starts with known events. *)
Ltac count_events :=
  unfold paced, gets, statements;
  cbn [trace emit tick advance set_db clock filter is_get is_updates
       List.length];
  split; [lia | split; lia].

Lemma paced_refl (w : World) : paced 0 0 0 w w.
Proof. unfold paced. split; [lia | split; lia]. Qed.

Lemma paced_trans (g1 g2 s1 s2 : nat) (d1 d2 : Duration) (a b c : World) :
  paced g1 s1 d1 a b -> paced g2 s2 d2 b c ->
  paced (g1 + g2) (s1 + s2) (d1 + d2) a c.
Proof. unfold paced. intros (A1 & A2 & A3) (B1 & B2 & B3). lia. Qed.

Lemma paced_after_get (env : Env) (url : string) (w : World) :
  paced 1 0 0 w (after_get env url w).
Proof. unfold after_get. count_events. Qed.

Lemma paced_Sleep (env : Env) (d : Duration) (w : World) :
  paced 0 0 d w (exec (time_Sleep env d) w).
Proof. rewrite exec_time_Sleep. count_events. Qed.

Lemma paced_Find (env : Env) (pred : Time -> PeerAddress.t -> bool)
  (limit : nat) (w : World) :
  paced 0 0 0 w (exec (db_Find env pred limit) w).
Proof. unfold exec, db_Find. cbn [snd]. count_events. Qed.

Lemma paced_Updates (env : Env) (m upd : PeerAddress.t) (w : World) :
  paced 0 1 0 w (exec (db_Updates env m upd) w).
Proof.
  unfold exec, db_Updates.
  destruct (missing_where m); [| destruct (dbFault env (calls w))];
    cbn [snd]; count_events.
Qed.

Lemma length_db_Find (env : Env) (pred : Time -> PeerAddress.t -> bool)
  (limit : nat) (w : World) :
  (List.length (fst (db_Find env pred limit w)) <= limit)%nat.
Proof.
  unfold db_Find. cbn. destruct (dbFault env (calls w)); cbn; [lia |].
  unfold Find. rewrite length_firstn. lia.
Qed.

Lemma clock_Sleep_mono (env : Env) (d : Duration) (w : World) :
  clock w <= clock (exec (time_Sleep env d) w).
Proof. rewrite exec_time_Sleep. cbn [clock emit tick advance]. lia. Qed.

(** One step of the resolver: one request, at most one statement. *)
Lemma resolvePeer_paced (env : Env) (now : Time) (peer : PeerAddress.t)
  (w : World) :
  exists s, (s <= 1)%nat /\ paced 1 s 0 w (exec (resolvePeer env now peer) w).
Proof.
  pose proof (resolvePeer_cases env now peer w) as E. cbv zeta in E.
  set (url := geoUrl (GossipAddress peer)) in *.
  pose proof (paced_after_get env url w) as G.
  assert (U : forall upd,
             paced (1 + 0) (0 + 1) (0 + 0) w
               (exec (db_Updates env peer upd) (after_get env url w))).
  { intros upd. eapply paced_trans; [exact G | apply paced_Updates]. }
  destruct (geoAPI env (calls w) url) as [| resp];
    [exists 0%nat; rewrite E; split; [lia | exact G] |].
  destruct (rate_limited resp).
  { destruct (Atoi _) as [ttl |]; rewrite E.
    - exists 0%nat. split; [lia |].
      destruct G as (G1 & G2 & G3).
      destruct (paced_Sleep env (seconds_Duration ttl)
                  (after_get env url w)) as (S1 & S2 & S3).
      pose proof (clock_Sleep_mono env (seconds_Duration ttl)
                    (after_get env url w)) as M.
      unfold paced. rewrite S1, S2, G1, G2.
      split; [lia | split; lia].
    - exists 0%nat. split; [lia | exact G]. }
  destruct (Body resp) as [api |];
    [| exists 0%nat; rewrite E; split; [lia | exact G]].
  destruct (String.eqb _ _).
  - exists 1%nat. rewrite E. split; [lia | apply U].
  - destruct (_ && _).
    + exists 0%nat. rewrite E. split; [lia | exact G].
    + exists 1%nat. rewrite E. split; [lia | apply U].
Qed.

(** One step of the prober: one request and one statement. *)
Lemma probePeer_paced (env : Env) (now : Time) (peer : PeerAddress.t)
  (w : World) :
  paced 1 1 0 w (exec (probePeer env now peer) w).
Proof.
  rewrite probePeer_exec.
  pose proof (fetchHubInfo_cases env peer w) as E. cbv zeta in E.
  rewrite E. cbn [fst snd].
  exact (paced_trans 1 0 0 1 0 0 _ _ _
           (paced_after_get env (hubUrl (RPCAddress peer)) w)
           (paced_Updates env peer _ _)).
Qed.

Lemma resolve_batch_paced (env : Env) (now : Time)
  (peers : list PeerAddress.t) (w : World) :
  exists s, (s <= List.length peers)%nat
    /\ paced (List.length peers) s 0 w
         (exec (forEach peers (resolvePeer env now)) w).
Proof.
  revert w. induction peers as [| p peers IH]; intros w.
  - exists 0%nat. split; [reflexivity | apply paced_refl].
  - rewrite exec_forEach_cons.
    destruct (resolvePeer_paced env now p w) as (s1 & L1 & P1).
    destruct (IH (exec (resolvePeer env now p) w)) as (s2 & L2 & P2).
    exists (s1 + s2)%nat. split; [cbn; lia |].
    apply (paced_trans _ _ _ _ _ _ _ _ _ P1 P2).
Qed.

Lemma probe_batch_paced (env : Env) (now : Time)
  (peers : list PeerAddress.t) (w : World) :
  paced (List.length peers) (List.length peers) 0 w
    (exec (forEach peers (probePeer env now)) w).
Proof.
  revert w. induction peers as [| p peers IH]; intros w.
  - apply paced_refl.
  - rewrite exec_forEach_cons.
    apply (paced_trans _ _ _ _ _ _ _ _ _ (probePeer_paced env now p w)
             (IH (exec (probePeer env now p) w))).
Qed.

Lemma paced_weaken (g s g' s' : nat) (d d' : Duration) (w w' : World) :
  g = g' -> s = s' -> d' <= d -> paced g s d w w' -> paced g' s' d' w w'.
Proof.
  unfold paced. intros -> -> L (A & B & C).
  split; [exact A | split; [exact B | lia]].
Qed.

(** X13: in [n] iterations of its loop the resolver sends at most ten
    requests per iteration, issues at most one statement per request, and
    takes at least [n] minutes. *)
Theorem resolver_pace (env : Env) (n : nat) (w : World) :
  exists g s,
    (s <= g <= 10 * n)%nat
    /\ paced g s (Z.of_nat n * Minute) w (exec (resolveIPToGeo env n) w).
Proof.
  rewrite exec_resolveIPToGeo. generalize (clock w) at 1. intros now.
  revert w. induction n as [| n IH]; intros w.
  - exists 0%nat, 0%nat. split; [lia | apply paced_refl].
  - rewrite resolveIPToGeo_for_S.
    pose proof (length_db_Find env geo_stale 10 w) as Len.
    pose proof (paced_Find env geo_stale 10 w) as PF.
    set (peers := fst (db_Find env geo_stale 10 w)) in *.
    set (w1 := exec (db_Find env geo_stale 10) w) in *.
    destruct (resolve_batch_paced env now peers w1) as (s1 & L1 & PB).
    set (w2 := exec (forEach peers (resolvePeer env now)) w1) in *.
    pose proof (paced_Sleep env (1 * Minute) w2) as PS.
    set (w3 := exec (time_Sleep env (1 * Minute)) w2) in *.
    destruct (IH w3) as (g & s & B & PL).
    exists (List.length peers + g)%nat, (s1 + s)%nat. split; [lia |].
    pose proof (paced_trans _ _ _ _ _ _ _ _ _ PF PB) as P1.
    pose proof (paced_trans _ _ _ _ _ _ _ _ _ P1 PS) as P2.
    pose proof (paced_trans _ _ _ _ _ _ _ _ _ P2 PL) as P3.
    eapply paced_weaken; [| | | exact P3]; lia.
Qed.

(** X14: in [n] iterations of its loop the prober sends at most ten requests
    per iteration, issues exactly one statement per request, whatever the
    request's outcome, and takes at least [n] times thirty seconds. *)
Theorem prober_pace (env : Env) (n : nat) (w : World) :
  exists g,
    (g <= 10 * n)%nat
    /\ paced g g (Z.of_nat n * (30 * Second)) w (exec (getHubInfo env n) w).
Proof.
  rewrite exec_getHubInfo. generalize (clock w) at 1. intros now.
  revert w. induction n as [| n IH]; intros w.
  - exists 0%nat. split; [lia | apply paced_refl].
  - rewrite getHubInfo_for_S.
    pose proof (length_db_Find env info_stale 10 w) as Len.
    pose proof (paced_Find env info_stale 10 w) as PF.
    set (peers := fst (db_Find env info_stale 10 w)) in *.
    set (w1 := exec (db_Find env info_stale 10) w) in *.
    pose proof (probe_batch_paced env now peers w1) as PB.
    set (w2 := exec (forEach peers (probePeer env now)) w1) in *.
    pose proof (paced_Sleep env (30 * Second) w2) as PS.
    set (w3 := exec (time_Sleep env (30 * Second)) w2) in *.
    destruct (IH w3) as (g & B & PL).
    exists (List.length peers + g)%nat. split; [lia |].
    pose proof (paced_trans _ _ _ _ _ _ _ _ _ PF PB) as P1.
    pose proof (paced_trans _ _ _ _ _ _ _ _ _ P1 PS) as P2.
    pose proof (paced_trans _ _ _ _ _ _ _ _ _ P2 PL) as P3.
    eapply paced_weaken; [| | | exact P3]; lia.
Qed.

(** ** The loops on an empty table *)

Lemma db_Find_empty (env : Env) (pred : Time -> PeerAddress.t -> bool)
  (limit : nat) (w : World) :
  db w = [] ->
  fst (db_Find env pred limit w) = []
  /\ db (exec (db_Find env pred limit) w) = [].
Proof.
  intros E. unfold exec, db_Find. cbn. rewrite E.
  destruct (dbFault env (calls w)); split; auto.
  unfold Find. cbn. apply firstn_nil.
Qed.

Lemma resolveIPToGeo_for_empty (env : Env) (n : nat) (now : Time)
  (w : World) :
  db w = [] ->
  db (exec (resolveIPToGeo_for env n 10 now) w) = []
  /\ paced 0 0 (Z.of_nat n * Minute) w
       (exec (resolveIPToGeo_for env n 10 now) w).
Proof.
  revert w. induction n as [| n IH]; intros w E.
  - split; [exact E | apply paced_refl].
  - rewrite resolveIPToGeo_for_S.
    destruct (db_Find_empty env geo_stale 10 w E) as [F D]. rewrite F.
    set (w1 := exec (db_Find env geo_stale 10) w) in *.
    change (exec (forEach [] (resolvePeer env now)) w1) with w1.
    set (w2 := exec (time_Sleep env (1 * Minute)) w1).
    destruct (IH w2 D) as [I1 I2]. split; [exact I1 |].
    pose proof (paced_trans _ _ _ _ _ _ _ _ _
                  (paced_trans _ _ _ _ _ _ _ _ _
                     (paced_Find env geo_stale 10 w)
                     (paced_Sleep env (1 * Minute) w1)) I2) as P.
    eapply paced_weaken; [| | | exact P]; lia.
Qed.

Lemma getHubInfo_for_empty (env : Env) (n : nat) (now : Time) (w : World) :
  db w = [] ->
  db (exec (getHubInfo_for env n 10 now) w) = []
  /\ paced 0 0 (Z.of_nat n * (30 * Second)) w
       (exec (getHubInfo_for env n 10 now) w).
Proof.
  revert w. induction n as [| n IH]; intros w E.
  - split; [exact E | apply paced_refl].
  - rewrite getHubInfo_for_S.
    destruct (db_Find_empty env info_stale 10 w E) as [F D]. rewrite F.
    set (w1 := exec (db_Find env info_stale 10) w) in *.
    change (exec (forEach [] (probePeer env now)) w1) with w1.
    set (w2 := exec (time_Sleep env (30 * Second)) w1).
    destruct (IH w2 D) as [I1 I2]. split; [exact I1 |].
    pose proof (paced_trans _ _ _ _ _ _ _ _ _
                  (paced_trans _ _ _ _ _ _ _ _ _
                     (paced_Find env info_stale 10 w)
                     (paced_Sleep env (30 * Second) w1)) I2) as P.
    eapply paced_weaken; [| | | exact P]; lia.
Qed.

(** X15: on an empty table the resolver and the prober only scan and sleep:
    over any number of iterations they send no request, issue no statement
    and leave the table empty, while the time of their pauses goes by. *)
Theorem empty_table_only_scans (env : Env) (n : nat) (w : World) :
  db w = [] ->
  (db (exec (resolveIPToGeo env n) w) = []
   /\ paced 0 0 (Z.of_nat n * Minute) w (exec (resolveIPToGeo env n) w))
  /\ (db (exec (getHubInfo env n) w) = []
      /\ paced 0 0 (Z.of_nat n * (30 * Second)) w
           (exec (getHubInfo env n) w)).
Proof.
  intros E. rewrite exec_resolveIPToGeo, exec_getHubInfo.
  split; [now apply resolveIPToGeo_for_empty
         | now apply getHubInfo_for_empty].
Qed.

(** X15, at a concrete input: three iterations of each loop from the empty
    table. *)
Lemma empty_table_witness :
  let env := env_hub (ok_response (hub_body 5)) in
  let w := world_at 0 [] in
  db (exec (resolveIPToGeo env 3) w) = []
  /\ gets (trace (exec (resolveIPToGeo env 3) w)) = 0%nat
  /\ gets (trace (exec (getHubInfo env 3) w)) = 0%nat
  /\ 3 * Minute <= clock (exec (resolveIPToGeo env 3) w).
Proof.
  intros env w.
  destruct (empty_table_only_scans env 3 w eq_refl)
    as [[D (G & _ & C)] [_ (G' & _ & _)]].
  split; [exact D |]. split; [exact G |]. split; [exact G' | exact C].
Defined.

(** ** The prober stamps every peer it probes *)

Lemma probePeer_applied (env : Env) (now : Time) (peer : PeerAddress.t)
  (w : World) :
  let w1 := after_get env (hubUrl (RPCAddress peer)) w in
  missing_where peer = false ->
  dbFault env (calls w1) = false ->
  db (exec (probePeer env now peer) w)
  = Updates (clock w1) peer
      (infoUpdateOf now (fst (fst (fetchHubInfo env peer w)))) (db w).
Proof.
  intros w1 Hw Hf. rewrite probePeer_exec.
  pose proof (fetchHubInfo_cases env peer w) as E. cbv zeta in E.
  rewrite E. cbn [fst snd]. fold w1.
  rewrite db_Updates_applied by assumption. reflexivity.
Qed.

(** X16: whatever the probe's outcome, when the prober's statement is
    applied every row of the peer's key carries the prober's [now] as info
    fetch time and keeps its key, its ingestion columns, its geo columns and
    its creation time, and every other row is as it was. A row so stamped is
    stale at a scan of time [t] exactly when [now] is more than an hour
    before [t]. *)
Theorem probe_stamps_whatever_the_outcome
  (env : Env) (now : Time) (peer : PeerAddress.t) (w : World) :
  let w1 := after_get env (hubUrl (RPCAddress peer)) w in
  let w' := exec (probePeer env now peer) w in
  missing_where peer = false ->
  dbFault env (calls w1) = false ->
  Forall2 (fun r0 r => if where_model peer r0
                       then InfoFetchedAt r = Some now
                            /\ kept_by_prober r0 r
                            /\ forall t,
                                 info_stale t r = (now <? t - 1 * Hour)
                       else r = r0) (db w) (db w').
Proof.
  intros w1 w' Hw Hf. unfold w'.
  rewrite (probePeer_applied env now peer w Hw Hf).
  generalize (fst (fst (fetchHubInfo env peer w))). intros info.
  apply Forall2_image. intros r.
  destruct (where_model peer r); [| reflexivity].
  assert (S : forall c,
             InfoFetchedAt (assign c (infoUpdateOf now info) r) = Some now)
    by (intros c; destruct info; reflexivity).
  split; [apply S |]. split.
  - destruct info; repeat split.
  - intros t. unfold info_stale. now rewrite S.
Qed.

(** X16, at a concrete input: the hub of the peer 10.0.0.7 does not
    answer; the table holds a second peer. *)
Lemma probe_stamps_witness :
  let env := env_hub HttpErr in
  let w := world_at 100 [peer_a; peer_b] in
  let w' := exec (probePeer env 50 peer_a) w in
  Forall2 (fun r0 r => if where_model peer_a r0
                       then InfoFetchedAt r = Some 50
                            /\ kept_by_prober r0 r
                            /\ forall t,
                                 info_stale t r = (50 <? t - 1 * Hour)
                       else r = r0) (db w) (db w')
  /\ map InfoFetchedAt (db w') = [Some 50; None]
  /\ map Nickname (db w') = [None; None].
Proof.
  intros env w w'.
  split; [| split; reflexivity].
  exact (probe_stamps_whatever_the_outcome env 50 peer_a w eq_refl eq_refl).
Defined.

(** ** The latency the prober stores *)

Lemma latency_at_elapsed (env : Env) (w : World) :
  latency_at env w = Z.max 0 (elapsed env (calls w)) / 1000000
  /\ 0 <= latency_at env w.
Proof.
  unfold latency_at, Duration_Milliseconds. cbn [clock tick].
  replace (clock w + Z.max 0 (elapsed env (calls w)) - clock w)
    with (Z.max 0 (elapsed env (calls w))) by lia.
  rewrite Z.quot_div_nonneg by lia. split; [reflexivity |].
  apply Z.div_pos; lia.
Qed.

(** X17: after a probe that succeeds and whose statement is applied, every
    row of the peer's key holds the ten operational fields of the answer;
    the latency among them is the time the request took, in whole
    milliseconds, never negative, and it counts nothing of the time the
    statement takes. *)
Theorem successful_probe_stores_latency
  (env : Env) (now : Time) (peer : PeerAddress.t) (w : World)
  (resp : Response HubInfoResponse.t) (body : HubInfoResponse.t) :
  let url := hubUrl (RPCAddress peer) in
  hubAPI env (calls w) url = HttpResp resp ->
  StatusCode resp = StatusOK ->
  Body resp = Some body ->
  missing_where peer = false ->
  dbFault env (calls (after_get env url w)) = false ->
  let latency := Z.max 0 (elapsed env (calls w)) / 1000000 in
  0 <= latency
  /\ forall r,
       In r (db (exec (probePeer env now peer) w)) ->
       where_model peer r = true ->
       info_fields r = info_of (hubInfoOf latency body)
       /\ Latency r = Some latency
       /\ InfoFetchedAt r = Some now.
Proof.
  intros url A S B Hw Hf latency.
  destruct (latency_at_elapsed env w) as [L P]. fold latency in L.
  split; [now rewrite <- L |].
  intros r I Wm.
  rewrite (probePeer_applied env now peer w Hw Hf) in I.
  pose proof (fetchHubInfo_cases env peer w) as E. cbv zeta in E.
  fold url in E. rewrite A, S, B in E. rewrite E, L in I. cbn [fst negb] in I.
  change (StatusOK =? StatusOK) with true in I. cbn [negb fst] in I.
  apply in_map_iff in I. destruct I as (r0 & <- & _).
  destruct (where_model peer r0) eqn:W0.
  - rewrite assign_infoUpdate_some. repeat split.
  - congruence.
Qed.

(** X17, at a concrete input: the request takes seven milliseconds and a
    half. *)
Lemma latency_witness :
  let env := {| HUB_URL := "hub.example:2281";
                peerListAPI := fun _ _ => HttpErr;
                geoAPI := fun _ _ => HttpErr;
                hubAPI := fun _ _ => ok_response (hub_body 5);
                elapsed := fun _ => 7500000;
                dbFault := fun _ => false |} in
  let w := world_at 100 [peer_a] in
  map Latency (db (exec (probePeer env 100 peer_a) w)) = [Some 7]
  /\ map HubOperatorFid (db (exec (probePeer env 100 peer_a) w)) = [Some 5].
Proof.
  intros env w.
  destruct (successful_probe_stores_latency env 100 peer_a w _ (hub_body 5)
              eq_refl eq_refl eq_refl eq_refl eq_refl) as [_ H].
  assert (D : db (exec (probePeer env 100 peer_a) w)
              = [with_info 7500100 100 (hubInfoOf 7 (hub_body 5)) peer_a])
    by reflexivity.
  rewrite D in H |- *.
  destruct (H _ (or_introl eq_refl) eq_refl) as (_ & L & _).
  split; [cbn [map]; now rewrite L | reflexivity].
Defined.

(** ** The resolver stamps the peers whose lookup succeeds *)

Lemma resolvePeer_exec (env : Env) (now : Time) (peer : PeerAddress.t)
  (w : World) :
  let r := getGeoDataFromAPI env (GossipAddress peer) w in
  exec (resolvePeer env now peer) w
  = match snd (fst r) with
    | Some _ => snd r
    | None =>
        exec (db_Updates env peer (geoUpdate now (fst (fst r)))) (snd r)
    end.
Proof.
  cbv zeta. unfold resolvePeer, exec, bind, ret.
  destruct (getGeoDataFromAPI env (GossipAddress peer) w)
    as [[geoData err] w1].
  cbn [fst snd]. destruct err; [reflexivity |].
  destruct (db_Updates env peer _ w1); reflexivity.
Qed.

(** X20: the resolver writes for a peer exactly when the lookup returned no
    error. After an error of any kind (transport, rate limit, TTL header,
    decoding, no data) the table is as it was, so the peer keeps the fetch
    time it had. After a lookup without error, when the statement is
    applied, every row of the peer's key carries the resolver's [now] as geo
    fetch time and keeps its key, its ingestion columns, its operational
    columns and its creation time; every other row is as it was; and a row so
    stamped is stale at a scan of time [t] exactly when [now] is more than a
    day before [t]. *)
Theorem resolver_stamps_iff_lookup_succeeds
  (env : Env) (now : Time) (peer : PeerAddress.t) (w : World) :
  let r := getGeoDataFromAPI env (GossipAddress peer) w in
  let w' := exec (resolvePeer env now peer) w in
  (snd (fst r) <> None -> db w' = db w)
  /\ (snd (fst r) = None ->
      missing_where peer = false ->
      dbFault env (calls (snd r)) = false ->
      Forall2 (fun r0 r1 => if where_model peer r0
                            then GeoDataFetchedAt r1 = Some now
                                 /\ kept_by_resolver r0 r1
                                 /\ forall t,
                                      geo_stale t r1
                                      = (now <? t - 24 * Hour)
                            else r1 = r0) (db w) (db w')).
Proof.
  intros r w'. pose proof (resolvePeer_exec env now peer w) as E.
  cbv zeta in E. fold r w' in E.
  assert (D : db (snd r) = db w).
  { apply (getGeoDataFromAPI_db env (GossipAddress peer) w). }
  split.
  - intros N. rewrite E. destruct (snd (fst r)); [exact D | congruence].
  - intros S Hw Hf. rewrite E, S, db_Updates_applied by assumption.
    cbn [db emit tick set_db]. rewrite D.
    generalize (fst (fst r)) (clock (snd r)). intros g c.
    apply Forall2_image. intros r0.
    destruct (where_model peer r0); [| reflexivity].
    assert (T : GeoDataFetchedAt (assign c (geoUpdate now g) r0) = Some now)
      by (destruct g; reflexivity).
    split; [exact T |]. split.
    + destruct g; repeat split.
    + intros t. unfold geo_stale. now rewrite T.
Qed.

(** X20, at concrete inputs: a lookup that cannot be decoded and a lookup
    that places the peer in Berlin. *)
Lemma resolver_stamps_witness :
  let bad := env_geo (fun _ => geo_response 200 "44" "60" None) in
  let good := env_geo (fun _ => geo_response 200 "44" "60"
                                  (Some api_berlin)) in
  let w := world_at 100 [peer_a; peer_b] in
  db (exec (resolvePeer bad 100 peer_a) w) = [peer_a; peer_b]
  /\ map GeoDataFetchedAt (db (exec (resolvePeer good 100 peer_a) w))
     = [Some 100; None]
  /\ Forall2 (fun r0 r1 => if where_model peer_a r0
                           then GeoDataFetchedAt r1 = Some 100
                                /\ kept_by_resolver r0 r1
                                /\ forall t,
                                     geo_stale t r1
                                     = (100 <? t - 24 * Hour)
                           else r1 = r0)
       (db w) (db (exec (resolvePeer good 100 peer_a) w)).
Proof.
  intros bad good w.
  destruct (resolver_stamps_iff_lookup_succeeds bad 100 peer_a w)
    as [B _].
  destruct (resolver_stamps_iff_lookup_succeeds good 100 peer_a w)
    as [_ G].
  split; [apply B; discriminate |]. split; [reflexivity |].
  exact (G eq_refl eq_refl eq_refl).
Defined.
